(** * aiobotocore.credentials: credential resolution and refresh

  A shallow embedding of [aiobotocore/credentials.py].  Coroutines are
  modelled in two ways, depending on what is proved about them:

  - code whose awaits never interleave with another task on the same
    object (the resolver loop, the cached fetcher, the canonical-name
    sourcer, the assume-role resolution) is written in a
    state-and-exception monad over an explicit world;
  - the refresh protocol of [AioRefreshableCredentials], whose whole
    point is what happens when several tasks run it at once, is written
    once as a tree of events and given both a sequential reading and an
    interleaving one.

  Python values keep their shape: [None] is [option], a raised exception
  is the [Raise] outcome, dictionaries are finite maps. *)

From Stdlib Require Import ZArith Lia Bool Ascii String.
From stdpp Require Import base option strings list gmap.

Open Scope Z_scope.

(** ** Exceptions and outcomes *)

(** The exception classes the module raises or lets through. *)
Inductive exn : Type :=
| NotImplementedError (msg : string)
| RuntimeError (msg : string)
| KeyError (key : string)
| AttributeError (msg : string)
| InvalidConfigError (error_msg : string)
| PartialCredentialsError (provider cred_var : string)
| CredentialRetrievalError (provider error_msg : string)
| UnknownCredentialError (name : string)
| RefreshWithMFAUnsupportedError
| ValueError (msg : string)
| ProfileNotFound (profile : string)
| OtherError (msg : string).

(** What evaluating a Python expression gives: a value, or a raised
  exception. *)
Inductive result (A : Type) : Type :=
| Ok (a : A)
| Raise (e : exn).
Arguments Ok {A} a.
Arguments Raise {A} e.

#[global] Instance exn_eq_dec : EqDecision exn.
Proof. solve_decision. Defined.

#[global] Instance result_eq_dec `{EqDecision A} : EqDecision (result A).
Proof. solve_decision. Defined.

(** ** The state-and-exception monad

  [M S A] is a computation over a state [S] that returns an [A] or raises.
  The state a raising computation leaves behind is kept: what Python
  mutated before the [raise] stays mutated. *)
Definition M (S A : Type) : Type := S -> result A * S.

Definition ret {S A} (a : A) : M S A := fun s => (Ok a, s).
Definition raise {S A} (e : exn) : M S A := fun s => (Raise e, s).
Definition bind {S A B} (m : M S A) (k : A -> M S B) : M S B :=
fun s => match m s with
         | (Ok a, s') => k a s'
         | (Raise e, s') => (Raise e, s')
         end.
Definition get {S} : M S S := fun s => (Ok s, s).
Definition modify {S} (f : S -> S) : M S unit := fun s => (Ok tt, f s).

Declare Scope state_scope.
Notation "'let*' x ':=' m 'in' k" := (bind m (fun x => k))
(at level 10, x name, m at level 100, k at level 200) : state_scope.
Open Scope state_scope.

(** ** Credentials as data *)

(** [ReadOnlyCredentials]: the frozen triple handed to a signer. *)
Record ReadOnlyCredentials : Type := mkReadOnly {
ro_access_key : option string;
ro_secret_key : option string;
ro_token : option string;
}.

#[global] Instance ReadOnlyCredentials_eq_dec : EqDecision ReadOnlyCredentials.
Proof. solve_decision. Defined.

(** ** [AioCredentialResolver] *)

Module Resolver.
Section Chain.
(** The providers, what they produce, and the world their [load] reads
    and changes (environment, files, metadata endpoints).  [load] is the
    provider's own coroutine; the resolver only awaits it. *)
Context {Provider Credential World : Type}.
Variable load : Provider -> M World (option Credential).

(** The resolver's view of the world: the world itself and the providers
    whose [load] has been awaited so far, oldest first. *)
Record St : Type := mkSt { world : World; invoked : list Provider }.

(** [await provider.load()] *)
Definition await_load (provider : Provider) : M St (option Credential) :=
  fun s =>
    let '(r, w') := load provider (world s) in
    (r, {| world := w'; invoked := invoked s ++ [provider] |}).

(** [AioCredentialResolver.load_credentials]: the [for] loop over
    [self.providers]. *)
Fixpoint load_credentials (providers : list Provider) : M St (option Credential) :=
  match providers with
  | [] =>
      (* If we got here, no credentials could be found. *)
      ret None
  | provider :: rest =>
      let* creds := await_load provider in
      match creds with
      | Some c => ret (Some c)
      | None => load_credentials rest
      end
  end.

(** Every provider of [ps], loaded in turn from [w], returns [None];
    the result is the world they leave. *)
Fixpoint all_decline (ps : list Provider) (w : World) : option World :=
  match ps with
  | [] => Some w
  | p :: ps' =>
      match load p w with
      | (Ok None, w') => all_decline ps' w'
      | _ => None
      end
  end.

Lemma load_credentials_skip (pre rest : list Provider) (w w' : World) (log : list Provider) :
  all_decline pre w = Some w' ->
  load_credentials (pre ++ rest) (mkSt w log)
  = load_credentials rest (mkSt w' (log ++ pre)).
Proof.
  revert w log. induction pre as [|p pre IH]; intros w log Hd; simpl in *.
  - injection Hd as ->. by rewrite app_nil_r.
  - unfold bind, await_load; simpl.
    destruct (load p w) as [[[c|]|e] w1] eqn:Hl; try discriminate.
    rewrite (IH _ _ Hd). by rewrite <- app_assoc.
Qed.

(** Whatever the providers answer, the ones invoked are an initial segment
  of the chain, in order. *)
Lemma load_credentials_invokes_prefix (providers : list Provider) (s : St) :
  exists pre, pre `prefix_of` providers
    /\ invoked (load_credentials providers s).2 = invoked s ++ pre.
Proof.
  revert s. induction providers as [|p ps IH]; intros s; simpl.
  - exists []. split; [done|by rewrite app_nil_r].
  - unfold bind, await_load.
    destruct (load p (world s)) as [[[c|]|e] w] eqn:Hl; simpl.
    + exists [p]. split; [|done]. by apply prefix_cons, prefix_nil.
    + destruct (IH (mkSt w (invoked s ++ [p]))) as (pre & Hpre & Hinv).
      exists (p :: pre). split; [by apply prefix_cons|].
      rewrite Hinv; simpl. by rewrite <- app_assoc.
    + exists [p]. split; [|done]. by apply prefix_cons, prefix_nil.
Qed.

(** C2. [load_credentials] asks the providers to load in list order.  When
  the providers of [pre] all return [None], the chain [pre] alone returns
  [None] (a value, not an exception), having invoked exactly [pre]; and
  when the next provider [p] returns a credential, the chain
  [pre ++ p :: post] returns that credential having invoked exactly
  [pre ++ [p]]: no provider of [post] is asked. *)
Theorem load_credentials_first_wins
  (pre : list Provider) (w w1 : World) (log : list Provider) :
  all_decline pre w = Some w1 ->
  load_credentials pre (mkSt w log) = (Ok None, mkSt w1 (log ++ pre))
  /\ (forall p post c w2,
        load p w1 = (Ok (Some c), w2) ->
        load_credentials (pre ++ p :: post) (mkSt w log)
        = (Ok (Some c), mkSt w2 (log ++ pre ++ [p]))).
Proof.
  intros Hd. split.
  - rewrite <- (app_nil_r pre) at 1.
    by rewrite (load_credentials_skip _ _ _ _ _ Hd).
  - intros p post c w2 Hp.
    rewrite (load_credentials_skip _ _ _ _ _ Hd). simpl.
    unfold bind, await_load; simpl. rewrite Hp; simpl.
    by rewrite app_assoc.
Qed.

End Chain.

(** A chain of four providers named by numbers, over a world that counts
  the loads performed; provider 2 is the only one with credentials. *)
Definition demo_load (p : nat) : M nat (option string) :=
fun w => (Ok (if Nat.eqb p 2 then Some "AKIDEXAMPLE"%string else None), S w).

Lemma load_credentials_first_wins_witness :
  all_decline demo_load [0; 1]%nat 0%nat = Some 2%nat
  /\ load_credentials demo_load [0; 1; 2; 3]%nat (mkSt 0%nat [])
     = (Ok (Some "AKIDEXAMPLE"%string), mkSt 3%nat [0; 1; 2]%nat)
  /\ load_credentials demo_load [0; 1]%nat (mkSt 0%nat [])
     = (Ok None, mkSt 2%nat [0; 1]%nat).
Proof.
  pose proof (load_credentials_first_wins demo_load [0; 1]%nat 0%nat 2%nat []
                eq_refl) as [Hnone Hfirst].
  split; [reflexivity|]. split.
  - exact (Hfirst 2%nat [3%nat] "AKIDEXAMPLE"%string 3%nat eq_refl).
  - exact Hnone.
Defined.

End Resolver.

(** ** [AioRefreshableCredentials] and [AioDeferredRefreshableCredentials] *)

Module Refresh.

(** The normalized dict every fetcher returns:
  [{'access_key', 'secret_key', 'token', 'expiry_time'}].  Instants are
  integers (ticks of the clock [_time_fetcher] reads); the window lengths
  are in the same unit. *)
Record CredentialMetadata : Type := mkMetadata {
md_access_key : string;
md_secret_key : string;
md_token : option string;
md_expiry_time : Z;
}.

#[global] Instance CredentialMetadata_eq_dec : EqDecision CredentialMetadata.
Proof. solve_decision. Defined.

(** Which class an object is an instance of: it decides which
  [refresh_needed] a call through [self] reaches. *)
Inductive Class : Type :=
| AioRefreshableCredentialsClass
| AioDeferredRefreshableCredentialsClass.

#[global] Instance Class_eq_dec : EqDecision Class.
Proof. solve_decision. Defined.

(** The attributes of a refreshable credential object.  The two window
  lengths are class attributes of botocore's [RefreshableCredentials], read
  through [self].  The injected functions [_refresh_using] and
  [_time_fetcher] and the lock [_refresh_lock] are not data: they are the
  events below. *)
Record RefreshableCredentials : Type := mkCreds {
cls : Class;
_access_key : option string;
_secret_key : option string;
_token : option string;
_expiry_time : option Z;
method : string;
_frozen_credentials : option ReadOnlyCredentials;
_advisory_refresh_timeout : Z;
_mandatory_refresh_timeout : Z;
}.

#[global] Instance RefreshableCredentials_eq_dec : EqDecision RefreshableCredentials.
Proof. solve_decision. Defined.

(** [AioDeferredRefreshableCredentials.__init__]: every field starts unset. *)
Definition AioDeferredRefreshableCredentials_init
  (method : string) (advisory mandatory : Z) : RefreshableCredentials :=
{| cls := AioDeferredRefreshableCredentialsClass;
   _access_key := None; _secret_key := None; _token := None;
   _expiry_time := None; method := method;
   _frozen_credentials := None;
   _advisory_refresh_timeout := advisory;
   _mandatory_refresh_timeout := mandatory |}.

(** *** Coroutines as trees of events

  A coroutine on a credential object is a tree: it returns, raises, or
  performs one of the object's operations and continues with the answer. *)
Inductive prog (A : Type) : Type :=
| Return (a : A)
| Throw (e : exn)
| GetSelf (k : RefreshableCredentials -> prog A)
    (* read the attributes of [self] *)
| Modify (f : RefreshableCredentials -> RefreshableCredentials) (k : prog A)
    (* assign attributes of [self] *)
| TimeFetcher (k : Z -> prog A)
    (* [self._time_fetcher()] *)
| RefreshUsing (k : result CredentialMetadata -> prog A)
    (* [await self._refresh_using()], answered by its value or exception *)
| Locked (k : bool -> prog A)
    (* [self._refresh_lock.locked()] *)
| Acquire (k : prog A)
    (* entering [async with self._refresh_lock] *)
| Release (k : prog A).
    (* leaving it *)
Arguments Return {A} a.
Arguments Throw {A} e.
Arguments GetSelf {A} k.
Arguments Modify {A} f k.
Arguments TimeFetcher {A} k.
Arguments RefreshUsing {A} k.
Arguments Locked {A} k.
Arguments Acquire {A} k.
Arguments Release {A} k.

Fixpoint pbind {A B} (p : prog A) (f : A -> prog B) : prog B :=
match p with
| Return a => f a
| Throw e => Throw e
| GetSelf k => GetSelf (fun x => pbind (k x) f)
| Modify g k => Modify g (pbind k f)
| TimeFetcher k => TimeFetcher (fun x => pbind (k x) f)
| RefreshUsing k => RefreshUsing (fun x => pbind (k x) f)
| Locked k => Locked (fun x => pbind (k x) f)
| Acquire k => Acquire (pbind k f)
| Release k => Release (pbind k f)
end.

(** [try: p  except Exception: h] *)
Fixpoint ptry {A} (p : prog A) (h : exn -> prog A) : prog A :=
match p with
| Return a => Return a
| Throw e => h e
| GetSelf k => GetSelf (fun x => ptry (k x) h)
| Modify g k => Modify g (ptry k h)
| TimeFetcher k => TimeFetcher (fun x => ptry (k x) h)
| RefreshUsing k => RefreshUsing (fun x => ptry (k x) h)
| Locked k => Locked (fun x => ptry (k x) h)
| Acquire k => Acquire (ptry k h)
| Release k => Release (ptry k h)
end.

(** The exit of [async with self._refresh_lock]: the lock is released
  whether the body returns or raises. *)
Fixpoint release_after {A} (p : prog A) : prog A :=
match p with
| Return a => Release (Return a)
| Throw e => Release (Throw e)
| GetSelf k => GetSelf (fun x => release_after (k x))
| Modify g k => Modify g (release_after k)
| TimeFetcher k => TimeFetcher (fun x => release_after (k x))
| RefreshUsing k => RefreshUsing (fun x => release_after (k x))
| Locked k => Locked (fun x => release_after (k x))
| Acquire k => Acquire (release_after k)
| Release k => Release (release_after k)
end.

(** [async with self._refresh_lock: body] *)
Definition async_with_refresh_lock {A} (body : prog A) : prog A :=
Acquire (release_after body).

Declare Scope prog_scope.
Notation "'let*' x ':=' m 'in' k" := (pbind m (fun x => k))
(at level 10, x name, m at level 100, k at level 200) : prog_scope.
Local Open Scope prog_scope.

(** [await self._refresh_using()] *)
Definition await_refresh_using : prog CredentialMetadata :=
RefreshUsing (fun r => match r with Ok metadata => Return metadata | Raise e => Throw e end).

(** *** The methods inherited from botocore's [RefreshableCredentials] *)

(** Modelled from the spec: the base [refresh_needed] of botocore's
  [RefreshableCredentials], which this repository inherits and does not
  define.  A window is a time-before-expiry: the refresh is needed once
  fewer than [refresh_in] ticks remain before [_expiry_time]; credentials
  with no expiry never need one. *)
Definition RefreshableCredentials_refresh_needed (refresh_in : Z) : prog bool :=
GetSelf (fun self =>
  match _expiry_time self with
  | None => Return false
  | Some expiry =>
      TimeFetcher (fun now =>
        if Z.leb refresh_in (expiry - now) then Return false else Return true)
  end).

(** The setters of the three key properties, which this repository
  redeclares next to the getters: each assigns the underlying field. *)
Definition with_access_key (value : option string) (self : RefreshableCredentials)
  : RefreshableCredentials :=
{| cls := cls self; _access_key := value; _secret_key := _secret_key self;
   _token := _token self; _expiry_time := _expiry_time self;
   method := method self; _frozen_credentials := _frozen_credentials self;
   _advisory_refresh_timeout := _advisory_refresh_timeout self;
   _mandatory_refresh_timeout := _mandatory_refresh_timeout self |}.

Definition with_secret_key (value : option string) (self : RefreshableCredentials)
  : RefreshableCredentials :=
{| cls := cls self; _access_key := _access_key self; _secret_key := value;
   _token := _token self; _expiry_time := _expiry_time self;
   method := method self; _frozen_credentials := _frozen_credentials self;
   _advisory_refresh_timeout := _advisory_refresh_timeout self;
   _mandatory_refresh_timeout := _mandatory_refresh_timeout self |}.

Definition with_token (value : option string) (self : RefreshableCredentials)
  : RefreshableCredentials :=
{| cls := cls self; _access_key := _access_key self; _secret_key := _secret_key self;
   _token := value; _expiry_time := _expiry_time self;
   method := method self; _frozen_credentials := _frozen_credentials self;
   _advisory_refresh_timeout := _advisory_refresh_timeout self;
   _mandatory_refresh_timeout := _mandatory_refresh_timeout self |}.

Definition with_expiry_time (value : option Z) (self : RefreshableCredentials)
  : RefreshableCredentials :=
{| cls := cls self; _access_key := _access_key self; _secret_key := _secret_key self;
   _token := _token self; _expiry_time := value;
   method := method self; _frozen_credentials := _frozen_credentials self;
   _advisory_refresh_timeout := _advisory_refresh_timeout self;
   _mandatory_refresh_timeout := _mandatory_refresh_timeout self |}.

(** Modelled from the spec: [_set_from_data] of botocore's
  [RefreshableCredentials]: on success the underlying fields are
  overwritten with the fetched metadata, the three keys through their
  setters.  The metadata is a record here, so a dict that lacks one of
  the four entries is not a value of the model. *)
Definition _set_from_data (data : CredentialMetadata) (self : RefreshableCredentials)
  : RefreshableCredentials :=
with_expiry_time (Some (md_expiry_time data))
  (with_token (md_token data)
     (with_secret_key (Some (md_secret_key data))
        (with_access_key (Some (md_access_key data)) self))).

(** *** The methods of this repository *)

(** [AioDeferredRefreshableCredentials.refresh_needed] *)
Definition AioDeferredRefreshableCredentials_refresh_needed (refresh_in : Z) : prog bool :=
GetSelf (fun self =>
  match _frozen_credentials self with
  | None => Return true
  | Some _ => RefreshableCredentials_refresh_needed refresh_in
  end).

(** [self.refresh_needed(refresh_in)], dispatched on the class of [self]. *)
Definition refresh_needed (refresh_in : Z) : prog bool :=
GetSelf (fun self =>
  match cls self with
  | AioRefreshableCredentialsClass => RefreshableCredentials_refresh_needed refresh_in
  | AioDeferredRefreshableCredentialsClass =>
      AioDeferredRefreshableCredentials_refresh_needed refresh_in
  end).

(** Modelled from the spec: [_is_expired] of botocore's
  [RefreshableCredentials]: expired means the expiry is in the past, a
  refresh needed with a window of zero. *)
Definition _is_expired : prog bool := refresh_needed 0.

(** [self._frozen_credentials = ReadOnlyCredentials(self._access_key,
  self._secret_key, self._token)] *)
Definition freeze (self : RefreshableCredentials) : RefreshableCredentials :=
{| cls := cls self;
   _access_key := _access_key self;
   _secret_key := _secret_key self;
   _token := _token self;
   _expiry_time := _expiry_time self;
   method := method self;
   _frozen_credentials :=
     Some (mkReadOnly (_access_key self) (_secret_key self) (_token self));
   _advisory_refresh_timeout := _advisory_refresh_timeout self;
   _mandatory_refresh_timeout := _mandatory_refresh_timeout self |}.

Definition still_expired_msg : string :=
"Credentials were refreshed, but the refreshed credentials are still expired.".

(** The [except Exception:] block of [_protected_refresh]; the warning it
  logs is left out. *)
Definition refresh_failed (is_mandatory : bool) (e : exn)
  : prog (option CredentialMetadata) :=
if is_mandatory then
  (* If this is a mandatory refresh, then all errors that occur when we
     attempt to refresh credentials are propagated back to the user. *)
  Throw e
else
  (* Otherwise we'll just return.  The end result will be that we'll use
     the current set of temporary credentials we have. *)
  Return None.

(** What [_protected_refresh] does after the [try] statement; [None]
  stands for the [return] of the [except] block. *)
Definition store_refreshed (fetched : option CredentialMetadata) : prog unit :=
match fetched with
| None => Return tt
| Some metadata =>
    Modify (_set_from_data metadata)
      (Modify freeze
         (let* expired := _is_expired in
          if (expired : bool) then Throw (RuntimeError still_expired_msg)
          else Return tt))
end.

(** [AioRefreshableCredentials._protected_refresh] *)
Definition _protected_refresh (is_mandatory : bool) : prog unit :=
let* fetched :=
  ptry (let* metadata := await_refresh_using in Return (Some metadata))
       (refresh_failed is_mandatory) in
store_refreshed fetched.

(** [self.refresh_needed(self._advisory_refresh_timeout)] *)
Definition advisory_refresh_needed : prog bool :=
GetSelf (fun self => refresh_needed (_advisory_refresh_timeout self)).

(** [self.refresh_needed(self._mandatory_refresh_timeout)] *)
Definition mandatory_refresh_needed : prog bool :=
GetSelf (fun self => refresh_needed (_mandatory_refresh_timeout self)).

(** The body of the first [async with] of [_refresh]: the check repeated
  under the lock, then the refresh. *)
Definition refresh_holding_lock : prog unit :=
let* needed := advisory_refresh_needed in
if negb needed then Return tt
else
  let* is_mandatory_refresh := mandatory_refresh_needed in
  _protected_refresh is_mandatory_refresh.

(** The body of the second [async with] of [_refresh], entered after
  waiting for the lock. *)
Definition refresh_after_waiting : prog unit :=
let* needed := mandatory_refresh_needed in
(* Might have refreshed by now *)
if negb needed then Return tt
else _protected_refresh true.

(** [AioRefreshableCredentials._refresh] *)
Definition _refresh : prog unit :=
let* needed := advisory_refresh_needed in
if negb needed then Return tt
else
  (* By this point we need a refresh but its not critical *)
  Locked (fun locked =>
    if negb locked then
      async_with_refresh_lock refresh_holding_lock
    else
      let* needed := mandatory_refresh_needed in
      if (needed : bool) then
        (* If we're here, we absolutely need a refresh and the lock is
           held so wait for it *)
        async_with_refresh_lock refresh_after_waiting
      else Return tt).

(** [return self._frozen_credentials] *)
Definition return_frozen_credentials (_ : unit) : prog (option ReadOnlyCredentials) :=
GetSelf (fun self => Return (_frozen_credentials self)).

(** [AioRefreshableCredentials.get_frozen_credentials] *)
Definition get_frozen_credentials : prog (option ReadOnlyCredentials) :=
let* _ := _refresh in
return_frozen_credentials tt.

Definition missing_refresh_msg : string :=
"missing call to self._refresh. Use get_frozen_credentials instead".

(** The redeclared properties: the getter raises before its [return]. *)
Definition access_key : prog (option string) :=
let* _ := Throw (A := unit) (NotImplementedError missing_refresh_msg) in
GetSelf (fun self => Return (_access_key self)).

Definition secret_key : prog (option string) :=
let* _ := Throw (A := unit) (NotImplementedError missing_refresh_msg) in
GetSelf (fun self => Return (_secret_key self)).

Definition token : prog (option string) :=
let* _ := Throw (A := unit) (NotImplementedError missing_refresh_msg) in
GetSelf (fun self => Return (_token self)).

(** ... and their setters. *)
Definition set_access_key (value : option string) : prog unit :=
Modify (with_access_key value) (Return tt).
Definition set_secret_key (value : option string) : prog unit :=
Modify (with_secret_key value) (Return tt).
Definition set_token (value : option string) : prog unit :=
Modify (with_token value) (Return tt).

(** How a call ends for its caller.  [Blocked]: the caller waits for a lock
  somebody else holds, which a lone caller never sees released. *)
Inductive outcome (A : Type) : Type :=
| Returned (a : A)
| Raised (e : exn)
| Blocked.
Arguments Returned {A} a.
Arguments Raised {A} e.
Arguments Blocked {A}.

(** *** One caller at a time

  The reading of a coroutine when no other task touches the object while
  it runs.  The world [W] is whatever the two injected functions read and
  change (the clock, the endpoint or process behind the refresh). *)
Section Sequential.
Context {W : Type}.
Variable time_fetcher : W -> Z * W.
Variable refresh_using : W -> result CredentialMetadata * W.

(** The object, the world, whether [_refresh_lock] is held, and how many
  times [_refresh_using] has been invoked. *)
Record State : Type := mkState {
self : RefreshableCredentials;
world : W;
lock_held : bool;
calls : nat;
}.

Definition set_self (c : RefreshableCredentials) (s : State) : State :=
{| self := c; world := world s; lock_held := lock_held s; calls := calls s |}.
Definition set_world (w : W) (s : State) : State :=
{| self := self s; world := w; lock_held := lock_held s; calls := calls s |}.
Definition set_lock (b : bool) (s : State) : State :=
{| self := self s; world := world s; lock_held := b; calls := calls s |}.
Definition count_call (s : State) : State :=
{| self := self s; world := world s; lock_held := lock_held s; calls := S (calls s) |}.

Fixpoint run {A} (p : prog A) (s : State) : outcome A * State :=
match p with
| Return a => (Returned a, s)
| Throw e => (Raised e, s)
| GetSelf k => run (k (self s)) s
| Modify f k => run k (set_self (f (self s)) s)
| TimeFetcher k =>
    let '(now, w) := time_fetcher (world s) in run (k now) (set_world w s)
| RefreshUsing k =>
    let '(r, w) := refresh_using (world s) in run (k r) (count_call (set_world w s))
| Locked k => run (k (lock_held s)) s
| Acquire k => if lock_held s then (Blocked, s) else run k (set_lock true s)
| Release k => run k (set_lock false s)
end.

Lemma run_pbind {A B} (p : prog A) (f : A -> prog B) (s : State) :
  run (pbind p f) s
  = match run p s with
    | (Returned a, s') => run (f a) s'
    | (Raised e, s') => (Raised e, s')
    | (Blocked, s') => (Blocked, s')
    end.
Proof.
  revert s. induction p as [a|e|k IH|g k IH|k IH|k IH|k IH|k IH|k IH]; intros s; simpl; auto.
  - destruct (time_fetcher (world s)) as [now w]. apply IH.
  - destruct (refresh_using (world s)) as [r w]. apply IH.
  - destruct (lock_held s); auto.
Qed.

Lemma run_ptry {A} (p : prog A) (h : exn -> prog A) (s : State) :
  run (ptry p h) s
  = match run p s with
    | (Returned a, s') => (Returned a, s')
    | (Raised e, s') => run (h e) s'
    | (Blocked, s') => (Blocked, s')
    end.
Proof.
  revert s. induction p as [a|e|k IH|g k IH|k IH|k IH|k IH|k IH|k IH]; intros s; simpl; auto.
  - destruct (time_fetcher (world s)) as [now w]. apply IH.
  - destruct (refresh_using (world s)) as [r w]. apply IH.
  - destruct (lock_held s); auto.
Qed.

Lemma run_release_after {A} (p : prog A) (s : State) :
  run (release_after p) s
  = match run p s with
    | (Returned a, s') => (Returned a, set_lock false s')
    | (Raised e, s') => (Raised e, set_lock false s')
    | (Blocked, s') => (Blocked, s')
    end.
Proof.
  revert s. induction p as [a|e|k IH|g k IH|k IH|k IH|k IH|k IH|k IH]; intros s; simpl; auto.
  - destruct (time_fetcher (world s)) as [now w]. apply IH.
  - destruct (refresh_using (world s)) as [r w]. apply IH.
  - destruct (lock_held s); auto.
Qed.

(** [refresh_needed] only reads the object and the clock. *)
Lemma set_world_id (s : State) : set_world (world s) s = s.
Proof. by destruct s. Qed.

Lemma run_base_refresh_needed_frame (refresh_in : Z) (s : State) :
  exists b w,
    run (RefreshableCredentials_refresh_needed refresh_in) s
    = (Returned b, set_world w s).
Proof.
  unfold RefreshableCredentials_refresh_needed; simpl.
  destruct (_expiry_time (self s)) as [expiry|]; simpl.
  - destruct (time_fetcher (world s)) as [now w].
    destruct (Z.leb refresh_in (expiry - now)); simpl; eauto.
  - exists false, (world s). by rewrite set_world_id.
Qed.

Lemma run_refresh_needed_frame (refresh_in : Z) (s : State) :
  exists b w, run (refresh_needed refresh_in) s = (Returned b, set_world w s).
Proof.
  unfold refresh_needed; simpl. destruct (cls (self s)).
  - apply run_base_refresh_needed_frame.
  - unfold AioDeferredRefreshableCredentials_refresh_needed; simpl.
    destruct (_frozen_credentials (self s)).
    + apply run_base_refresh_needed_frame.
    + exists true, (world s). by rewrite set_world_id.
Qed.

Lemma run_advisory_frame (s s' : State) (r : outcome bool) :
  run advisory_refresh_needed s = (r, s') ->
  exists b w, r = Returned b /\ s' = set_world w s.
Proof.
  change (run advisory_refresh_needed s)
    with (run (refresh_needed (_advisory_refresh_timeout (self s))) s).
  destruct (run_refresh_needed_frame (_advisory_refresh_timeout (self s)) s)
    as (b & w & ->).
  intros [= <- <-]; eauto.
Qed.

Lemma run_mandatory_frame (s s' : State) (r : outcome bool) :
  run mandatory_refresh_needed s = (r, s') ->
  exists b w, r = Returned b /\ s' = set_world w s.
Proof.
  change (run mandatory_refresh_needed s)
    with (run (refresh_needed (_mandatory_refresh_timeout (self s))) s).
  destruct (run_refresh_needed_frame (_mandatory_refresh_timeout (self s)) s)
    as (b & w & ->).
  intros [= <- <-]; eauto.
Qed.

(** What [_protected_refresh] does when [_refresh_using] raises. *)
Lemma run_protected_refresh_raise (is_mandatory : bool) (s : State) (e : exn) (w : W) :
  refresh_using (world s) = (Raise e, w) ->
  run (_protected_refresh is_mandatory) s
  = (if is_mandatory then Raised e else Returned tt, count_call (set_world w s)).
Proof.
  intros Hr. unfold _protected_refresh.
  rewrite run_pbind, run_ptry. simpl. rewrite Hr. simpl.
  by destruct is_mandatory.
Qed.

(** What [_protected_refresh] does when [_refresh_using] returns. *)
Lemma run_protected_refresh_ok (is_mandatory : bool) (s : State)
  (metadata : CredentialMetadata) (w : W) :
  refresh_using (world s) = (Ok metadata, w) ->
  run (_protected_refresh is_mandatory) s
  = match run _is_expired
            (set_self (freeze (_set_from_data metadata (self s)))
               (count_call (set_world w s))) with
    | (Returned true, s') => (Raised (RuntimeError still_expired_msg), s')
    | (Returned false, s') => (Returned tt, s')
    | (Raised e, s') => (Raised e, s')
    | (Blocked, s') => (Blocked, s')
    end.
Proof.
  intros Hr. unfold _protected_refresh.
  rewrite run_pbind, run_ptry.
  cbn [run pbind await_refresh_using]. rewrite Hr.
  cbn [run pbind store_refreshed]. rewrite run_pbind.
  unfold set_self, count_call, set_world; cbn [self world lock_held calls].
  match goal with |- context [run _is_expired ?st] =>
    destruct (run _is_expired st) as [[[]| |] s'] end; reflexivity.
Qed.

(** The path of [get_frozen_credentials] through the first branch of
  [_refresh]: a refresh is needed, nobody holds the lock, and the check
  repeated under the lock still asks for one. *)
Lemma run_get_frozen_credentials_refreshing
  (s s1 s2 s3 : State) (is_mandatory : bool) :
  lock_held s = false ->
  run advisory_refresh_needed s = (Returned true, s1) ->
  run advisory_refresh_needed (set_lock true s1) = (Returned true, s2) ->
  run mandatory_refresh_needed s2 = (Returned is_mandatory, s3) ->
  run get_frozen_credentials s
  = match run (_protected_refresh is_mandatory) s3 with
    | (Returned _, s4) =>
        (Returned (_frozen_credentials (self s4)), set_lock false s4)
    | (Raised e, s4) => (Raised e, set_lock false s4)
    | (Blocked, s4) => (Blocked, s4)
    end.
Proof.
  intros Hl H1 H2 H3.
  unfold get_frozen_credentials, _refresh.
  rewrite !run_pbind, H1.
  destruct (run_advisory_frame _ _ _ H1) as (? & w1 & _ & ->).
  cbn [negb run]. replace (lock_held (set_world w1 s)) with false by done.
  cbn [negb]. unfold async_with_refresh_lock. cbn [run].
  replace (lock_held (set_world w1 s)) with false by done.
  unfold refresh_holding_lock.
  rewrite run_release_after, run_pbind, H2. cbn [negb].
  rewrite run_pbind, H3.
  destruct (run (_protected_refresh is_mandatory) s3) as [[[]|e|] s4]; reflexivity.
Qed.

(** The refresh of the first branch of [_refresh] (nobody holds the lock,
  the advisory check and its repetition under the lock both ask for one),
  when [_refresh_using] raises [e].  If the mandatory check said the
  refresh was mandatory, [e] reaches the caller of
  [get_frozen_credentials]; if it was only advisory, the caller gets the
  frozen credentials held before the call.  Either way the object is left
  as it was, and the lock is released. *)
Lemma refresh_failure_holding_lock
  (s s1 s2 s3 : State) (is_mandatory : bool) (e : exn) (w4 : W) :
  lock_held s = false ->
  run advisory_refresh_needed s = (Returned true, s1) ->
  run advisory_refresh_needed (set_lock true s1) = (Returned true, s2) ->
  run mandatory_refresh_needed s2 = (Returned is_mandatory, s3) ->
  refresh_using (world s3) = (Raise e, w4) ->
  run (_protected_refresh is_mandatory) s3
  = (if is_mandatory then Raised e else Returned tt, count_call (set_world w4 s3))
  /\ run get_frozen_credentials s
     = (if is_mandatory then Raised e else Returned (_frozen_credentials (self s)),
        mkState (self s) w4 false (S (calls s))).
Proof.
  intros Hl H1 H2 H3 Hr.
  pose proof (run_protected_refresh_raise is_mandatory s3 e w4 Hr) as Hp.
  split; [exact Hp|].
  rewrite (run_get_frozen_credentials_refreshing s s1 s2 s3 is_mandatory Hl H1 H2 H3), Hp.
  destruct (run_advisory_frame _ _ _ H1) as (? & w1 & _ & ->).
  destruct (run_advisory_frame _ _ _ H2) as (? & w2 & _ & ->).
  destruct (run_mandatory_frame _ _ _ H3) as (? & w3 & _ & ->).
  by destruct is_mandatory.
Qed.

(** C3, as the code has it.  When the advisory check says no refresh is
  needed, [get_frozen_credentials] returns the frozen credentials the
  object holds, whoever holds the lock, without invoking [_refresh_using]
  and without touching the object or the lock. *)
Theorem fresh_credentials_served_without_refresh (s s1 : State) :
  run advisory_refresh_needed s = (Returned false, s1) ->
  run get_frozen_credentials s = (Returned (_frozen_credentials (self s)), s1)
  /\ self s1 = self s /\ calls s1 = calls s /\ lock_held s1 = lock_held s.
Proof.
  intros H1.
  destruct (run_advisory_frame _ _ _ H1) as (? & w1 & _ & ->).
  split; [|done].
  unfold get_frozen_credentials, _refresh. by rewrite !run_pbind, H1.
Qed.

(** The refresh of the first branch of [_refresh], when [_refresh_using]
  returns metadata and the clock read afterwards is already past the
  metadata's expiry time.  Then [_protected_refresh] raises
  [RuntimeError], in a mandatory refresh and in an advisory one alike, and
  so does [get_frozen_credentials]; the fetched fields have been stored by
  then. *)
Lemma refreshed_but_expired_holding_lock
  (s s1 s2 s3 : State) (is_mandatory : bool)
  (metadata : CredentialMetadata) (w4 w5 : W) (now : Z) :
  lock_held s = false ->
  run advisory_refresh_needed s = (Returned true, s1) ->
  run advisory_refresh_needed (set_lock true s1) = (Returned true, s2) ->
  run mandatory_refresh_needed s2 = (Returned is_mandatory, s3) ->
  refresh_using (world s3) = (Ok metadata, w4) ->
  time_fetcher w4 = (now, w5) ->
  md_expiry_time metadata < now ->
  run (_protected_refresh is_mandatory) s3
  = (Raised (RuntimeError still_expired_msg),
     mkState (freeze (_set_from_data metadata (self s))) w5 true (S (calls s)))
  /\ run get_frozen_credentials s
     = (Raised (RuntimeError still_expired_msg),
        mkState (freeze (_set_from_data metadata (self s))) w5 false (S (calls s))).
Proof.
  intros Hl H1 H2 H3 Hr Ht Hlt.
  destruct (run_advisory_frame _ _ _ H1) as (? & w1 & _ & ->).
  destruct (run_advisory_frame _ _ _ H2) as (? & w2 & _ & ->).
  destruct (run_mandatory_frame _ _ _ H3) as (? & w3 & _ & ->).
  assert (Hp : run (_protected_refresh is_mandatory)
                 (set_world w3 (set_world w2 (set_lock true (set_world w1 s))))
               = (Raised (RuntimeError still_expired_msg),
                  mkState (freeze (_set_from_data metadata (self s))) w5 true
                    (S (calls s)))).
  { rewrite (run_protected_refresh_ok _ _ _ _ Hr).
    unfold _is_expired, refresh_needed, AioDeferredRefreshableCredentials_refresh_needed,
      RefreshableCredentials_refresh_needed.
    cbn. destruct (cls (self s)); cbn; rewrite Ht;
      destruct (Z.leb_spec 0 (md_expiry_time metadata - now)); try lia; reflexivity. }
  split; [exact Hp|].
  rewrite (run_get_frozen_credentials_refreshing s _ _ _ is_mandatory Hl H1 H2 H3).
  by rewrite Hp.
Qed.

(** C10. On every object, of either class, and in every state, reading
  [access_key], [secret_key] or [token] raises [NotImplementedError] and
  changes nothing, also right after the attribute has been assigned.  Each
  of the three setters returns, stores the value in its underscore field
  and leaves every other field, the frozen credentials included, and the
  rest of the state as they were: what [get_frozen_credentials] serves
  changes only when a refresh freezes the fields again. *)
Theorem direct_key_reads_raise (s : State) (value : option string) :
  let c := self s in
  let assigned (c' : RefreshableCredentials) :=
    (Returned tt, mkState c' (world s) (lock_held s) (calls s)) in
  run access_key s = (Raised (NotImplementedError missing_refresh_msg), s)
  /\ run secret_key s = (Raised (NotImplementedError missing_refresh_msg), s)
  /\ run token s = (Raised (NotImplementedError missing_refresh_msg), s)
  /\ run (set_access_key value) s
     = assigned {| cls := cls c;
                   _access_key := value;
                   _secret_key := _secret_key c;
                   _token := _token c;
                   _expiry_time := _expiry_time c;
                   method := method c;
                   _frozen_credentials := _frozen_credentials c;
                   _advisory_refresh_timeout := _advisory_refresh_timeout c;
                   _mandatory_refresh_timeout := _mandatory_refresh_timeout c |}
  /\ run (set_secret_key value) s
     = assigned {| cls := cls c;
                   _access_key := _access_key c;
                   _secret_key := value;
                   _token := _token c;
                   _expiry_time := _expiry_time c;
                   method := method c;
                   _frozen_credentials := _frozen_credentials c;
                   _advisory_refresh_timeout := _advisory_refresh_timeout c;
                   _mandatory_refresh_timeout := _mandatory_refresh_timeout c |}
  /\ run (set_token value) s
     = assigned {| cls := cls c;
                   _access_key := _access_key c;
                   _secret_key := _secret_key c;
                   _token := value;
                   _expiry_time := _expiry_time c;
                   method := method c;
                   _frozen_credentials := _frozen_credentials c;
                   _advisory_refresh_timeout := _advisory_refresh_timeout c;
                   _mandatory_refresh_timeout := _mandatory_refresh_timeout c |}
  /\ run (let* _ := set_access_key value in access_key) s
     = (Raised (NotImplementedError missing_refresh_msg),
        (run (set_access_key value) s).2)
  /\ run (let* _ := set_secret_key value in secret_key) s
     = (Raised (NotImplementedError missing_refresh_msg),
        (run (set_secret_key value) s).2)
  /\ run (let* _ := set_token value in token) s
     = (Raised (NotImplementedError missing_refresh_msg),
        (run (set_token value) s).2).
Proof. cbv zeta. repeat split. Qed.

End Sequential.

(** *** A concrete object and world

  The world is the instant the clock shows; the windows are botocore's
  fifteen and ten minutes, in seconds. *)
Definition old_frozen : ReadOnlyCredentials :=
mkReadOnly (Some "AKOLD"%string) (Some "SKOLD"%string) (Some "TKOLD"%string).

Definition demo_credentials (expiry : Z) : RefreshableCredentials :=
{| cls := AioRefreshableCredentialsClass;
   _access_key := Some "AKOLD"%string;
   _secret_key := Some "SKOLD"%string;
   _token := Some "TKOLD"%string;
   _expiry_time := Some expiry;
   method := "assume-role"%string;
   _frozen_credentials := Some old_frozen;
   _advisory_refresh_timeout := 15 * 60;
   _mandatory_refresh_timeout := 10 * 60 |}.

Definition demo_time_fetcher (w : Z) : Z * Z := (w, w).

Definition demo_refresh_raises (w : Z) : result CredentialMetadata * Z :=
(Raise (CredentialRetrievalError "assume-role" "connection reset"), w).

Definition demo_refresh_returns (metadata : CredentialMetadata) (w : Z)
  : result CredentialMetadata * Z :=
(Ok metadata, w).

Definition new_metadata (expiry : Z) : CredentialMetadata :=
{| md_access_key := "AKNEW"; md_secret_key := "SKNEW";
   md_token := Some "TKNEW"%string; md_expiry_time := expiry |}.

(** 1000 seconds before expiry nothing is refreshed, even with the lock
  held by another task. *)
Lemma fresh_credentials_served_without_refresh_witness :
  run demo_time_fetcher demo_refresh_raises get_frozen_credentials
    (mkState (demo_credentials 1000) 0 true 0)
  = (Returned (Some old_frozen), mkState (demo_credentials 1000) 0 true 0).
Proof.
  exact (proj1 (fresh_credentials_served_without_refresh
    demo_time_fetcher demo_refresh_raises
    (mkState (demo_credentials 1000) 0 true 0)
    (mkState (demo_credentials 1000) 0 true 0) eq_refl)).
Defined.

(** C3 as stated fails.  700 seconds before expiry the mandatory window
  (600 seconds) has not elapsed, yet the advisory one (900 seconds) has:
  [get_frozen_credentials] invokes [_refresh_using] once and returns the
  new key material, not the frozen credentials it held. *)
Lemma mandatory_window_open_still_refreshes :
  let s := mkState (demo_credentials 1000) 300 false 0 in
  let run_demo {A} (p : prog A) :=
    run demo_time_fetcher (demo_refresh_returns (new_metadata 5000)) p in
  run_demo mandatory_refresh_needed s = (Returned false, s)
  /\ run_demo get_frozen_credentials s
     = (Returned (Some (mkReadOnly (Some "AKNEW"%string) (Some "SKNEW"%string)
                          (Some "TKNEW"%string))),
        mkState (freeze (_set_from_data (new_metadata 5000) (demo_credentials 1000)))
          300 false 1%nat)
  /\ ~ (exists s',
          run_demo get_frozen_credentials s
          = (Returned (_frozen_credentials (self s)), s')
          /\ calls s' = calls s).
Proof.
  cbv zeta. split; [reflexivity|]. split; [reflexivity|].
  intros (s' & Hrun & _). vm_compute in Hrun. discriminate Hrun.
Qed.

(** *** Several callers at once

  Modelled from the spec: the scheduler and the lock, which are asyncio's
  and not code of this repository.  Scheduling is cooperative: a caller runs
  alone until it suspends, and it can suspend only where the code awaits
  something that may have to wait, the lock of an [async with] and
  [_refresh_using].  The lock is exclusive: a caller suspended on it
  resumes only while nobody holds it, and holds it from then until the
  [async with] is left.  Which suspended caller resumes next is not fixed:
  every order is a run.  Entering an [async with] is always counted as a
  suspension, also when the lock is free, which only adds runs. *)

(** A caller of a coroutine: not started yet, suspended on the lock,
  suspended in [_refresh_using], or finished with a value or an
  exception. *)
Inductive task (A : Type) : Type :=
| Ready (p : prog A)
| WaitingForLock (k : prog A)
| InRefresh (k : result CredentialMetadata -> prog A)
| Finished (r : result A).
Arguments Ready {A} p.
Arguments WaitingForLock {A} k.
Arguments InRefresh {A} k.
Arguments Finished {A} r.

Section Concurrent.
Context {W : Type}.
Variable time_fetcher : W -> Z * W.
Variable refresh_using : W -> result CredentialMetadata * W.

(** A caller runs until it suspends or finishes.  Reaching
  [_refresh_using] invokes it: the call is counted there, and answered when
  the caller is scheduled again. *)
Fixpoint advance {A} (p : prog A) (s : @State W) : task A * @State W :=
match p with
| Return a => (Finished (Ok a), s)
| Throw e => (Finished (Raise e), s)
| GetSelf k => advance (k (self s)) s
| Modify f k => advance k (set_self (f (self s)) s)
| TimeFetcher k =>
    let '(now, w) := time_fetcher (world s) in advance (k now) (set_world w s)
| RefreshUsing k => (InRefresh k, count_call s)
| Locked k => advance (k (lock_held s)) s
| Acquire k => (WaitingForLock k, s)
| Release k => advance k (set_lock false s)
end.

(** Scheduling caller [i]: it starts, or resumes with the lock it waited
  for if the lock is free, or resumes with the answer of [_refresh_using].
  [None]: caller [i] cannot run now. *)
Definition schedule {A} (i : nat) (cfg : list (task A) * @State W)
  : option (list (task A) * @State W) :=
let '(pool, s) := cfg in
match pool !! i with
| Some (Ready p) =>
    let '(t, s') := advance p s in Some (<[i := t]> pool, s')
| Some (WaitingForLock k) =>
    if lock_held s then None
    else let '(t, s') := advance k (set_lock true s) in Some (<[i := t]> pool, s')
| Some (InRefresh k) =>
    let '(r, w) := refresh_using (world s) in
    let '(t, s') := advance (k r) (set_world w s) in Some (<[i := t]> pool, s')
| Some (Finished _) | None => None
end.

(** A run: the callers scheduled one after another, in the order [sched]
  lists them. *)
Fixpoint run_schedule {A} (sched : list nat) (cfg : list (task A) * @State W)
  : option (list (task A) * @State W) :=
match sched with
| [] => Some cfg
| i :: sched' =>
    match schedule i cfg with
    | Some cfg' => run_schedule sched' cfg'
    | None => None
    end
end.

Lemma advance_pbind {A B} (p : prog A) (f : A -> prog B) (s : State) :
  advance (pbind p f) s
  = match advance p s with
    | (Finished (Ok a), s') => advance (f a) s'
    | (Finished (Raise e), s') => (Finished (Raise e), s')
    | (WaitingForLock k, s') => (WaitingForLock (pbind k f), s')
    | (InRefresh k, s') => (InRefresh (fun r => pbind (k r) f), s')
    | (Ready q, s') => (Ready (pbind q f), s')
    end.
Proof.
  revert s. induction p as [a|e|k IH|g k IH|k IH|k IH|k IH|k IH|k IH]; intros s; simpl; auto.
  destruct (time_fetcher (world s)) as [now w]. apply IH.
Qed.

Lemma advance_release_after {A} (p : prog A) (s : State) :
  advance (release_after p) s
  = match advance p s with
    | (Finished r, s') => (Finished r, set_lock false s')
    | (WaitingForLock k, s') => (WaitingForLock (release_after k), s')
    | (InRefresh k, s') => (InRefresh (fun r => release_after (k r)), s')
    | (Ready q, s') => (Ready (release_after q), s')
    end.
Proof.
  revert s. induction p as [a|e|k IH|g k IH|k IH|k IH|k IH|k IH|k IH]; intros s; simpl; auto.
  destruct (time_fetcher (world s)) as [now w]. apply IH.
Qed.

Lemma advance_ptry {A} (p : prog A) (h : exn -> prog A) (s : State) :
  advance (ptry p h) s
  = match advance p s with
    | (Finished (Ok a), s') => (Finished (Ok a), s')
    | (Finished (Raise e), s') => advance (h e) s'
    | (WaitingForLock k, s') => (WaitingForLock (ptry k h), s')
    | (InRefresh k, s') => (InRefresh (fun r => ptry (k r) h), s')
    | (Ready q, s') => (Ready (ptry q h), s')
    end.
Proof.
  revert s. induction p as [a|e|k IH|g k IH|k IH|k IH|k IH|k IH|k IH]; intros s; simpl; auto.
  destruct (time_fetcher (world s)) as [now w]. apply IH.
Qed.

(** What [self.refresh_needed(refresh_in)] answers on the object [c] in
  the world [w], and the world it leaves: [advance_refresh_needed] below
  shows it is what the coroutine [refresh_needed] computes. *)
Definition needs_refresh (c : RefreshableCredentials) (refresh_in : Z) (w : W)
  : bool * W :=
match cls c, _frozen_credentials c with
| AioDeferredRefreshableCredentialsClass, None => (true, w)
| _, _ =>
    match _expiry_time c with
    | None => (false, w)
    | Some expiry =>
        let '(now, w') := time_fetcher w in
        (negb (Z.leb refresh_in (expiry - now)), w')
    end
end.

Lemma advance_refresh_needed (refresh_in : Z) (s : State) :
  advance (refresh_needed refresh_in) s
  = (Finished (Ok (needs_refresh (self s) refresh_in (world s)).1),
     set_world (needs_refresh (self s) refresh_in (world s)).2 s).
Proof.
  assert (Hbase : advance (RefreshableCredentials_refresh_needed refresh_in) s
          = (Finished (Ok (match _expiry_time (self s) with
                           | None => (false, world s)
                           | Some expiry =>
                               let '(now, w') := time_fetcher (world s) in
                               (negb (Z.leb refresh_in (expiry - now)), w')
                           end).1),
             set_world (match _expiry_time (self s) with
                        | None => (false, world s)
                        | Some expiry =>
                            let '(now, w') := time_fetcher (world s) in
                            (negb (Z.leb refresh_in (expiry - now)), w')
                        end).2 s)).
  { unfold RefreshableCredentials_refresh_needed; simpl.
    destruct (_expiry_time (self s)) as [expiry|]; simpl.
    - destruct (time_fetcher (world s)) as [now w]; simpl.
      by destruct (Z.leb refresh_in (expiry - now)).
    - by rewrite set_world_id. }
  unfold refresh_needed, needs_refresh. cbn [advance].
  destruct (cls (self s)).
  - destruct (_frozen_credentials (self s)); exact Hbase.
  - unfold AioDeferredRefreshableCredentials_refresh_needed. cbn [advance].
    destruct (_frozen_credentials (self s)); [exact Hbase|].
    simpl. by rewrite set_world_id.
Qed.


(** [_refresh_using] resumed with its answer, inside [_protected_refresh]. *)
Definition protected_refresh_resumed (is_mandatory : bool)
  (r : result CredentialMetadata) : prog unit :=
let* fetched :=
  ptry (let* metadata := match r with Ok metadata => Return metadata | Raise e => Throw e end in
        Return (Some metadata))
       (refresh_failed is_mandatory) in
store_refreshed fetched.

(** The three places a caller of [get_frozen_credentials] can be suspended
  at. *)
Definition entering_first_lock : task (option ReadOnlyCredentials) :=
WaitingForLock (pbind (release_after refresh_holding_lock) return_frozen_credentials).

Definition entering_second_lock : task (option ReadOnlyCredentials) :=
WaitingForLock (pbind (release_after refresh_after_waiting) return_frozen_credentials).

Definition refreshing (is_mandatory : bool) : task (option ReadOnlyCredentials) :=
InRefresh (fun r => pbind (release_after (protected_refresh_resumed is_mandatory r))
                      return_frozen_credentials).

Lemma advance_protected_refresh (is_mandatory : bool) (s : State) :
  advance (pbind (release_after (_protected_refresh is_mandatory)) return_frozen_credentials) s
  = (refreshing is_mandatory, count_call s).
Proof. reflexivity. Qed.

Lemma advance_advisory (s : State) :
  advance advisory_refresh_needed s
  = (Finished (Ok (needs_refresh (self s) (_advisory_refresh_timeout (self s)) (world s)).1),
     set_world (needs_refresh (self s) (_advisory_refresh_timeout (self s)) (world s)).2 s).
Proof. apply advance_refresh_needed. Qed.

Lemma advance_mandatory (s : State) :
  advance mandatory_refresh_needed s
  = (Finished (Ok (needs_refresh (self s) (_mandatory_refresh_timeout (self s)) (world s)).1),
     set_world (needs_refresh (self s) (_mandatory_refresh_timeout (self s)) (world s)).2 s).
Proof. apply advance_refresh_needed. Qed.

(** A caller that starts. *)
Lemma advance_get_frozen_credentials (s : State) :
  let c := self s in
  let '(adv, w1) := needs_refresh c (_advisory_refresh_timeout c) (world s) in
  advance get_frozen_credentials s
  = if negb adv then (Finished (Ok (_frozen_credentials c)), set_world w1 s)
    else if negb (lock_held s) then (entering_first_lock, set_world w1 s)
    else
      let '(mand, w2) := needs_refresh c (_mandatory_refresh_timeout c) w1 in
      if mand then (entering_second_lock, set_world w2 (set_world w1 s))
      else (Finished (Ok (_frozen_credentials c)), set_world w2 (set_world w1 s)).
Proof.
  cbv zeta.
  destruct (needs_refresh _ _ (world s)) as [adv w1] eqn:Ha.
  unfold get_frozen_credentials, _refresh.
  rewrite !advance_pbind, advance_advisory, Ha. cbn [fst snd].
  destruct adv; cbn [negb]; [|reflexivity].
  cbn [advance set_world lock_held].
  destruct (lock_held s) eqn:Hl; cbn [negb].
  - rewrite advance_pbind, advance_mandatory. cbn [self world set_world].
    destruct (needs_refresh _ _ w1) as [mand w2] eqn:Hm. cbn [fst snd].
    destruct mand; reflexivity.
  - reflexivity.
Qed.


(** A caller that gets the lock it asked for in the first branch. *)
Lemma advance_first_lock (s : State) :
  let c := self s in
  let '(adv, w1) := needs_refresh c (_advisory_refresh_timeout c) (world s) in
  let '(mand, w2) := needs_refresh c (_mandatory_refresh_timeout c) w1 in
  advance (pbind (release_after refresh_holding_lock) return_frozen_credentials) s
  = if negb adv then
      (Finished (Ok (_frozen_credentials c)), set_lock false (set_world w1 s))
    else (refreshing mand, count_call (set_world w2 (set_world w1 s))).
Proof.
  cbv zeta.
  destruct (needs_refresh _ _ (world s)) as [adv w1] eqn:Ha.
  destruct (needs_refresh _ _ w1) as [mand w2] eqn:Hm.
  unfold refresh_holding_lock.
  rewrite advance_pbind, advance_release_after, advance_pbind, advance_advisory, Ha.
  cbn [fst snd]. destruct adv; cbn [negb]; [|reflexivity].
  rewrite advance_pbind, advance_mandatory. cbn [self world set_world].
  rewrite Hm. cbn [fst snd]. reflexivity.
Qed.

(** A caller that gets the lock it waited for in the second branch. *)
Lemma advance_second_lock (s : State) :
  let c := self s in
  let '(mand, w1) := needs_refresh c (_mandatory_refresh_timeout c) (world s) in
  advance (pbind (release_after refresh_after_waiting) return_frozen_credentials) s
  = if negb mand then
      (Finished (Ok (_frozen_credentials c)), set_lock false (set_world w1 s))
    else (refreshing true, count_call (set_world w1 s)).
Proof.
  cbv zeta.
  destruct (needs_refresh _ _ (world s)) as [mand w1] eqn:Hm.
  unfold refresh_after_waiting.
  rewrite advance_pbind, advance_release_after, advance_pbind, advance_mandatory, Hm.
  cbn [fst snd]. destruct mand; reflexivity.
Qed.

(** A caller whose [_refresh_using] has returned metadata. *)
Lemma advance_refreshed (is_mandatory : bool) (metadata : CredentialMetadata) (s : State) :
  let c := freeze (_set_from_data metadata (self s)) in
  let '(expired, w1) := needs_refresh c 0 (world s) in
  advance (pbind (release_after (protected_refresh_resumed is_mandatory (Ok metadata)))
             return_frozen_credentials) s
  = (Finished (if expired then Raise (RuntimeError still_expired_msg)
               else Ok (_frozen_credentials c)),
     set_lock false (set_world w1 (set_self c s))).
Proof.
  cbv zeta.
  destruct (needs_refresh _ _ (world s)) as [expired w1] eqn:He.
  rewrite advance_pbind, advance_release_after.
  unfold protected_refresh_resumed. cbn [pbind ptry store_refreshed advance].
  rewrite advance_pbind. unfold _is_expired. rewrite advance_refresh_needed.
  cbn [self world set_self]. rewrite He. cbn [fst snd].
  destruct expired; reflexivity.
Qed.

(** A caller whose [_refresh_using] has raised. *)
Lemma advance_refresh_raised (is_mandatory : bool) (e : exn) (s : State) :
  advance (pbind (release_after (protected_refresh_resumed is_mandatory (Raise e)))
             return_frozen_credentials) s
  = (Finished (if is_mandatory then Raise e else Ok (_frozen_credentials (self s))),
     set_lock false s).
Proof. by destruct is_mandatory. Qed.

(** *** The caller that waits for the lock

  The second branch of [_refresh], one step of the caller at a time.  The
  caller finds the lock held and the mandatory check asking for a refresh,
  and suspends on the lock.  It resumes once the lock is free, repeats
  the mandatory check, and invokes [_refresh_using] as a mandatory
  refresh.  Then it resumes with the answer.  Other callers run between
  its steps: each step is stated for the state the caller finds. *)

Abbreviation exec := (run time_fetcher refresh_using).

(** The sequential and the stepwise reading agree on [refresh_needed]. *)
Lemma run_refresh_needed (refresh_in : Z) (s : State) :
  exec (refresh_needed refresh_in) s
  = (Returned (needs_refresh (self s) refresh_in (world s)).1,
     set_world (needs_refresh (self s) refresh_in (world s)).2 s).
Proof.
  assert (Hbase : exec (RefreshableCredentials_refresh_needed refresh_in) s
          = (Returned (match _expiry_time (self s) with
                       | None => (false, world s)
                       | Some expiry =>
                           let '(now, w') := time_fetcher (world s) in
                           (negb (Z.leb refresh_in (expiry - now)), w')
                       end).1,
             set_world (match _expiry_time (self s) with
                        | None => (false, world s)
                        | Some expiry =>
                            let '(now, w') := time_fetcher (world s) in
                            (negb (Z.leb refresh_in (expiry - now)), w')
                        end).2 s)).
  { unfold RefreshableCredentials_refresh_needed; simpl.
    destruct (_expiry_time (self s)) as [expiry|]; simpl.
    - destruct (time_fetcher (world s)) as [now w]; simpl.
      by destruct (Z.leb refresh_in (expiry - now)).
    - by rewrite set_world_id. }
  unfold refresh_needed, needs_refresh. cbn [run].
  destruct (cls (self s)).
  - destruct (_frozen_credentials (self s)); exact Hbase.
  - unfold AioDeferredRefreshableCredentials_refresh_needed. cbn [run].
    destruct (_frozen_credentials (self s)); [exact Hbase|].
    simpl. by rewrite set_world_id.
Qed.

Lemma run_advisory_needs_refresh (s s' : State) (b : bool) :
  exec advisory_refresh_needed s = (Returned b, s') ->
  needs_refresh (self s) (_advisory_refresh_timeout (self s)) (world s)
  = (b, world s')
  /\ s' = set_world (world s') s.
Proof.
  change (exec advisory_refresh_needed s)
    with (exec (refresh_needed (_advisory_refresh_timeout (self s))) s).
  rewrite run_refresh_needed.
  destruct (needs_refresh _ _ (world s)) as [b' w]. cbn [fst snd].
  by intros [= <- <-].
Qed.

Lemma run_mandatory_needs_refresh (s s' : State) (b : bool) :
  exec mandatory_refresh_needed s = (Returned b, s') ->
  needs_refresh (self s) (_mandatory_refresh_timeout (self s)) (world s)
  = (b, world s')
  /\ s' = set_world (world s') s.
Proof.
  change (exec mandatory_refresh_needed s)
    with (exec (refresh_needed (_mandatory_refresh_timeout (self s))) s).
  rewrite run_refresh_needed.
  destruct (needs_refresh _ _ (world s)) as [b' w]. cbn [fst snd].
  by intros [= <- <-].
Qed.

(** The caller starts, finds the lock held and a mandatory refresh due:
  it waits for the lock. *)
Lemma schedule_waits_for_lock (pool : list (task (option ReadOnlyCredentials)))
  (i : nat) (s s1 s2 : State) :
  pool !! i = Some (Ready get_frozen_credentials) ->
  lock_held s = true ->
  exec advisory_refresh_needed s = (Returned true, s1) ->
  exec mandatory_refresh_needed s1 = (Returned true, s2) ->
  schedule i (pool, s) = Some (<[i := entering_second_lock]> pool, s2).
Proof.
  intros Hi Hl H1 H2.
  destruct (run_advisory_needs_refresh _ _ _ H1) as [Ha E1].
  destruct (run_mandatory_needs_refresh _ _ _ H2) as [Hm E2].
  rewrite E1 in Hm. cbn [self world set_world] in Hm.
  unfold schedule. rewrite Hi.
  pose proof (advance_get_frozen_credentials s) as H. cbv zeta in H.
  rewrite Ha in H. rewrite H. cbn [negb]. rewrite Hl. cbn [negb]. rewrite Hm.
  rewrite E2, E1. reflexivity.
Qed.

(** The waiting caller cannot run while the lock is held; with the lock
  free it takes it, and when the mandatory check still asks for a refresh
  it invokes [_refresh_using], as a mandatory refresh. *)
Lemma schedule_gets_lock (pool : list (task (option ReadOnlyCredentials)))
  (i : nat) (t t1 : State) :
  pool !! i = Some entering_second_lock ->
  (lock_held t = true -> schedule i (pool, t) = None)
  /\ (lock_held t = false ->
      exec mandatory_refresh_needed (set_lock true t) = (Returned true, t1) ->
      schedule i (pool, t) = Some (<[i := refreshing true]> pool, count_call t1)).
Proof.
  intros Hi. split.
  - intros Hl. unfold schedule. rewrite Hi. unfold entering_second_lock.
    by rewrite Hl.
  - intros Hl H1.
    destruct (run_mandatory_needs_refresh _ _ _ H1) as [Hm E1].
    cbn [self world set_lock] in Hm.
    unfold schedule. rewrite Hi. unfold entering_second_lock. rewrite Hl.
    pose proof (advance_second_lock (set_lock true t)) as H. cbv zeta in H.
    cbn [self world set_lock] in H. rewrite Hm in H. cbn [negb] in H.
    rewrite H, E1. reflexivity.
Qed.

(** The refreshing caller resumes with the exception of
  [_refresh_using]. *)
Lemma schedule_refresh_raised (pool : list (task (option ReadOnlyCredentials)))
  (i : nat) (is_mandatory : bool) (u : State) (e : exn) (w : W) :
  pool !! i = Some (refreshing is_mandatory) ->
  refresh_using (world u) = (Raise e, w) ->
  schedule i (pool, u)
  = Some (<[i := Finished (if is_mandatory then Raise e
                           else Ok (_frozen_credentials (self u)))]> pool,
          mkState (self u) w false (calls u)).
Proof.
  intros Hi Hr. unfold schedule. rewrite Hi. unfold refreshing. rewrite Hr.
  rewrite (advance_refresh_raised is_mandatory e (set_world w u)).
  reflexivity.
Qed.

(** The refreshing caller resumes with metadata that is already expired
  when the clock is read. *)
Lemma schedule_refreshed_expired (pool : list (task (option ReadOnlyCredentials)))
  (i : nat) (is_mandatory : bool) (u : State) (metadata : CredentialMetadata)
  (w w' : W) (now : Z) :
  pool !! i = Some (refreshing is_mandatory) ->
  refresh_using (world u) = (Ok metadata, w) ->
  time_fetcher w = (now, w') ->
  md_expiry_time metadata < now ->
  schedule i (pool, u)
  = Some (<[i := Finished (Raise (RuntimeError still_expired_msg))]> pool,
          mkState (freeze (_set_from_data metadata (self u))) w' false (calls u)).
Proof.
  intros Hi Hr Ht Hlt. unfold schedule. rewrite Hi. unfold refreshing. rewrite Hr.
  pose proof (advance_refreshed is_mandatory metadata (set_world w u)) as H.
  cbv zeta in H. cbn [self world set_world] in H.
  assert (Hn : needs_refresh (freeze (_set_from_data metadata (self u))) 0 w
               = (true, w')).
  { unfold needs_refresh. cbn. rewrite Ht.
    destruct (Z.leb_spec 0 (md_expiry_time metadata - now)); [lia|].
    by destruct (cls (self u)). }
  rewrite Hn in H. rewrite H. reflexivity.
Qed.

(** C1. Every refresh [_refresh] performs, when [_refresh_using] raises
  [e].

  - The caller that finds the lock free (the advisory check and its
    repetition under the lock both ask for a refresh): if the mandatory
    check said the refresh was mandatory, [e] reaches the caller of
    [get_frozen_credentials]; if it was only advisory, the caller gets the
    frozen credentials held before the call.  Either way the object is
    left as it was and the lock is released.
  - The caller [i] that finds the lock held and a mandatory refresh due:
    it waits for the lock, cannot run while the lock is held, takes it
    once it is free and refreshes, always as a mandatory refresh; [e]
    reaches the caller, the object is left as it was and the lock is
    released. *)
Theorem refresh_failure_policy :
  (forall (s s1 s2 s3 : State) (is_mandatory : bool) (e : exn) (w4 : W),
     lock_held s = false ->
     exec advisory_refresh_needed s = (Returned true, s1) ->
     exec advisory_refresh_needed (set_lock true s1) = (Returned true, s2) ->
     exec mandatory_refresh_needed s2 = (Returned is_mandatory, s3) ->
     refresh_using (world s3) = (Raise e, w4) ->
     exec (_protected_refresh is_mandatory) s3
     = (if is_mandatory then Raised e else Returned tt, count_call (set_world w4 s3))
     /\ exec get_frozen_credentials s
        = (if is_mandatory then Raised e else Returned (_frozen_credentials (self s)),
           mkState (self s) w4 false (S (calls s))))
  /\ (forall (pool : list (task (option ReadOnlyCredentials))) (i : nat),
        (forall s s1 s2 : State,
           pool !! i = Some (Ready get_frozen_credentials) ->
           lock_held s = true ->
           exec advisory_refresh_needed s = (Returned true, s1) ->
           exec mandatory_refresh_needed s1 = (Returned true, s2) ->
           schedule i (pool, s) = Some (<[i := entering_second_lock]> pool, s2))
        /\ (forall t t1 : State,
              pool !! i = Some entering_second_lock ->
              (lock_held t = true -> schedule i (pool, t) = None)
              /\ (lock_held t = false ->
                  exec mandatory_refresh_needed (set_lock true t) = (Returned true, t1) ->
                  schedule i (pool, t)
                  = Some (<[i := refreshing true]> pool, count_call t1)))
        /\ (forall (u : State) (e : exn) (w : W),
              pool !! i = Some (refreshing true) ->
              refresh_using (world u) = (Raise e, w) ->
              schedule i (pool, u)
              = Some (<[i := Finished (Raise e)]> pool,
                      mkState (self u) w false (calls u)))).
Proof.
  split.
  - intros s s1 s2 s3 is_mandatory e w4.
    exact (refresh_failure_holding_lock time_fetcher refresh_using
             s s1 s2 s3 is_mandatory e w4).
  - intros pool i. split; [|split].
    + intros s s1 s2. apply schedule_waits_for_lock.
    + intros t t1. apply schedule_gets_lock.
    + intros u e w Hi Hr.
      exact (schedule_refresh_raised pool i true u e w Hi Hr).
Qed.

(** C4. Every refresh [_refresh] performs, when [_refresh_using] returns
  metadata and the clock read afterwards is already past the metadata's
  expiry time.

  - The caller that finds the lock free: [_protected_refresh] raises
    [RuntimeError], in a mandatory refresh and in an advisory one alike,
    and so does [get_frozen_credentials]; the fetched fields have been
    stored by then, and the lock is released.
  - The caller [i] that finds the lock held and a mandatory refresh due:
    it waits for the lock, takes it once it is free and refreshes; the
    caller gets [RuntimeError], the fetched fields have been stored, and
    the lock is released. *)
Theorem refreshed_but_expired_is_fatal :
  (forall (s s1 s2 s3 : State) (is_mandatory : bool)
          (metadata : CredentialMetadata) (w4 w5 : W) (now : Z),
     lock_held s = false ->
     exec advisory_refresh_needed s = (Returned true, s1) ->
     exec advisory_refresh_needed (set_lock true s1) = (Returned true, s2) ->
     exec mandatory_refresh_needed s2 = (Returned is_mandatory, s3) ->
     refresh_using (world s3) = (Ok metadata, w4) ->
     time_fetcher w4 = (now, w5) ->
     md_expiry_time metadata < now ->
     exec (_protected_refresh is_mandatory) s3
     = (Raised (RuntimeError still_expired_msg),
        mkState (freeze (_set_from_data metadata (self s))) w5 true (S (calls s)))
     /\ exec get_frozen_credentials s
        = (Raised (RuntimeError still_expired_msg),
           mkState (freeze (_set_from_data metadata (self s))) w5 false (S (calls s))))
  /\ (forall (pool : list (task (option ReadOnlyCredentials))) (i : nat),
        (forall s s1 s2 : State,
           pool !! i = Some (Ready get_frozen_credentials) ->
           lock_held s = true ->
           exec advisory_refresh_needed s = (Returned true, s1) ->
           exec mandatory_refresh_needed s1 = (Returned true, s2) ->
           schedule i (pool, s) = Some (<[i := entering_second_lock]> pool, s2))
        /\ (forall t t1 : State,
              pool !! i = Some entering_second_lock ->
              lock_held t = false ->
              exec mandatory_refresh_needed (set_lock true t) = (Returned true, t1) ->
              schedule i (pool, t)
              = Some (<[i := refreshing true]> pool, count_call t1))
        /\ (forall (u : State) (metadata : CredentialMetadata) (w w' : W) (now : Z),
              pool !! i = Some (refreshing true) ->
              refresh_using (world u) = (Ok metadata, w) ->
              time_fetcher w = (now, w') ->
              md_expiry_time metadata < now ->
              schedule i (pool, u)
              = Some (<[i := Finished (Raise (RuntimeError still_expired_msg))]> pool,
                      mkState (freeze (_set_from_data metadata (self u))) w' false
                        (calls u)))).
Proof.
  split.
  - intros s s1 s2 s3 is_mandatory metadata w4 w5 now.
    exact (refreshed_but_expired_holding_lock time_fetcher refresh_using
             s s1 s2 s3 is_mandatory metadata w4 w5 now).
  - intros pool i. split; [|split].
    + intros s s1 s2. apply schedule_waits_for_lock.
    + intros t t1 Hi. exact (proj2 (schedule_gets_lock pool i t t1 Hi)).
    + intros u metadata w w' now Hi Hr Ht Hlt.
      exact (schedule_refreshed_expired pool i true u metadata w w' now Hi Hr Ht Hlt).
Qed.

(** How far a caller is from its result: the number of times it can still
  be scheduled in [get_frozen_credentials]. *)
Definition weight {A} (t : task A) : nat :=
match t with
| Ready _ => 3
| WaitingForLock _ => 2
| InRefresh _ => 1
| Finished _ => 0
end.

Definition is_finished {A} (t : task A) : bool :=
match t with Finished _ => true | _ => false end.

Fixpoint remaining {A} (pool : list (task A)) : nat :=
match pool with
| [] => 0
| t :: pool' => weight t + remaining pool'
end.

Lemma remaining_insert {A} (pool : list (task A)) (i : nat) (t t' : task A) :
  pool !! i = Some t ->
  (weight t' < weight t)%nat ->
  (remaining (<[i := t']> pool) < remaining pool)%nat.
Proof.
  revert i. induction pool as [|x pool IH]; intros [|i] Hi Hlt;
    try discriminate.
  - injection Hi as ->. change (weight t' + remaining pool < weight t + remaining pool)%nat.
    lia.
  - specialize (IH i Hi Hlt).
    change (weight x + remaining (<[i := t']> pool) < weight x + remaining pool)%nat.
    lia.
Qed.

Lemma remaining_replicate {A} (n : nat) (t : task A) :
  remaining (replicate n t) = (n * weight t)%nat.
Proof.
  induction n as [|n IH]; [done|].
  change (weight t + remaining (replicate n t) = S n * weight t)%nat.
  rewrite IH. lia.
Qed.

Section SingleFlight.
(** The object all callers share is [c0], on which both checks keep
  asking for a refresh whatever the clock shows, and [_refresh_using]
  returns metadata with which neither check asks for one, nor is the
  result expired, whatever the clock shows. *)
Variable c0 : RefreshableCredentials.

Definition stays_stale : Prop :=
forall w,
  (needs_refresh c0 (_advisory_refresh_timeout c0) w).1 = true
  /\ (needs_refresh c0 (_mandatory_refresh_timeout c0) w).1 = true.

Definition refreshed (metadata : CredentialMetadata) : RefreshableCredentials :=
freeze (_set_from_data metadata c0).

Definition stays_fresh (metadata : CredentialMetadata) : Prop :=
forall w,
  (needs_refresh (refreshed metadata) (_advisory_refresh_timeout c0) w).1 = false
  /\ (needs_refresh (refreshed metadata) (_mandatory_refresh_timeout c0) w).1 = false
  /\ (needs_refresh (refreshed metadata) 0 w).1 = false.

Definition refresh_succeeds : Prop :=
forall w, exists metadata w',
  refresh_using w = (Ok metadata, w') /\ stays_fresh metadata.

Abbreviation caller := (task (option ReadOnlyCredentials)).

Definition pending (t : caller) : Prop :=
t = Ready get_frozen_credentials \/ t = entering_first_lock \/ t = entering_second_lock.

Definition served (metadata : CredentialMetadata) (t : caller) : Prop :=
t = Finished (Ok (_frozen_credentials (refreshed metadata))).

(** The three phases of a run: nobody refreshing yet, one caller
  refreshing under the lock, refreshed. *)
Definition idle (cfg : list caller * @State W) : Prop :=
self cfg.2 = c0 /\ lock_held cfg.2 = false /\ calls cfg.2 = 0%nat
/\ forall j t, cfg.1 !! j = Some t -> pending t.

Definition in_flight (cfg : list caller * @State W) : Prop :=
self cfg.2 = c0 /\ lock_held cfg.2 = true /\ calls cfg.2 = 1%nat
/\ exists i, cfg.1 !! i = Some (refreshing true)
     /\ forall j t, j <> i -> cfg.1 !! j = Some t -> pending t.

Definition done_refreshing (cfg : list caller * @State W) : Prop :=
exists metadata,
  stays_fresh metadata
  /\ self cfg.2 = refreshed metadata /\ lock_held cfg.2 = false /\ calls cfg.2 = 1%nat
  /\ forall j t, cfg.1 !! j = Some t -> pending t \/ served metadata t.

Definition invariant (cfg : list caller * @State W) : Prop :=
idle cfg \/ in_flight cfg \/ done_refreshing cfg.

Lemma weight_pending (t : caller) : pending t -> (2 <= weight t)%nat.
Proof. intros [->|[->| ->]]; simpl; lia. Qed.

Hypothesis Hstale : stays_stale.
Hypothesis Hrefresh : refresh_succeeds.

Lemma lookup_insert_cases (pool : list caller) (i j : nat) (t t' : caller) :
  <[i := t']> pool !! j = Some t ->
  (j = i /\ t = t') \/ (j <> i /\ pool !! j = Some t).
Proof.
  intros H. destruct (decide (j = i)) as [->|Hne].
  - left. split; [done|].
    destruct (decide (i < length pool)%nat) as [Hlt|Hge].
    + rewrite list_lookup_insert_eq in H by done. by injection H.
    + rewrite list_insert_ge in H by lia.
      apply lookup_lt_Some in H. lia.
  - right. split; [done|]. by rewrite list_lookup_insert_ne in H.
Qed.

(** What a step does while the object is stale. *)
Lemma stale_start (s : State) :
  self s = c0 ->
  exists w,
    advance get_frozen_credentials s
    = (if lock_held s then entering_second_lock else entering_first_lock,
       set_world w s).
Proof.
  intros Hself.
  pose proof (advance_get_frozen_credentials s) as Ha. cbv zeta in Ha.
  rewrite Hself in Ha.
  destruct (needs_refresh c0 _ (world s)) as [adv w1] eqn:Hn.
  pose proof (proj1 (Hstale (world s))) as Hadv. rewrite Hn in Hadv.
  cbn [fst] in Hadv. subst adv. cbn [negb] in Ha.
  destruct (lock_held s); cbn [negb] in Ha.
  - destruct (needs_refresh c0 _ w1) as [mand w2] eqn:Hm.
    pose proof (proj2 (Hstale w1)) as Hmand. rewrite Hm in Hmand.
    cbn [fst] in Hmand. subst mand. by exists w2.
  - by exists w1.
Qed.

Lemma stale_first_lock (s : State) :
  self s = c0 ->
  exists w,
    advance (pbind (release_after refresh_holding_lock) return_frozen_credentials) s
    = (refreshing true, count_call (set_world w s)).
Proof.
  intros Hself.
  pose proof (advance_first_lock s) as Ha. cbv zeta in Ha. rewrite Hself in Ha.
  destruct (needs_refresh c0 _ (world s)) as [adv w1] eqn:Hn.
  pose proof (proj1 (Hstale (world s))) as Hadv. rewrite Hn in Hadv.
  cbn [fst] in Hadv. subst adv.
  destruct (needs_refresh c0 _ w1) as [mand w2] eqn:Hm.
  pose proof (proj2 (Hstale w1)) as Hmand. rewrite Hm in Hmand.
  cbn [fst] in Hmand. subst mand. by exists w2.
Qed.

Lemma stale_second_lock (s : State) :
  self s = c0 ->
  exists w,
    advance (pbind (release_after refresh_after_waiting) return_frozen_credentials) s
    = (refreshing true, count_call (set_world w s)).
Proof.
  intros Hself.
  pose proof (advance_second_lock s) as Ha. cbv zeta in Ha. rewrite Hself in Ha.
  destruct (needs_refresh c0 _ (world s)) as [mand w1] eqn:Hm.
  pose proof (proj2 (Hstale (world s))) as Hmand. rewrite Hm in Hmand.
  cbn [fst] in Hmand. subst mand. by exists w1.
Qed.

(** What a step does once the object is refreshed. *)
Lemma fresh_start (metadata : CredentialMetadata) (s : State) :
  stays_fresh metadata ->
  self s = refreshed metadata ->
  exists w,
    advance get_frozen_credentials s
    = (Finished (Ok (_frozen_credentials (refreshed metadata))), set_world w s).
Proof.
  intros Hfresh Hself.
  pose proof (advance_get_frozen_credentials s) as Ha. cbv zeta in Ha.
  rewrite Hself in Ha.
  destruct (needs_refresh (refreshed metadata) _ (world s)) as [adv w1] eqn:Hn.
  pose proof (proj1 (Hfresh (world s))) as Hadv.
  change (_advisory_refresh_timeout c0)
    with (_advisory_refresh_timeout (refreshed metadata)) in Hadv.
  rewrite Hn in Hadv. cbn [fst] in Hadv. subst adv. by exists w1.
Qed.

Lemma fresh_first_lock (metadata : CredentialMetadata) (s : State) :
  stays_fresh metadata ->
  self s = refreshed metadata ->
  exists w,
    advance (pbind (release_after refresh_holding_lock) return_frozen_credentials) s
    = (Finished (Ok (_frozen_credentials (refreshed metadata))),
       set_lock false (set_world w s)).
Proof.
  intros Hfresh Hself.
  pose proof (advance_first_lock s) as Ha. cbv zeta in Ha. rewrite Hself in Ha.
  destruct (needs_refresh (refreshed metadata) _ (world s)) as [adv w1] eqn:Hn.
  pose proof (proj1 (Hfresh (world s))) as Hadv.
  change (_advisory_refresh_timeout c0)
    with (_advisory_refresh_timeout (refreshed metadata)) in Hadv.
  rewrite Hn in Hadv. cbn [fst] in Hadv. subst adv.
  destruct (needs_refresh (refreshed metadata) _ w1) as [mand w2].
  by exists w1.
Qed.

Lemma fresh_second_lock (metadata : CredentialMetadata) (s : State) :
  stays_fresh metadata ->
  self s = refreshed metadata ->
  exists w,
    advance (pbind (release_after refresh_after_waiting) return_frozen_credentials) s
    = (Finished (Ok (_frozen_credentials (refreshed metadata))),
       set_lock false (set_world w s)).
Proof.
  intros Hfresh Hself.
  pose proof (advance_second_lock s) as Ha. cbv zeta in Ha. rewrite Hself in Ha.
  destruct (needs_refresh (refreshed metadata) _ (world s)) as [mand w1] eqn:Hm.
  pose proof (proj1 (proj2 (Hfresh (world s)))) as Hmand.
  change (_mandatory_refresh_timeout c0)
    with (_mandatory_refresh_timeout (refreshed metadata)) in Hmand.
  rewrite Hm in Hmand. cbn [fst] in Hmand. subst mand. by exists w1.
Qed.

(** The step that completes the refresh. *)
Lemma refresh_completes (metadata : CredentialMetadata) (s : State) :
  stays_fresh metadata ->
  self s = c0 ->
  exists w,
    advance (pbind (release_after (protected_refresh_resumed true (Ok metadata)))
               return_frozen_credentials) s
    = (Finished (Ok (_frozen_credentials (refreshed metadata))),
       set_lock false (set_world w (set_self (refreshed metadata) s))).
Proof.
  intros Hfresh Hself.
  pose proof (advance_refreshed true metadata s) as Ha. cbv zeta in Ha.
  rewrite Hself in Ha. fold (refreshed metadata) in Ha.
  destruct (needs_refresh (refreshed metadata) 0 (world s)) as [expired w1] eqn:He.
  pose proof (proj2 (proj2 (Hfresh (world s)))) as Hexp. rewrite He in Hexp.
  cbn [fst] in Hexp. subst expired. by exists w1.
Qed.

(** One scheduling step keeps the invariant and brings the pool closer to
  the end. *)
Lemma schedule_invariant (i : nat) (cfg cfg' : list caller * @State W) :
  invariant cfg ->
  schedule i cfg = Some cfg' ->
  invariant cfg' /\ (remaining cfg'.1 < remaining cfg.1)%nat.
Proof.
  destruct cfg as [pool s]. intros Hinv Hstep. unfold schedule in Hstep.
  destruct (pool !! i) as [t|] eqn:Hi; [|discriminate].
  destruct Hinv as [(Hself & Hlock & Hcalls & Hpool)
                   |[(Hself & Hlock & Hcalls & r & Hr & Hpool)
                    |(md & Hfresh & Hself & Hlock & Hcalls & Hpool)]];
    cbn [fst snd] in *.
  - (* nobody refreshing yet *)
    destruct (Hpool i t Hi) as [->|[->| ->]].
    + destruct (stale_start s Hself) as [w Ha]. rewrite Hlock in Ha.
      rewrite Ha in Hstep. injection Hstep as <-. split.
      * left. repeat split; try done.
        intros j t Hj. apply lookup_insert_cases in Hj as [[-> ->]|[Hne Hj]].
        -- right; by left.
        -- by eapply Hpool.
      * by eapply remaining_insert; [exact Hi|simpl; lia].
    + unfold entering_first_lock in Hstep, Hi. rewrite Hlock in Hstep.
      destruct (stale_first_lock (set_lock true s) Hself) as [w Ha].
      rewrite Ha in Hstep. injection Hstep as <-. split.
      * right; left. repeat split; try done; [by cbn; rewrite Hcalls|].
        exists i. split.
        -- apply list_lookup_insert_eq. by eapply lookup_lt_Some.
        -- intros j t Hne Hj. cbn [fst] in Hj.
           rewrite list_lookup_insert_ne in Hj by done. by eapply Hpool.
      * by eapply remaining_insert; [exact Hi|simpl; lia].
    + unfold entering_second_lock in Hstep, Hi. rewrite Hlock in Hstep.
      destruct (stale_second_lock (set_lock true s) Hself) as [w Ha].
      rewrite Ha in Hstep. injection Hstep as <-. split.
      * right; left. repeat split; try done; [by cbn; rewrite Hcalls|].
        exists i. split.
        -- apply list_lookup_insert_eq. by eapply lookup_lt_Some.
        -- intros j t Hne Hj. cbn [fst] in Hj.
           rewrite list_lookup_insert_ne in Hj by done. by eapply Hpool.
      * by eapply remaining_insert; [exact Hi|simpl; lia].
  - (* a refresh in flight *)
    destruct (decide (i = r)) as [->|Hne].
    + rewrite Hr in Hi. injection Hi as <-.
      destruct (Hrefresh (world s)) as (md & w' & Hru & Hfresh).
      unfold refreshing in Hstep, Hr. rewrite Hru in Hstep.
      destruct (refresh_completes md (set_world w' s) Hfresh Hself) as [w Ha].
      rewrite Ha in Hstep. injection Hstep as <-. split.
      * right; right. exists md. do 4 (split; [done|]).
        intros j t Hj. apply lookup_insert_cases in Hj as [[-> ->]|[Hne Hj]].
        -- by right.
        -- left. by eapply Hpool.
      * by eapply remaining_insert; [exact Hr|simpl; lia].
    + destruct (Hpool i t Hne Hi) as [->|[->| ->]].
      * destruct (stale_start s Hself) as [w Ha]. rewrite Hlock in Ha.
        rewrite Ha in Hstep. injection Hstep as <-. split.
        -- right; left. repeat split; try done.
           exists r. split; [by cbn; rewrite list_lookup_insert_ne|].
           intros j t Hjr Hj. apply lookup_insert_cases in Hj as [[-> ->]|[Hji Hj]].
           ++ right; by right.
           ++ by eapply Hpool.
        -- by eapply remaining_insert; [exact Hi|simpl; lia].
      * unfold entering_first_lock in Hstep. by rewrite Hlock in Hstep.
      * unfold entering_second_lock in Hstep. by rewrite Hlock in Hstep.
  - (* refreshed *)
    destruct (Hpool i t Hi) as [[->|[->| ->]]| ->].
    + destruct (fresh_start md s Hfresh Hself) as [w Ha].
      rewrite Ha in Hstep. injection Hstep as <-. split.
      * right; right. exists md. do 4 (split; [done|]).
        intros j t Hj. apply lookup_insert_cases in Hj as [[-> ->]|[Hne Hj]].
        -- by right.
        -- by eapply Hpool.
      * by eapply remaining_insert; [exact Hi|simpl; lia].
    + unfold entering_first_lock in Hstep, Hi. rewrite Hlock in Hstep.
      destruct (fresh_first_lock md (set_lock true s) Hfresh Hself) as [w Ha].
      rewrite Ha in Hstep. injection Hstep as <-. split.
      * right; right. exists md. do 4 (split; [done|]).
        intros j t Hj. apply lookup_insert_cases in Hj as [[-> ->]|[Hne Hj]].
        -- by right.
        -- by eapply Hpool.
      * by eapply remaining_insert; [exact Hi|simpl; lia].
    + unfold entering_second_lock in Hstep, Hi. rewrite Hlock in Hstep.
      destruct (fresh_second_lock md (set_lock true s) Hfresh Hself) as [w Ha].
      rewrite Ha in Hstep. injection Hstep as <-. split.
      * right; right. exists md. do 4 (split; [done|]).
        intros j t Hj. apply lookup_insert_cases in Hj as [[-> ->]|[Hne Hj]].
        -- by right.
        -- by eapply Hpool.
      * by eapply remaining_insert; [exact Hi|simpl; lia].
    + discriminate.
Qed.

Lemma run_schedule_invariant (sched : list nat) (cfg cfg' : list caller * @State W) :
  invariant cfg ->
  run_schedule sched cfg = Some cfg' ->
  invariant cfg'
  /\ (length sched + remaining cfg'.1 <= remaining cfg.1)%nat
  /\ length cfg'.1 = length cfg.1.
Proof.
  revert cfg. induction sched as [|i sched IH]; intros cfg Hinv Hrun; simpl in Hrun.
  - injection Hrun as <-. simpl. auto with lia.
  - destruct (schedule i cfg) as [cfg1|] eqn:Hstep; [|discriminate].
    destruct (schedule_invariant i cfg cfg1 Hinv Hstep) as [Hinv1 Hlt].
    destruct (IH cfg1 Hinv1 Hrun) as (Hinv' & Hle & Hlen).
    split; [done|]. split; [simpl; lia|].
    rewrite Hlen. clear -Hstep. destruct cfg as [pool s]. unfold schedule in Hstep.
    destruct (pool !! i) as [[p|k|k|r]|]; try discriminate.
    + destruct (advance p s). injection Hstep as <-. apply length_insert.
    + destruct (lock_held s); [discriminate|].
      destruct (advance k _). injection Hstep as <-. apply length_insert.
    + destruct (refresh_using (world s)) as [r w]. destruct (advance _ _).
      injection Hstep as <-. apply length_insert.
Qed.

(** Under the invariant a caller that has not finished can be scheduled:
  the pool is never stuck. *)
Lemma invariant_progress (cfg : list caller * @State W) :
  invariant cfg ->
  forallb is_finished cfg.1 = true
  \/ exists i cfg', schedule i cfg = Some cfg'.
Proof.
  destruct cfg as [pool s]. intros Hinv.
  destruct (forallb is_finished pool) eqn:Hall; [by left|right].
  assert (Hex : exists i t, pool !! i = Some t /\ is_finished t = false).
  { clear -Hall. induction pool as [|t pool IH]; [discriminate|].
    simpl in Hall. destruct (is_finished t) eqn:Ht.
    - destruct (IH Hall) as (i & t' & Hi & Ht'). by exists (S i), t'.
    - by exists 0%nat, t. }
  destruct Hex as (i & t & Hi & Ht).
  assert (Hpending_step : pending t -> lock_held s = false ->
            exists cfg', schedule i (pool, s) = Some cfg').
  { intros [->|[->| ->]] Hlock; unfold schedule; rewrite Hi.
    - destruct (advance _ s). eauto.
    - unfold entering_first_lock. rewrite Hlock. destruct (advance _ _). eauto.
    - unfold entering_second_lock. rewrite Hlock. destruct (advance _ _). eauto. }
  destruct Hinv as [(Hself & Hlock & Hcalls & Hpool)
                   |[(Hself & Hlock & Hcalls & r & Hr & Hpool)
                    |(md & Hfresh & Hself & Hlock & Hcalls & Hpool)]];
    cbn [fst snd] in *.
  - exists i. by apply Hpending_step; [eapply Hpool|].
  - exists r. unfold schedule. rewrite Hr. unfold refreshing.
    destruct (refresh_using (world s)) as [res w]. destruct (advance _ _). eauto.
  - exists i. destruct (Hpool i t Hi) as [Hp| ->]; [|discriminate].
    by apply Hpending_step.
Qed.

Lemma invariant_initially (n : nat) (w : W) :
  invariant (replicate n (Ready get_frozen_credentials), mkState c0 w false 0).
Proof.
  left. repeat split. intros j t Hj. apply lookup_replicate in Hj as [-> _]. by left.
Qed.

(** C5, as the code has it.  [n] callers call [get_frozen_credentials] on
  an object that stays past its mandatory window until refreshed, and
  [_refresh_using] succeeds with credentials that stay outside the
  advisory window.  Then in every run, whatever the order of the callers:
  [_refresh_using] is invoked at most once at any point; the run has at
  most [3 * n] steps; and at any point either some caller can be
  scheduled, or all have finished, and then [_refresh_using] has been
  invoked exactly once and every caller has got the refreshed key
  material.  And whatever the object: a caller that finds the lock held
  and needs only advisory freshness finishes at once with the frozen
  credentials of the object, while one that needs mandatory freshness
  suspends on the lock and cannot run while it is held. *)
Theorem single_flight_refresh (n : nat) (w0 : W) (sched : list nat)
  (pool : list caller) (s : @State W) :
  run_schedule sched (replicate n (Ready get_frozen_credentials), mkState c0 w0 false 0)
  = Some (pool, s) ->
  (calls s <= 1)%nat
  /\ (length sched <= 3 * n)%nat
  /\ ((exists i cfg', schedule i (pool, s) = Some cfg')
      \/ (forallb is_finished pool = true
          /\ ((0 < n)%nat ->
              calls s = 1%nat
              /\ exists metadata,
                  self s = refreshed metadata
                  /\ Forall (served metadata) pool)))
  /\ (forall (s1 : @State W) (w1 w2 : W) (mandatory : bool),
        lock_held s1 = true ->
        needs_refresh (self s1) (_advisory_refresh_timeout (self s1)) (world s1)
        = (true, w1) ->
        needs_refresh (self s1) (_mandatory_refresh_timeout (self s1)) w1
        = (mandatory, w2) ->
        advance get_frozen_credentials s1
        = (if mandatory then entering_second_lock
           else Finished (Ok (_frozen_credentials (self s1))),
           set_world w2 s1))
  /\ (forall (pool1 : list caller) (s1 : @State W) (i : nat),
        lock_held s1 = true ->
        pool1 !! i = Some entering_second_lock ->
        schedule i (pool1, s1) = None).
Proof.
  intros Hrun.
  destruct (run_schedule_invariant sched _ _ (invariant_initially n w0) Hrun)
    as (Hinv & Hle & Hlen).
  cbn [fst snd] in *. rewrite remaining_replicate in Hle.
  rewrite length_replicate in Hlen. split; [|split; [|split; [|split]]].
  - destruct Hinv as [(_ & _ & Hc & _)|[(_ & _ & Hc & _)|(md & _ & _ & _ & Hc & _)]];
      cbn [snd] in Hc; lia.
  - simpl in Hle. lia.
  - destruct (invariant_progress _ Hinv) as [Hall|Hstep]; [right|by left].
    split; [done|]. intros Hn. cbn [fst] in Hall.
    assert (Hnot : forall t, is_finished t = true -> ~ pending t).
    { intros t Ht [->|[->| ->]]; discriminate. }
    assert (Hfirst : exists t, pool !! 0%nat = Some t).
    { apply lookup_lt_is_Some. lia. }
    destruct Hfirst as [t0 H0].
    assert (Hfin : forall j t, pool !! j = Some t -> is_finished t = true).
    { intros j t Hj. rewrite forallb_forall in Hall. apply Hall.
      apply list_elem_of_In. by eapply list_elem_of_lookup_2. }
    destruct Hinv as [(_ & _ & _ & Hpool)
                     |[(_ & _ & _ & r & Hr & _)
                      |(md & _ & Hself & _ & Hcalls & Hpool)]]; cbn [fst snd] in *.
    + destruct (Hnot t0 (Hfin _ _ H0)). by eapply Hpool.
    + specialize (Hfin _ _ Hr). discriminate.
    + split; [done|]. exists md. split; [done|].
      apply Forall_lookup. intros j t Hj.
      destruct (Hpool j t Hj) as [Hp|Hs]; [|done].
      destruct (Hnot t (Hfin _ _ Hj) Hp).
  - intros s1 w1 w2 mandatory Hlock Ha Hm.
    pose proof (advance_get_frozen_credentials s1) as Hadv. cbv zeta in Hadv.
    rewrite Ha, Hlock in Hadv. cbn [negb] in Hadv. rewrite Hm in Hadv.
    rewrite Hadv. by destruct mandatory.
  - intros pool1 s1 i Hlock Hi. unfold schedule. rewrite Hi.
    unfold entering_second_lock. by rewrite Hlock.
Qed.

End SingleFlight.
End Concurrent.

Definition connection_reset : exn :=
CredentialRetrievalError "assume-role" "connection reset".

(** 700 seconds before expiry the refresh is advisory: the failure is
  swallowed.  500 seconds before expiry it is mandatory: the failure is
  raised, to the caller that refreshes first, and to caller 1, which
  started while caller 0 was refreshing, waited for the lock, took it
  once caller 0 had failed, and refreshed again. *)
Lemma refresh_failure_policy_witness :
  let step := schedule demo_time_fetcher demo_refresh_raises 1 in
  let c := demo_credentials 1000 in
  run demo_time_fetcher demo_refresh_raises get_frozen_credentials
    (mkState c 300 false 0)
  = (Returned (Some old_frozen), mkState c 300 false 1%nat)
  /\ run demo_time_fetcher demo_refresh_raises get_frozen_credentials
       (mkState c 500 false 0)
     = (Raised connection_reset, mkState c 500 false 1%nat)
  /\ step ([refreshing true; Ready get_frozen_credentials], mkState c 500 true 1%nat)
     = Some ([refreshing true; entering_second_lock], mkState c 500 true 1%nat)
  /\ step ([refreshing true; entering_second_lock], mkState c 500 true 1%nat)
     = None
  /\ step ([Finished (Raise connection_reset); entering_second_lock],
           mkState c 500 false 1%nat)
     = Some ([Finished (Raise connection_reset); refreshing true],
             mkState c 500 true 2%nat)
  /\ step ([Finished (Raise connection_reset); refreshing true],
           mkState c 500 true 2%nat)
     = Some ([Finished (Raise connection_reset); Finished (Raise connection_reset)],
             mkState c 500 false 2%nat).
Proof.
  cbv zeta.
  destruct (refresh_failure_policy demo_time_fetcher demo_refresh_raises)
    as [Hfree Hwait].
  split; [|split; [|split; [|split; [|split]]]].
  - exact (proj2 (Hfree
      (mkState (demo_credentials 1000) 300 false 0)
      (mkState (demo_credentials 1000) 300 false 0)
      (mkState (demo_credentials 1000) 300 true 0)
      (mkState (demo_credentials 1000) 300 true 0)
      false _ 300 eq_refl eq_refl eq_refl eq_refl eq_refl)).
  - exact (proj2 (Hfree
      (mkState (demo_credentials 1000) 500 false 0)
      (mkState (demo_credentials 1000) 500 false 0)
      (mkState (demo_credentials 1000) 500 true 0)
      (mkState (demo_credentials 1000) 500 true 0)
      true _ 500 eq_refl eq_refl eq_refl eq_refl eq_refl)).
  - exact (proj1 (Hwait [refreshing true; Ready get_frozen_credentials] 1%nat)
             (mkState (demo_credentials 1000) 500 true 1%nat)
             (mkState (demo_credentials 1000) 500 true 1%nat)
             (mkState (demo_credentials 1000) 500 true 1%nat)
             eq_refl eq_refl eq_refl eq_refl).
  - exact (proj1 (proj1 (proj2 (Hwait [refreshing true; entering_second_lock] 1%nat))
                    (mkState (demo_credentials 1000) 500 true 1%nat)
                    (mkState (demo_credentials 1000) 500 true 1%nat) eq_refl)
             eq_refl).
  - exact (proj2 (proj1 (proj2 (Hwait [Finished (Raise connection_reset);
                                       entering_second_lock] 1%nat))
                    (mkState (demo_credentials 1000) 500 false 1%nat)
                    (mkState (demo_credentials 1000) 500 true 1%nat) eq_refl)
             eq_refl eq_refl).
  - exact (proj2 (proj2 (Hwait [Finished (Raise connection_reset);
                                refreshing true] 1%nat))
             (mkState (demo_credentials 1000) 500 true 2%nat)
             connection_reset 500 eq_refl eq_refl).
Defined.

(** A refresh that returns metadata expired since instant 200, fetched at
  instant 500: [RuntimeError] for the caller that found the lock free, and
  for caller 1, which started while caller 0 was refreshing, waited for
  the lock, and refreshed again after caller 0 had failed. *)
Lemma refreshed_but_expired_is_fatal_witness :
  let refresh := demo_refresh_returns (new_metadata 200) in
  let step := schedule demo_time_fetcher refresh 1 in
  let c := demo_credentials 1000 in
  let c' := freeze (_set_from_data (new_metadata 200) c) in
  let still_expired := RuntimeError still_expired_msg in
  run demo_time_fetcher refresh get_frozen_credentials (mkState c 500 false 0)
  = (Raised still_expired, mkState c' 500 false 1%nat)
  /\ step ([refreshing true; Ready get_frozen_credentials], mkState c 500 true 1%nat)
     = Some ([refreshing true; entering_second_lock], mkState c 500 true 1%nat)
  /\ step ([Finished (Raise still_expired); entering_second_lock],
           mkState c' 500 false 1%nat)
     = Some ([Finished (Raise still_expired); refreshing true],
             mkState c' 500 true 2%nat)
  /\ step ([Finished (Raise still_expired); refreshing true],
           mkState c' 500 true 2%nat)
     = Some ([Finished (Raise still_expired); Finished (Raise still_expired)],
             mkState c' 500 false 2%nat).
Proof.
  cbv zeta.
  destruct (refreshed_but_expired_is_fatal demo_time_fetcher
              (demo_refresh_returns (new_metadata 200)))
    as [Hfree Hwait].
  split; [|split; [|split]].
  - exact (proj2 (Hfree
      (mkState (demo_credentials 1000) 500 false 0)
      (mkState (demo_credentials 1000) 500 false 0)
      (mkState (demo_credentials 1000) 500 true 0)
      (mkState (demo_credentials 1000) 500 true 0)
      true (new_metadata 200) 500 500 500
      eq_refl eq_refl eq_refl eq_refl eq_refl eq_refl eq_refl)).
  - exact (proj1 (Hwait [refreshing true; Ready get_frozen_credentials] 1%nat)
             (mkState (demo_credentials 1000) 500 true 1%nat)
             (mkState (demo_credentials 1000) 500 true 1%nat)
             (mkState (demo_credentials 1000) 500 true 1%nat)
             eq_refl eq_refl eq_refl eq_refl).
  - exact (proj1 (proj2 (Hwait [Finished (Raise (RuntimeError still_expired_msg));
                                entering_second_lock] 1%nat))
             (mkState (freeze (_set_from_data (new_metadata 200)
                                 (demo_credentials 1000))) 500 false 1%nat)
             (mkState (freeze (_set_from_data (new_metadata 200)
                                 (demo_credentials 1000))) 500 true 1%nat)
             eq_refl eq_refl eq_refl).
  - exact (proj2 (proj2 (Hwait [Finished (Raise (RuntimeError still_expired_msg));
                                refreshing true] 1%nat))
             (mkState (freeze (_set_from_data (new_metadata 200)
                                 (demo_credentials 1000))) 500 true 2%nat)
             (new_metadata 200) 500 500 500 eq_refl eq_refl eq_refl eq_refl).
Defined.

(** *** Two callers, a clock that stands at instant 500

  The object expires at instant 1000: 500 seconds remain, fewer than the
  mandatory 600. *)
Definition clock_at (now : Z) (w : unit) : Z * unit := (now, w).

Definition refresh_returns (metadata : CredentialMetadata) (w : unit)
  : result CredentialMetadata * unit :=
(Ok metadata, w).

Definition refresh_raises (w : unit) : result CredentialMetadata * unit :=
(Raise (CredentialRetrievalError "assume-role" "connection reset"), w).

Definition two_callers : list (task (option ReadOnlyCredentials)) * @State unit :=
(replicate 2 (Ready get_frozen_credentials),
 mkState (demo_credentials 1000) tt false 0).

Definition new_frozen : ReadOnlyCredentials :=
mkReadOnly (Some "AKNEW"%string) (Some "SKNEW"%string) (Some "TKNEW"%string).

Lemma demo_stays_stale : stays_stale (clock_at 500) (demo_credentials 1000).
Proof. intros w. split; reflexivity. Defined.

Lemma demo_refresh_succeeds :
  refresh_succeeds (clock_at 500) (refresh_returns (new_metadata 5000))
    (demo_credentials 1000).
Proof.
  intros w. exists (new_metadata 5000), w. split; [reflexivity|].
  intros w'. repeat split; reflexivity.
Defined.

(** The first caller starts, takes the lock and invokes [_refresh_using];
  the second starts meanwhile and waits for the lock; the refresh
  completes; the second gets the lock and finds the object refreshed. *)
Lemma single_flight_refresh_witness :
  run_schedule (clock_at 500) (refresh_returns (new_metadata 5000))
    [0; 0; 1; 0; 1]%nat two_callers
  = Some ([Finished (Ok (Some new_frozen)); Finished (Ok (Some new_frozen))],
          mkState (freeze (_set_from_data (new_metadata 5000) (demo_credentials 1000)))
            tt false 1)
  /\ (1 <= 1)%nat /\ (5 <= 3 * 2)%nat.
Proof.
  assert (Hrun : run_schedule (clock_at 500) (refresh_returns (new_metadata 5000))
                   [0; 0; 1; 0; 1]%nat two_callers
                 = Some ([Finished (Ok (Some new_frozen));
                          Finished (Ok (Some new_frozen))],
                         mkState (freeze (_set_from_data (new_metadata 5000)
                                            (demo_credentials 1000))) tt false 1))
    by reflexivity.
  split; [exact Hrun|].
  destruct (single_flight_refresh (clock_at 500) (refresh_returns (new_metadata 5000))
              (demo_credentials 1000) demo_stays_stale demo_refresh_succeeds
              2 tt [0; 0; 1; 0; 1]%nat _ _ Hrun) as (Hcalls & Hlen & _).
  split; [exact Hcalls|exact Hlen].
Defined.

(** C5 as stated fails: past the mandatory window, two callers, and
  [_refresh_using] is invoked twice.  Once because the refresh the first
  caller performs raises, so the second caller, having waited for the lock,
  still finds the object stale and refreshes again; once because the
  refresh returns credentials that are still inside the mandatory window
  (550 seconds before their expiry); and once because it returns
  credentials inside the advisory window (700 seconds before their
  expiry) and the second caller starts after the first has finished. *)
Lemma stale_after_refresh_is_refreshed_again :
  stays_stale (clock_at 500) (demo_credentials 1000)
  /\ run_schedule (clock_at 500) refresh_raises [0; 0; 1; 0; 1; 1]%nat two_callers
     = Some ([Finished (Raise (CredentialRetrievalError "assume-role" "connection reset"));
              Finished (Raise (CredentialRetrievalError "assume-role" "connection reset"))],
             mkState (demo_credentials 1000) tt false 2)
  /\ run_schedule (clock_at 500) (refresh_returns (new_metadata 1050))
       [0; 0; 1; 0; 1; 1]%nat two_callers
     = Some ([Finished (Ok (Some new_frozen)); Finished (Ok (Some new_frozen))],
             mkState (freeze (_set_from_data (new_metadata 1050) (demo_credentials 1000)))
               tt false 2)
  /\ run_schedule (clock_at 500) (refresh_returns (new_metadata 1200))
       [0; 0; 0; 1; 1; 1]%nat two_callers
     = Some ([Finished (Ok (Some new_frozen)); Finished (Ok (Some new_frozen))],
             mkState (freeze (_set_from_data (new_metadata 1200) (demo_credentials 1000)))
               tt false 2).
Proof. split; [exact demo_stays_stale|]. repeat split; reflexivity. Qed.

End Refresh.

(** ** [AioCachedCredentialFetcher] *)

Module Fetcher.

(** An [Expiration] as it sits in a response: a [datetime] when the
  response comes from the service, a string when it comes from a cache
  that stores JSON. *)
Inductive timestamp : Type :=
| DateTime (t : Z)
| TimeString (s : string).

#[global] Instance timestamp_eq_dec : EqDecision timestamp.
Proof. solve_decision. Defined.

(** The raw response of the role-assumption call: [response['Credentials']]
  with its four entries. *)
Record StsCredentials : Type := mkStsCredentials {
AccessKeyId : string;
SecretAccessKey : string;
SessionToken : string;
Expiration : timestamp;
}.

Record AssumeRoleResponse : Type := mkResponse {
Credentials : StsCredentials;
}.

#[global] Instance StsCredentials_eq_dec : EqDecision StsCredentials.
Proof. solve_decision. Defined.
#[global] Instance AssumeRoleResponse_eq_dec : EqDecision AssumeRoleResponse.
Proof. solve_decision. Defined.

(** The dict [fetch_credentials] returns. *)
Record FetchedMetadata : Type := mkFetched {
access_key : string;
secret_key : string;
token : string;
expiry_time : string;
}.

#[global] Instance FetchedMetadata_eq_dec : EqDecision FetchedMetadata.
Proof. solve_decision. Defined.

(** What a fetcher object holds for the cache: the key derived from its
  configuration and the expiry window. *)
Record CachedCredentialFetcher : Type := mkFetcher {
_cache_key : string;
_expiry_window_seconds : Z;
}.

Section Cached.
(** The world behind the clock and the role-assumption call, the clock
  [_local_now], the provider-specific [_get_credentials] of the subclass,
  and the two conversions between instants and ISO-8601 strings. *)
Context {W : Type}.
Variable _local_now : W -> Z * W.
Variable _get_credentials : W -> result AssumeRoleResponse * W.
Variable isoformat : Z -> string.
Variable parse : string -> result Z.

(** The cache (shared, mutable), the world, and the number of calls of
  [_get_credentials] so far. *)
Record St : Type := mkSt {
cache : gmap string AssumeRoleResponse;
world : W;
calls : nat;
}.

Definition local_now : M St Z :=
fun s => let '(now, w) := _local_now (world s) in
         (Ok now, {| cache := cache s; world := w; calls := calls s |}).

(** [await self._get_credentials()] *)
Definition await_get_credentials : M St AssumeRoleResponse :=
fun s => let '(r, w) := _get_credentials (world s) in
         (r, {| cache := cache s; world := w; calls := S (calls s) |}).

(** Modelled from the spec: botocore's [_parse_if_needed] and
  [_serialize_if_needed], the conversions of an expiry between instant
  and ISO-8601 string. *)
Definition _parse_if_needed (value : timestamp) : result Z :=
match value with
| DateTime t => Ok t
| TimeString s => parse s
end.

Definition _serialize_if_needed (value : timestamp) : string :=
match value with
| DateTime t => isoformat t
| TimeString s => s
end.

(** Modelled from the spec: [_is_expired] of botocore's
  [CachedCredentialFetcher]: a cached record is expired once fewer than
  [_expiry_window_seconds] remain before its expiry. *)
Definition _is_expired (self : CachedCredentialFetcher)
  (credentials : AssumeRoleResponse) : M St bool :=
match _parse_if_needed (Expiration (Credentials credentials)) with
| Raise e => raise e
| Ok end_time =>
    let* now := local_now in
    ret (Z.ltb (end_time - now) (_expiry_window_seconds self))
end.

(** Modelled from the spec: [_load_from_cache] of botocore's
  [CachedCredentialFetcher]: the record under the fetcher's key, unless
  there is none or it is expired. *)
Definition _load_from_cache (self : CachedCredentialFetcher)
  : M St (option AssumeRoleResponse) :=
let* s := get in
match cache s !! _cache_key self with
| Some creds =>
    let* expired := _is_expired self creds in
    if (expired : bool) then ret None else ret (Some creds)
| None => ret None
end.

(** Modelled from the spec: [_write_to_cache] of botocore's
  [CachedCredentialFetcher]: the record is stored under the fetcher's
  key. *)
Definition _write_to_cache (self : CachedCredentialFetcher)
  (response : AssumeRoleResponse) : M St unit :=
modify (fun s => {| cache := <[_cache_key self := response]> (cache s);
                    world := world s; calls := calls s |}).

(** [AioCachedCredentialFetcher._get_cached_credentials] *)
Definition _get_cached_credentials (self : CachedCredentialFetcher)
  : M St FetchedMetadata :=
let* cached := _load_from_cache self in
let* response :=
  match cached with
  | None =>
      let* response := await_get_credentials in
      let* _ := _write_to_cache self response in
      ret response
  | Some response =>
      (* Credentials for role retrieved from cache. *)
      ret response
  end in
let creds := Credentials response in
let expiration := _serialize_if_needed (Expiration creds) in
ret {| access_key := AccessKeyId creds;
       secret_key := SecretAccessKey creds;
       token := SessionToken creds;
       expiry_time := expiration |}.

(** [AioCachedCredentialFetcher.fetch_credentials] *)
Definition fetch_credentials (self : CachedCredentialFetcher) : M St FetchedMetadata :=
_get_cached_credentials self.

(** [_load_from_cache] changes neither the cache nor the call count. *)
Lemma load_from_cache_frame (self : CachedCredentialFetcher) (s s' : St)
  (r : result (option AssumeRoleResponse)) :
  _load_from_cache self s = (r, s') ->
  cache s' = cache s /\ calls s' = calls s.
Proof.
  unfold _load_from_cache, bind, get.
  destruct (cache s !! _cache_key self) as [creds|]; [|by intros [= <- <-]].
  unfold _is_expired.
  destruct (_parse_if_needed _) as [end_time|e]; [|by intros [= <- <-]].
  unfold bind, local_now, ret.
  destruct (_local_now (world s)) as [now w].
  destruct (Z.ltb _ _); by intros [= <- <-].
Qed.

(** A hit: the record is there and at least the window remains. *)
Lemma load_from_cache_hit (self : CachedCredentialFetcher) (s : St)
  (response : AssumeRoleResponse) (end_time now : Z) (w : W) :
  cache s !! _cache_key self = Some response ->
  _parse_if_needed (Expiration (Credentials response)) = Ok end_time ->
  _local_now (world s) = (now, w) ->
  _expiry_window_seconds self <= end_time - now ->
  _load_from_cache self s = (Ok (Some response), mkSt (cache s) w (calls s)).
Proof.
  intros Hc Hp Hn Hw.
  unfold _load_from_cache, bind, get. rewrite Hc.
  unfold _is_expired. rewrite Hp.
  unfold bind, local_now, ret. rewrite Hn.
  destruct (Z.ltb_spec (end_time - now) (_expiry_window_seconds self)); [lia|done].
Qed.

Definition normalized (response : AssumeRoleResponse) : FetchedMetadata :=
{| access_key := AccessKeyId (Credentials response);
   secret_key := SecretAccessKey (Credentials response);
   token := SessionToken (Credentials response);
   expiry_time := _serialize_if_needed (Expiration (Credentials response)) |}.

Lemma fetch_credentials_hit (self : CachedCredentialFetcher) (s : St)
  (response : AssumeRoleResponse) (end_time now : Z) (w : W) :
  cache s !! _cache_key self = Some response ->
  _parse_if_needed (Expiration (Credentials response)) = Ok end_time ->
  _local_now (world s) = (now, w) ->
  _expiry_window_seconds self <= end_time - now ->
  fetch_credentials self s = (Ok (normalized response), mkSt (cache s) w (calls s)).
Proof.
  intros Hc Hp Hn Hw.
  unfold fetch_credentials, _get_cached_credentials, bind at 1.
  by rewrite (load_from_cache_hit self s response end_time now w Hc Hp Hn Hw).
Qed.

Lemma fetch_credentials_miss (self : CachedCredentialFetcher) (s s' : St)
  (response : AssumeRoleResponse) (w : W) :
  _load_from_cache self s = (Ok None, s') ->
  _get_credentials (world s') = (Ok response, w) ->
  fetch_credentials self s
  = (Ok (normalized response),
     mkSt (<[_cache_key self := response]> (cache s)) w (S (calls s))).
Proof.
  intros Hl Hg.
  destruct (load_from_cache_frame _ _ _ _ Hl) as [Hc Hn].
  unfold fetch_credentials, _get_cached_credentials, bind at 1. rewrite Hl.
  unfold bind, await_get_credentials, _write_to_cache, modify, ret.
  rewrite Hg; simpl. by rewrite Hc, Hn.
Qed.

(** C6. [fetch_credentials] consults the cache first.  On a hit with at
  least the expiry window remaining it returns the metadata normalized
  from the cached record, and [_get_credentials] is not called.  On a miss
  or an expired record ([_load_from_cache] gives [None]) it calls
  [_get_credentials] once, stores the raw response under the fetcher's key
  and returns the metadata normalized from it; a second fetch while the
  window still remains returns the same metadata with no further call. *)
Theorem fetch_credentials_consults_cache (self : CachedCredentialFetcher) :
  (forall s response end_time now w,
      cache s !! _cache_key self = Some response ->
      _parse_if_needed (Expiration (Credentials response)) = Ok end_time ->
      _local_now (world s) = (now, w) ->
      _expiry_window_seconds self <= end_time - now ->
      fetch_credentials self s
      = (Ok (normalized response), mkSt (cache s) w (calls s)))
  /\ (forall s s' response w1,
        _load_from_cache self s = (Ok None, s') ->
        _get_credentials (world s') = (Ok response, w1) ->
        let s1 := mkSt (<[_cache_key self := response]> (cache s)) w1 (S (calls s)) in
        fetch_credentials self s = (Ok (normalized response), s1)
        /\ (forall end_time now2 w2,
              _parse_if_needed (Expiration (Credentials response)) = Ok end_time ->
              _local_now w1 = (now2, w2) ->
              _expiry_window_seconds self <= end_time - now2 ->
              fetch_credentials self s1
              = (Ok (normalized response), mkSt (cache s1) w2 (S (calls s))))).
Proof.
  split.
  - intros. by eapply fetch_credentials_hit.
  - intros s s' response w1 Hl Hg s1. split.
    + by eapply fetch_credentials_miss.
    + intros end_time now2 w2 Hp Hn Hw.
      apply (fetch_credentials_hit self s1 response end_time now2 w2); auto.
      subst s1; simpl. apply lookup_insert_eq.
Qed.

End Cached.

(** A fetcher over a world that is the instant the clock shows; the role
  assumption answers with credentials valid until instant 4000. *)
Definition demo_fetcher : CachedCredentialFetcher :=
{| _cache_key := "3f2a9c"; _expiry_window_seconds := 15 * 60 |}.

Definition demo_response : AssumeRoleResponse :=
{| Credentials := {| AccessKeyId := "ASIAROLE"; SecretAccessKey := "SKROLE";
                     SessionToken := "TKROLE"; Expiration := DateTime 4000 |} |}.

Definition demo_local_now (w : Z) : Z * Z := (w, w).
Definition demo_get_credentials (w : Z) : result AssumeRoleResponse * Z :=
(Ok demo_response, w).
Definition demo_isoformat (t : Z) : string := "2099-01-01T00:00:00Z".
Definition demo_parse (s : string) : result Z := Raise (OtherError "not a timestamp").

Lemma fetch_credentials_consults_cache_witness :
  let fetch := fetch_credentials demo_local_now demo_get_credentials
                 demo_isoformat demo_parse demo_fetcher in
  let md := {| access_key := "ASIAROLE"; secret_key := "SKROLE";
               token := "TKROLE"; expiry_time := "2099-01-01T00:00:00Z" |} in
  fetch (mkSt ∅ 100 0%nat)
  = (Ok md, mkSt {[ "3f2a9c"%string := demo_response ]} 100 1%nat)
  /\ fetch (mkSt {[ "3f2a9c"%string := demo_response ]} 100 1%nat)
     = (Ok md, mkSt {[ "3f2a9c"%string := demo_response ]} 100 1%nat).
Proof.
  cbv zeta.
  destruct (fetch_credentials_consults_cache demo_local_now demo_get_credentials
              demo_isoformat demo_parse demo_fetcher) as [Hhit Hmiss].
  assert (Hload : _load_from_cache demo_local_now demo_parse demo_fetcher
                    (mkSt ∅ 100 0%nat) = (Ok None, mkSt ∅ 100 0%nat))
    by (vm_compute; reflexivity).
  destruct (Hmiss (mkSt ∅ 100 0%nat) (mkSt ∅ 100 0%nat) demo_response 100
              Hload eq_refl) as [Hfirst Hsecond].
  split.
  - exact Hfirst.
  - rewrite (Hhit (mkSt {[ "3f2a9c"%string := demo_response ]} 100 1%nat)
               demo_response 4000 100 100).
    + reflexivity.
    + vm_compute; reflexivity.
    + reflexivity.
    + reflexivity.
    + vm_compute. discriminate.
Defined.

End Fetcher.

(** ** The provider objects of the default chain *)

Module Providers.

(** One constructor per provider class of this module, with what
  [create_credential_resolver] and the profile-provider builder pass to the
  constructor.  Two provider objects are the same object exactly when they
  are equal here: the function creates each of them once. *)
Inductive Provider : Type :=
| AioEnvProvider
| AioContainerProvider
| AioInstanceMetadataProvider (timeout num_attempts : option Z) (user_agent : string)
| AioAssumeRoleProvider (profile_name : string)
| AioProcessProvider (profile_name : string)
| AioSharedCredentialProvider (profile_name : string) (creds_filename : option string)
| AioConfigProvider (profile_name : string) (config_filename : option string)
| AioAssumeRoleWithWebIdentityProvider (profile_name : string) (disable_env_vars : bool)
| AioOriginalEC2Provider
| AioBotoProvider.

#[global] Instance Provider_eq_dec : EqDecision Provider.
Proof. solve_decision. Defined.

(** Modelled from the spec: the [METHOD] and [CANONICAL_NAME] class
  attributes, which the provider classes inherit from botocore.  The source
  names ['assume-role'], the spec the canonical names. *)
Definition METHOD (provider : Provider) : string :=
match provider with
| AioEnvProvider => "env"
| AioContainerProvider => "container-role"
| AioInstanceMetadataProvider _ _ _ => "iam-role"
| AioAssumeRoleProvider _ => "assume-role"
| AioProcessProvider _ => "custom-process"
| AioSharedCredentialProvider _ _ => "shared-credentials-file"
| AioConfigProvider _ _ => "config-file"
| AioAssumeRoleWithWebIdentityProvider _ _ => "assume-role-with-web-identity"
| AioOriginalEC2Provider => "ec2-credentials-file"
| AioBotoProvider => "boto-config"
end.

Definition CANONICAL_NAME (provider : Provider) : option string :=
match provider with
| AioEnvProvider => Some "Environment"
| AioContainerProvider => Some "EcsContainer"
| AioInstanceMetadataProvider _ _ _ => Some "Ec2InstanceMetadata"
| AioSharedCredentialProvider _ _ => Some "SharedCredentials"
| AioConfigProvider _ _ => Some "SharedConfig"
| AioOriginalEC2Provider => Some "Ec2Config"
| AioBotoProvider => Some "Boto2Config"
| AioAssumeRoleProvider _
| AioProcessProvider _
| AioAssumeRoleWithWebIdentityProvider _ _ => None
end%string.

End Providers.

(** ** [AioCanonicalNameCredentialSourcer] *)

(** [str.lower], on ASCII letters. *)
Definition lower_ascii (c : ascii) : ascii :=
let n := nat_of_ascii c in
if (Nat.leb 65 n && Nat.leb n 90)%bool then ascii_of_nat (n + 32) else c.

Fixpoint lower (s : string) : string :=
match s with
| EmptyString => EmptyString
| String c s' => String (lower_ascii c) (lower s')
end.

Module Sourcer.
Section CanonicalName.
(** Providers with their two class attributes, and their [load]. *)
Context {Provider Credential World : Type}.
Variable load : Provider -> M World (option Credential).
Variable METHOD : Provider -> string.
Variable CANONICAL_NAME : Provider -> option string.

(** What [_get_provider] returns: a provider, or an
  [AioCredentialResolver] over some providers. *)
Inductive Source : Type :=
| AProvider (provider : Provider)
| AResolver (providers : list Provider).

(** Modelled from the spec: [_get_provider_by_canonical_name] of
  botocore's [CanonicalNameCredentialSourcer]: the first registered
  provider with that canonical name, letter case aside. *)
Definition _get_provider_by_canonical_name
  (self : list Provider) (canonical_name : string) : option Provider :=
List.find (fun provider =>
             match CANONICAL_NAME provider with
             | Some name => bool_decide (lower name = lower canonical_name)
             | None => false
             end) self.

(** Modelled from the spec: [_get_provider_by_method] of botocore's
  [CanonicalNameCredentialSourcer]: the first registered provider with
  that [METHOD]. *)
Definition _get_provider_by_method
  (self : list Provider) (method : string) : option Provider :=
List.find (fun provider => bool_decide (METHOD provider = method)) self.

(** [canonical_name.lower() in ['sharedconfig', 'sharedcredentials']] *)
Definition is_shared_name (canonical_name : string) : bool :=
bool_decide (lower canonical_name ∈ ["sharedconfig"; "sharedcredentials"]%string).

(** [AioCanonicalNameCredentialSourcer._get_provider]; [self] is the list
  of registered providers. *)
Definition _get_provider (self : list Provider) (canonical_name : string)
  : result Source :=
let provider := _get_provider_by_canonical_name self canonical_name in
let fall_through :=
  match provider with
  | None => Raise (UnknownCredentialError canonical_name)
  | Some provider => Ok (AProvider provider)
  end in
if is_shared_name canonical_name then
  let assume_role_provider := _get_provider_by_method self "assume-role" in
  match assume_role_provider with
  | Some assume_role_provider =>
      match provider with
      | None =>
          (* The AssumeRole provider could still be present: return it by
             itself. *)
          Ok (AProvider assume_role_provider)
      | Some provider =>
          (* If both are present, return them both as a resolver. *)
          Ok (AResolver [assume_role_provider; provider])
      end
  | None => fall_through
  end
else fall_through.

(** [AioCanonicalNameCredentialSourcer.source_credentials] *)
Definition source_credentials (self : list Provider) (source_name : string)
  : M (@Resolver.St Provider World) (option Credential) :=
match _get_provider self source_name with
| Raise e => raise e
| Ok (AResolver providers) => Resolver.load_credentials load providers
| Ok (AProvider source) => Resolver.await_load load source
end.

(** C9. Looking up a name of the shared family.  With both the named
  provider [p] and an assume-role provider [a] registered, the source is a
  resolver over [a] then [p], and sourcing loads through it: [a] first,
  [p] only if [a] has nothing.  With only [a] registered, [a] is used
  alone.  And for any name, when no provider carries it and it is not a
  shared name with an assume-role provider to fall back on, the lookup
  raises [UnknownCredentialError]. *)
Theorem shared_names_fold_in_assume_role (self : list Provider) (name : string) :
  (is_shared_name name = true ->
   forall a, _get_provider_by_method self "assume-role" = Some a ->
     (forall p, _get_provider_by_canonical_name self name = Some p ->
        _get_provider self name = Ok (AResolver [a; p])
        /\ source_credentials self name = Resolver.load_credentials load [a; p]
        /\ (forall w w' c log,
              load a w = (Ok (Some c), w') ->
              source_credentials self name (Resolver.mkSt w log)
              = (Ok (Some c), Resolver.mkSt w' (log ++ [a])))
        /\ (forall w w' w'' r log,
              load a w = (Ok None, w') ->
              load p w' = (Ok r, w'') ->
              source_credentials self name (Resolver.mkSt w log)
              = (Ok r, Resolver.mkSt w'' (log ++ [a; p]))))
     /\ (_get_provider_by_canonical_name self name = None ->
         _get_provider self name = Ok (AProvider a)
         /\ source_credentials self name = Resolver.await_load load a))
  /\ (_get_provider_by_canonical_name self name = None ->
      is_shared_name name = false
      \/ _get_provider_by_method self "assume-role" = None ->
      _get_provider self name = Raise (UnknownCredentialError name)
      /\ source_credentials self name = raise (UnknownCredentialError name)).
Proof.
  split.
  - intros Hshared a Ha. split.
    + intros p Hp.
      assert (Hg : _get_provider self name = Ok (AResolver [a; p])).
      { unfold _get_provider. by rewrite Hshared, Ha, Hp. }
      split; [exact Hg|]. unfold source_credentials. rewrite Hg.
      split; [done|]. split.
      * intros w w' c log Hl. simpl. unfold bind, Resolver.await_load; simpl.
        by rewrite Hl.
      * intros w w' w'' r log Hl Hl'. simpl.
        unfold bind, Resolver.await_load; simpl. rewrite Hl; simpl. rewrite Hl'.
        rewrite <- app_assoc. by destruct r.
    + intros Hp.
      assert (Hg : _get_provider self name = Ok (AProvider a)).
      { unfold _get_provider. by rewrite Hshared, Ha, Hp. }
      split; [exact Hg|]. unfold source_credentials. by rewrite Hg.
  - intros Hp Hno.
    assert (Hg : _get_provider self name = Raise (UnknownCredentialError name)).
    { unfold _get_provider. rewrite Hp.
      destruct Hno as [-> | ->]; [done|]. by destruct (is_shared_name name). }
    split; [exact Hg|]. unfold source_credentials. by rewrite Hg.
Qed.

End CanonicalName.

Import Providers.

(** A sourcer over a shared-config provider and an assume-role provider;
  only the shared-config file has credentials. *)
Definition demo_registered : list Provider :=
[AioEnvProvider; AioConfigProvider "dev" None; AioAssumeRoleProvider "dev"].

Definition demo_load (provider : Provider) : M unit (option string) :=
fun w => (Ok match provider with
             | AioConfigProvider _ _ => Some "AKCONFIG"%string
             | _ => None
             end, w).

Lemma shared_names_fold_in_assume_role_witness :
  _get_provider METHOD CANONICAL_NAME demo_registered "SharedConfig"
  = Ok (AResolver [AioAssumeRoleProvider "dev"; AioConfigProvider "dev" None])
  /\ source_credentials demo_load METHOD CANONICAL_NAME demo_registered "SharedConfig"
       (Resolver.mkSt tt [])
     = (Ok (Some "AKCONFIG"%string),
        Resolver.mkSt tt [AioAssumeRoleProvider "dev"; AioConfigProvider "dev" None])
  /\ _get_provider METHOD CANONICAL_NAME demo_registered "WebIdentity"
     = Raise (UnknownCredentialError "WebIdentity").
Proof.
  destruct (shared_names_fold_in_assume_role demo_load METHOD CANONICAL_NAME
              demo_registered "SharedConfig") as [Hshared _].
  destruct (Hshared eq_refl (AioAssumeRoleProvider "dev") eq_refl) as [Hboth _].
  destruct (Hboth (AioConfigProvider "dev" None) eq_refl) as (Hg & _ & _ & Hsecond).
  destruct (shared_names_fold_in_assume_role demo_load METHOD CANONICAL_NAME
              demo_registered "WebIdentity") as [_ Hunknown].
  split; [exact Hg|]. split.
  - exact (Hsecond tt tt tt (Some "AKCONFIG"%string) [] eq_refl eq_refl).
  - exact (proj1 (Hunknown eq_refl (or_introl eq_refl))).
Defined.

End Sourcer.

(** ** [create_credential_resolver] *)

Module DefaultChain.
Import Providers.

(** What [create_credential_resolver] reads from the session.
  [config_profile], [metadata_service_timeout] and
  [metadata_service_num_attempts] are the three
  [session.get_config_variable] reads the function starts with: a read
  returns the value, if any, or raises, as botocore's session does with
  [ProfileNotFound] when it has to look into the configuration of a
  profile that does not exist.  [instance_profile] is
  [session.instance_variables().get('profile')], set only when the caller
  named the profile explicitly. *)
Record Session : Type := mkSession {
config_profile : result (option string);
instance_profile : option string;
metadata_service_timeout : result (option Z);
metadata_service_num_attempts : result (option Z);
user_agent : string;
credentials_file : option string;
config_file : option string;
}.

(** [value or 'default'] *)
Definition or_default (value : option string) : string :=
match value with
| Some EmptyString | None => "default"
| Some name => name
end.

(** [list.remove(x)]: the first element equal to [x] goes; [ValueError]
  when there is none. *)
Fixpoint list_remove (x : Provider) (l : list Provider) : result (list Provider) :=
match l with
| [] => Raise (ValueError "list.remove(x): x not in list")
| y :: l' =>
    if decide (y = x) then Ok l'
    else match list_remove x l' with
         | Ok r => Ok (y :: r)
         | Raise e => Raise e
         end
end.

(** The four factory methods of [AioProfileProviderBuilder]. *)
Definition _create_process_provider (profile_name : string) : Provider :=
AioProcessProvider profile_name.

Definition _create_shared_credential_provider
  (session : Session) (profile_name : string) : Provider :=
AioSharedCredentialProvider profile_name (credentials_file session).

Definition _create_config_provider
  (session : Session) (profile_name : string) : Provider :=
AioConfigProvider profile_name (config_file session).

Definition _create_web_identity_provider
  (profile_name : string) (disable_env_vars : bool) : Provider :=
AioAssumeRoleWithWebIdentityProvider profile_name disable_env_vars.

(** Modelled from the spec: [providers] of botocore's
  [ProfileProviderBuilder], which [AioProfileProviderBuilder] inherits:
  the profile-derived providers in priority order, external process,
  shared-credentials file, shared-config file, web-identity assume-role. *)
Definition providers (session : Session) (profile_name : string)
  (disable_env_vars : bool) : list Provider :=
[_create_process_provider profile_name;
 _create_shared_credential_provider session profile_name;
 _create_config_provider session profile_name;
 _create_web_identity_provider profile_name disable_env_vars].

(** What the [AioAssumeRoleProvider] of the chain is constructed with,
  [load_config] aside: its profile, the providers registered with its
  [AioCanonicalNameCredentialSourcer], which are the very objects used in
  the chain, and the [providers] method of its profile-provider
  builder. *)
Record AssumeRoleProviderArguments : Type := mkArguments {
arg_profile_name : string;
arg_credential_sourcer : list Provider;
arg_profile_provider_builder : string -> bool -> list Provider;
}.

(** The [AioCredentialResolver] the function returns: its list of
  providers, and what the assume-role provider in that list holds. *)
Record AioCredentialResolver : Type := mkResolver {
resolver_providers : list Provider;
assume_role_provider_arguments : AssumeRoleProviderArguments;
}.

(** [create_credential_resolver] *)
Definition create_credential_resolver (session : Session)
  : result AioCredentialResolver :=
match config_profile session with
| Raise e => Raise e
| Ok profile =>
let profile_name := or_default profile in
match metadata_service_timeout session with
| Raise e => Raise e
| Ok metadata_timeout =>
match metadata_service_num_attempts session with
| Raise e => Raise e
| Ok num_attempts =>
let disable_env_vars := bool_decide (instance_profile session <> None) in
let env_provider := AioEnvProvider in
let container_provider := AioContainerProvider in
let instance_metadata_provider :=
  AioInstanceMetadataProvider metadata_timeout num_attempts (user_agent session) in
let assume_role_provider := AioAssumeRoleProvider profile_name in
let assume_role_provider_arguments :=
  {| arg_profile_name := profile_name;
     arg_credential_sourcer :=
       [env_provider; container_provider; instance_metadata_provider];
     arg_profile_provider_builder := providers session |} in
let pre_profile := [env_provider; assume_role_provider] in
let profile_providers := providers session profile_name disable_env_vars in
let post_profile :=
  [AioOriginalEC2Provider; AioBotoProvider; container_provider;
   instance_metadata_provider] in
let providers := pre_profile ++ profile_providers ++ post_profile in
match (if disable_env_vars then
         (* An explicitly provided profile will negate an EnvProvider. *)
         list_remove env_provider providers
       else Ok providers) with
| Raise e => Raise e
| Ok providers =>
    Ok {| resolver_providers := providers;
          assume_role_provider_arguments := assume_role_provider_arguments |}
end
end
end
end.

(** The chain without the environment provider. *)
Definition profile_chain (session : Session) (profile_name : string)
  (metadata_timeout num_attempts : option Z) (disable_env_vars : bool)
  : list Provider :=
AioAssumeRoleProvider profile_name
:: providers session profile_name disable_env_vars
++ [AioOriginalEC2Provider; AioBotoProvider; AioContainerProvider;
    AioInstanceMetadataProvider metadata_timeout num_attempts (user_agent session)].

(** The providers registered with the credential sourcer of the
  assume-role provider. *)
Definition sourcer_providers (session : Session)
  (metadata_timeout num_attempts : option Z) : list Provider :=
[AioEnvProvider; AioContainerProvider;
 AioInstanceMetadataProvider metadata_timeout num_attempts (user_agent session)].

Lemma env_provider_not_in_profile_chain (session : Session) (profile_name : string)
  (metadata_timeout num_attempts : option Z) (b : bool) :
  AioEnvProvider ∉ profile_chain session profile_name metadata_timeout num_attempts b.
Proof.
  unfold profile_chain, providers. simpl.
  rewrite !not_elem_of_cons. repeat split; try discriminate.
  apply not_elem_of_nil.
Qed.

(** What the function builds, by whether the profile was named
  explicitly. *)
Lemma create_credential_resolver_by_profile (session : Session)
  (profile : option string) (metadata_timeout num_attempts : option Z) :
  config_profile session = Ok profile ->
  metadata_service_timeout session = Ok metadata_timeout ->
  metadata_service_num_attempts session = Ok num_attempts ->
  let profile_name := or_default profile in
  let arguments :=
    {| arg_profile_name := profile_name;
       arg_credential_sourcer := sourcer_providers session metadata_timeout num_attempts;
       arg_profile_provider_builder := providers session |} in
  let chain := profile_chain session profile_name metadata_timeout num_attempts in
  create_credential_resolver session
  = Ok {| resolver_providers :=
            if bool_decide (instance_profile session <> None) then chain true
            else AioEnvProvider :: chain false;
          assume_role_provider_arguments := arguments |}.
Proof.
  intros Hp Ht Hn. cbv zeta. unfold create_credential_resolver.
  rewrite Hp, Ht, Hn.
  by destruct (bool_decide (instance_profile session <> None)).
Qed.

(** A failing read of the session is the failure of the function: no
  resolver is built. *)
Lemma create_credential_resolver_read_error (session : Session) (e : exn) :
  (config_profile session = Raise e ->
   create_credential_resolver session = Raise e)
  /\ (forall profile,
        config_profile session = Ok profile ->
        metadata_service_timeout session = Raise e ->
        create_credential_resolver session = Raise e)
  /\ (forall profile metadata_timeout,
        config_profile session = Ok profile ->
        metadata_service_timeout session = Ok metadata_timeout ->
        metadata_service_num_attempts session = Raise e ->
        create_credential_resolver session = Raise e).
Proof.
  unfold create_credential_resolver. split; [|split].
  - by intros ->.
  - by intros profile -> ->.
  - by intros profile metadata_timeout -> -> ->.
Qed.

(** A session whose caller named the profile ["dev"], in an environment
  that also holds access keys: only the environment provider has
  credentials. *)
Definition explicit_session : Session :=
{| config_profile := Ok (Some "dev"%string); instance_profile := Some "dev"%string;
   metadata_service_timeout := Ok (Some 1);
   metadata_service_num_attempts := Ok (Some 1);
   user_agent := "aiobotocore"; credentials_file := Some "~/.aws/credentials"%string;
   config_file := Some "~/.aws/config"%string |}.

Definition ambient_session : Session :=
{| config_profile := Ok None; instance_profile := None;
   metadata_service_timeout := Ok (Some 1);
   metadata_service_num_attempts := Ok (Some 1);
   user_agent := "aiobotocore"; credentials_file := Some "~/.aws/credentials"%string;
   config_file := Some "~/.aws/config"%string |}.

(** A session whose caller named a profile the configuration does not
  have: the first read that looks into the configuration raises. *)
Definition missing_profile_session : Session :=
{| config_profile := Ok (Some "nope"%string); instance_profile := Some "nope"%string;
   metadata_service_timeout := Raise (ProfileNotFound "nope");
   metadata_service_num_attempts := Raise (ProfileNotFound "nope");
   user_agent := "aiobotocore"; credentials_file := Some "~/.aws/credentials"%string;
   config_file := Some "~/.aws/config"%string |}.

Lemma create_credential_resolver_profile_not_found :
  create_credential_resolver missing_profile_session
  = Raise (ProfileNotFound "nope").
Proof.
  exact (proj1 (proj2 (create_credential_resolver_read_error
                         missing_profile_session (ProfileNotFound "nope")))
           (Some "nope"%string) eq_refl eq_refl).
Qed.

Definition env_only_load (provider : Provider) : M unit (option string) :=
fun w => (Ok match provider with
             | AioEnvProvider => Some "AKENV"%string
             | _ => None
             end, w).

(** C7 as stated fails.  The caller names the profile ["dev"]; the
  environment holds credentials and would supply them; every provider of
  the chain, the profile-aware ones included, returns nothing.  The
  environment does not win: the chain returns [None] and the environment
  provider is not asked. *)
Lemma explicit_profile_environment_never_wins :
  instance_profile explicit_session <> None
  /\ env_only_load AioEnvProvider tt = (Ok (Some "AKENV"%string), tt)
  /\ (forall p, p ∈ profile_chain explicit_session "dev" (Some 1) (Some 1) true ->
        env_only_load p tt = (Ok None, tt))
  /\ exists resolver,
      create_credential_resolver explicit_session = Ok resolver
      /\ resolver_providers resolver
         = profile_chain explicit_session "dev" (Some 1) (Some 1) true
      /\ Resolver.load_credentials env_only_load (resolver_providers resolver)
           (Resolver.mkSt tt [])
         = (Ok None, Resolver.mkSt tt (resolver_providers resolver))
      /\ ((Resolver.load_credentials env_only_load (resolver_providers resolver)
             (Resolver.mkSt tt [])).1)
         <> Ok (Some "AKENV"%string).
Proof.
  split; [discriminate|]. split; [reflexivity|]. split.
  - intros p Hp. destruct p; try reflexivity.
    by apply env_provider_not_in_profile_chain in Hp.
  - eexists. split; [reflexivity|]. split; [reflexivity|].
    split; [reflexivity|]. discriminate.
Qed.

End DefaultChain.

(** ** [AioAssumeRoleProvider] and [AioAssumeRoleCredentialFetcher] *)

Module AssumeRole.
Import Providers.

(** The double quote of the error messages. *)
Definition dquote : string := String (ascii_of_nat 34) EmptyString.

(** The configuration: [load_config()] gives a dict whose ['profiles']
  entry maps a profile name to its settings. *)
Abbreviation Profile := (gmap string string).

Record FullConfig : Type := mkConfig {
profiles : option (gmap string Profile);
}.

(** The values of [extra_args]: strings, and the integer of
  [DurationSeconds]. *)
Inductive arg : Type :=
| AStr (s : string)
| AInt (n : Z).

#[global] Instance arg_eq_dec : EqDecision arg.
Proof. solve_decision. Defined.

(** What [_get_role_config] returns. *)
Record RoleConfig : Type := mkRoleConfig {
rc_role_arn : string;
rc_external_id : option string;
rc_mfa_serial : option string;
rc_role_session_name : option string;
rc_source_profile : option string;
rc_credential_source : option string;
rc_duration_seconds : option Z;
}.

(** Modelled from the spec: Python's [int(text)] on a string of ASCII
  characters, which botocore's [_get_role_config] applies to
  [duration_seconds]: blanks around the number are skipped, then comes an
  optional sign, then decimal digits, between which single underscores
  may stand.  [None] stands for [ValueError]. *)
Definition is_blank (c : ascii) : bool :=
let n := nat_of_ascii c in
((Nat.leb 9 n && Nat.leb n 13) || (Nat.leb 28 n && Nat.leb n 32))%bool.

Fixpoint lstrip (text : list ascii) : list ascii :=
match text with
| c :: text' => if is_blank c then lstrip text' else text
| [] => []
end.

Definition strip (text : list ascii) : list ascii :=
rev (lstrip (rev (lstrip text))).

Definition digit_value (c : ascii) : option Z :=
let n := nat_of_ascii c in
if (Nat.leb 48 n && Nat.leb n 57)%bool then Some (Z.of_nat (n - 48)) else None.

Fixpoint digits (text : list ascii) (value : Z) (after_digit : bool) : option Z :=
match text with
| [] => if after_digit then Some value else None
| c :: text' =>
    match digit_value c with
    | Some d => digits text' (10 * value + d) true
    | None =>
        if (Ascii.eqb c "_"%char && after_digit)%bool then digits text' value false
        else None
    end
end.

Definition int (text : string) : option Z :=
match strip (list_ascii_of_string text) with
| c :: text' =>
    if Ascii.eqb c "-"%char then Z.opp <$> digits text' 0 false
    else if Ascii.eqb c "+"%char then digits text' 0 false
    else digits (c :: text') 0 false
| [] => None
end.

Section Provider.
(** The credentials other providers load, the world behind them, the
  [load] of those providers, and the frozen accessor of the credentials
  they load. *)
Context {Credential World : Type}.
Variable provider_load : Provider -> M World (option Credential).
Variable loaded_get_frozen_credentials : Credential -> M World ReadOnlyCredentials.

(** What ends up as [source_credentials] of a fetcher: an
  [AioCredentials] built from a profile's static keys, a credential
  object loaded by a provider chain or by the credential sourcer, or a
  coroutine object, which is what calling an [async def] without [await]
  evaluates to. *)
Inductive SourceCredentials : Type :=
| AnAioCredentials (access_key secret_key : string) (token : option string)
| Loaded (credentials : Credential)
| ACoroutine_load_creds_via_assume_role (profile_name : string).

(** [AioAssumeRoleCredentialFetcher(client_creator, source_credentials,
  role_arn, extra_args, mfa_prompter, cache)] *)
Record AioAssumeRoleCredentialFetcher : Type := mkFetcher {
source_credentials : SourceCredentials;
role_arn : string;
extra_args : gmap string arg;
}.

(** The refresher of the deferred credential: [fetcher.fetch_credentials],
  wrapped by [create_aio_mfa_serial_refresher] when an MFA serial is
  configured. *)
Inductive Refresher : Type :=
| fetch_credentials_of (fetcher : AioAssumeRoleCredentialFetcher)
| create_aio_mfa_serial_refresher (actual_refresh : Refresher).

(** [AioDeferredRefreshableCredentials(method, refresh_using, time_fetcher)] *)
Record AioDeferredRefreshableCredentials : Type := mkDeferred {
method : string;
refresh_using : Refresher;
}.

(** The provider object: what its constructor received and the two
  attributes it mutates, over the state of the chains it loads through. *)
Record St : Type := mkSt {
_loaded_config : FullConfig;
_visited_profiles : list string;
chain : @Resolver.St Provider World;
}.

Record AioAssumeRoleProvider : Type := mkProvider {
_load_config : FullConfig;
_profile_name : string;
_credential_sourcer : list Provider;
_profile_provider_builder : option (string -> bool -> list Provider);
}.

Definition through_resolver {A} (m : M (@Resolver.St Provider World) A) : M St A :=
fun s => let '(r, c) := m (chain s) in
         (r, {| _loaded_config := _loaded_config s;
                _visited_profiles := _visited_profiles s; chain := c |}).

(** [self._loaded_config.get('profiles', {})] *)
Definition loaded_profiles : M St (gmap string Profile) :=
fun s => (Ok (default ∅ (profiles (_loaded_config s))), s).

(** [profiles[profile_name]] *)
Definition getitem (ps : gmap string Profile) (profile_name : string) : M St Profile :=
match ps !! profile_name with
| Some profile => ret profile
| None => raise (KeyError profile_name)
end.

(** Modelled from the spec: [_has_static_credentials] of botocore's
  [AssumeRoleProvider]: the profile has static keys.  One of the two is
  enough for the answer; a profile with only one is what
  [_resolve_static_credentials_from_profile] reports as partial. *)
Definition _has_static_credentials (profile : Profile) : bool :=
bool_decide (is_Some (profile !! "aws_access_key_id"))
|| bool_decide (is_Some (profile !! "aws_secret_access_key")).

(** Modelled from the spec: [_has_assume_role_config_vars] of botocore's
  [AssumeRoleProvider]: the profile contains the role-assumption keys,
  [role_arn] plus either [source_profile] or [credential_source]. *)
Definition _has_assume_role_config_vars (profile : Profile) : bool :=
bool_decide (is_Some (profile !! "role_arn"))
&& (bool_decide (is_Some (profile !! "source_profile"))
    || bool_decide (is_Some (profile !! "credential_source"))).

(** Modelled from the spec: [_get_role_config] of botocore's
  [AssumeRoleProvider]: the role-assumption settings of a profile.  A
  profile without [role_arn], or with neither [source_profile] nor
  [credential_source], misses a required field: [InvalidConfigError].  The
  duration, when configured, is converted with [int]; a value that is not
  a number is dropped. *)
Definition _get_role_config (profile_name : string) : M St RoleConfig :=
let* ps := loaded_profiles in
let* profile := getitem ps profile_name in
match profile !! "role_arn" with
| None => raise (InvalidConfigError "role_arn")
| Some arn =>
    if bool_decide (profile !! "source_profile" = None)
       && bool_decide (profile !! "credential_source" = None)
    then raise (InvalidConfigError "source_profile or credential_source")
    else
    ret {| rc_role_arn := arn;
           rc_external_id := profile !! "external_id";
           rc_mfa_serial := profile !! "mfa_serial";
           rc_role_session_name := profile !! "role_session_name";
           rc_source_profile := profile !! "source_profile";
           rc_credential_source := profile !! "credential_source";
           rc_duration_seconds := profile !! "duration_seconds" ≫= int |}
end.

(** [AioAssumeRoleProvider._resolve_static_credentials_from_profile] *)
Definition _resolve_static_credentials_from_profile (profile : Profile)
  : M St SourceCredentials :=
match profile !! "aws_access_key_id", profile !! "aws_secret_access_key" with
| Some access_key, Some secret_key =>
    ret (AnAioCredentials access_key secret_key (profile !! "aws_session_token"))
| None, _ => raise (PartialCredentialsError "assume-role" "'aws_access_key_id'")
| _, None => raise (PartialCredentialsError "assume-role" "'aws_secret_access_key'")
end.

(** [AioAssumeRoleProvider._resolve_credentials_from_profile].  Its last
  line is [return self._load_creds_via_assume_role(profile_name)], with no
  [await]: what is returned is the coroutine object of that call, and the
  call itself does not run. *)
Definition _resolve_credentials_from_profile
  (self : AioAssumeRoleProvider) (profile_name : string) : M St SourceCredentials :=
let* ps := loaded_profiles in
let* profile := getitem ps profile_name in
if _has_static_credentials profile
   && negb (bool_decide (is_Some (_profile_provider_builder self)))
then _resolve_static_credentials_from_profile profile
else if _has_static_credentials profile
        || negb (_has_assume_role_config_vars profile)
then
  match _profile_provider_builder self with
  | None =>
      (* [self._profile_provider_builder.providers] on [None] *)
      raise (AttributeError "'NoneType' object has no attribute 'providers'")
  | Some builder =>
      let profile_providers := builder profile_name true in
      let* credentials :=
        through_resolver (Resolver.load_credentials provider_load profile_providers) in
      match credentials with
      | None =>
          raise (InvalidConfigError
                   ("The source profile " ++ dquote ++ profile_name ++ dquote
                    ++ " must have credentials."))
      | Some credentials => ret (Loaded credentials)
      end
  end
else ret (ACoroutine_load_creds_via_assume_role profile_name).

(** [AioAssumeRoleProvider._resolve_credentials_from_source] *)
Definition _resolve_credentials_from_source
  (self : AioAssumeRoleProvider) (credential_source profile_name : string)
  : M St SourceCredentials :=
let* credentials :=
  through_resolver
    (Sourcer.source_credentials provider_load METHOD CANONICAL_NAME
       (_credential_sourcer self) credential_source) in
match credentials with
| None =>
    raise (CredentialRetrievalError credential_source
             ("No credentials found in credential_source referenced in profile "
              ++ profile_name))
| Some credentials => ret (Loaded credentials)
end.

(** [self._visited_profiles.append(source_profile)] *)
Definition visit (source_profile : string) : M St unit :=
modify (fun s => {| _loaded_config := _loaded_config s;
                    _visited_profiles := _visited_profiles s ++ [source_profile];
                    chain := chain s |}).

(** [AioAssumeRoleProvider._resolve_source_credentials] *)
Definition _resolve_source_credentials
  (self : AioAssumeRoleProvider) (role_config : RoleConfig) (profile_name : string)
  : M St SourceCredentials :=
match rc_credential_source role_config with
| Some credential_source =>
    _resolve_credentials_from_source self credential_source profile_name
| None =>
    match rc_source_profile role_config with
    | None =>
        (* [profiles[None]]; [_get_role_config] has excluded it *)
        raise (KeyError "None")
    | Some source_profile =>
        let* _ := visit source_profile in
        _resolve_credentials_from_profile self source_profile
    end
end.

(** [extra_args[key] = value] when the value is configured. *)
Definition set_if_present (key : string) (value : option arg)
  (extra_args : gmap string arg) : gmap string arg :=
match value with
| Some v => <[key := v]> extra_args
| None => extra_args
end.

(** [AioAssumeRoleProvider._load_creds_via_assume_role] *)
Definition _load_creds_via_assume_role
  (self : AioAssumeRoleProvider) (profile_name : string)
  : M St AioDeferredRefreshableCredentials :=
let* role_config := _get_role_config profile_name in
let* source_credentials := _resolve_source_credentials self role_config profile_name in
let extra_args :=
  set_if_present "DurationSeconds" (AInt <$> rc_duration_seconds role_config)
    (set_if_present "SerialNumber" (AStr <$> rc_mfa_serial role_config)
       (set_if_present "ExternalId" (AStr <$> rc_external_id role_config)
          (set_if_present "RoleSessionName" (AStr <$> rc_role_session_name role_config)
             ∅))) in
let fetcher :=
  {| source_credentials := source_credentials;
     role_arn := rc_role_arn role_config;
     extra_args := extra_args |} in
let refresher := fetch_credentials_of fetcher in
let refresher :=
  match rc_mfa_serial role_config with
  | Some _ => create_aio_mfa_serial_refresher refresher
  | None => refresher
  end in
(* The initial credentials are empty so that we can delay the call to
   assume role until it is strictly needed. *)
ret {| method := "assume-role"; refresh_using := refresher |}.

(** [AioAssumeRoleProvider.load] *)
Definition load (self : AioAssumeRoleProvider)
  : M St (option AioDeferredRefreshableCredentials) :=
let* _ := modify (fun s => {| _loaded_config := _load_config self;
                              _visited_profiles := _visited_profiles s;
                              chain := chain s |}) in
let* ps := loaded_profiles in
let profile := default ∅ (ps !! _profile_name self) in
if _has_assume_role_config_vars profile then
  let* credentials := _load_creds_via_assume_role self (_profile_name self) in
  ret (Some credentials)
else ret None.

(** [await self._source_credentials.get_frozen_credentials()]: the method
  of [AioCredentials], of a loaded credential, or an attribute a coroutine
  object does not have. *)
Definition source_get_frozen_credentials (source : SourceCredentials)
  : M World ReadOnlyCredentials :=
match source with
| AnAioCredentials access_key secret_key token =>
    ret (mkReadOnly (Some access_key) (Some secret_key) token)
| Loaded credentials => loaded_get_frozen_credentials credentials
| ACoroutine_load_creds_via_assume_role _ =>
    raise (AttributeError
             "'coroutine' object has no attribute 'get_frozen_credentials'")
end.

(** [AioAssumeRoleCredentialFetcher._create_client]: the client is what
  [client_creator] was called with. *)
Definition _create_client (self : AioAssumeRoleCredentialFetcher)
  : M World (string * ReadOnlyCredentials) :=
let* frozen_credentials := source_get_frozen_credentials (source_credentials self) in
ret ("sts"%string, frozen_credentials).

End Provider.

(** *** A chain of two role assumptions

  Profile [A] assumes a role with the credentials of [B], which assumes a
  role with the static keys of [C]. *)
Definition chained_config : FullConfig :=
{| profiles := Some (list_to_map
     [("A", list_to_map [("role_arn", "arn:aws:iam::1:role/X");
                         ("source_profile", "B")]);
      ("B", list_to_map [("role_arn", "arn:aws:iam::1:role/Y");
                         ("source_profile", "C")]);
      ("C", list_to_map [("aws_access_key_id", "AKC");
                         ("aws_secret_access_key", "SKC")])]%string) |}.

(** The spec's scenario: [A] assumes a role with the static keys of [B]. *)
Definition single_hop_config : FullConfig :=
{| profiles := Some (list_to_map
     [("A", list_to_map [("role_arn", "arn:aws:iam::1:role/X");
                         ("source_profile", "B")]);
      ("B", list_to_map [("aws_access_key_id", "AKB");
                         ("aws_secret_access_key", "SKB")])]%string) |}.

(** No other provider has credentials; the world is trivial. *)
Definition no_load (provider : Provider) : M unit (option ReadOnlyCredentials) :=
fun w => (Ok None, w).

Definition frozen_as_is (credentials : ReadOnlyCredentials)
  : M unit ReadOnlyCredentials :=
ret credentials.

(** The provider as [create_credential_resolver] builds it, with the
  profile-provider builder, and as a caller without a builder would. *)
Definition provider_with_builder (config : FullConfig) : AioAssumeRoleProvider :=
{| _load_config := config;
   _profile_name := "A";
   _credential_sourcer :=
     [AioEnvProvider; AioContainerProvider;
      AioInstanceMetadataProvider (Some 1) (Some 1) "aiobotocore"];
   _profile_provider_builder :=
     Some (DefaultChain.providers DefaultChain.explicit_session) |}.

Definition provider_without_builder (config : FullConfig) : AioAssumeRoleProvider :=
{| _load_config := config;
   _profile_name := "A";
   _credential_sourcer := [];
   _profile_provider_builder := None |}.

Definition fresh_state : @St unit :=
{| _loaded_config := {| profiles := None |};
   _visited_profiles := [];
   chain := Resolver.mkSt tt [] |}.

(** The fetcher [load] builds for [A] in the chained configuration. *)
Definition chained_fetcher : @AioAssumeRoleCredentialFetcher ReadOnlyCredentials :=
{| source_credentials := ACoroutine_load_creds_via_assume_role "B";
   role_arn := "arn:aws:iam::1:role/X";
   extra_args := ∅ |}.

(** C8, at the chained configuration.  Resolving [A] does not resolve
  [B]: the source credentials bound into the fetcher of [A] are the
  coroutine object of [_load_creds_via_assume_role("B")], no provider has
  been asked and [C] has not been visited; the first use of the deferred
  credential fails in [_create_client] with [AttributeError].  In the
  single-hop configuration and without a builder, the static keys of [B]
  are bound directly. *)
Theorem chained_source_profile_is_a_coroutine :
  load no_load (provider_with_builder chained_config) fresh_state
  = (Ok (Some {| method := "assume-role";
                 refresh_using := fetch_credentials_of chained_fetcher |}),
     {| _loaded_config := chained_config;
        _visited_profiles := ["B"%string];
        chain := Resolver.mkSt tt [] |})
  /\ _create_client frozen_as_is chained_fetcher tt
     = (Raise (AttributeError
                 "'coroutine' object has no attribute 'get_frozen_credentials'"),
        tt)
  /\ load no_load (provider_without_builder single_hop_config) fresh_state
     = (Ok (Some {| method := "assume-role";
                    refresh_using :=
                      fetch_credentials_of
                        {| source_credentials := AnAioCredentials "AKB" "SKB" None;
                           role_arn := "arn:aws:iam::1:role/X";
                           extra_args := ∅ |} |}),
        {| _loaded_config := single_hop_config;
           _visited_profiles := ["B"%string];
           chain := Resolver.mkSt tt [] |}).
Proof. split; [|split]; vm_compute; reflexivity. Qed.

End AssumeRole.

(** ** The default chain with an explicit profile *)

Module ExplicitProfile.
Import Providers DefaultChain AssumeRole.

(** The assume-role provider of the chain, from what
  [create_credential_resolver] constructs it with; [load_config] is
  [lambda: session.full_config]. *)
Definition assume_role_provider (full_config : FullConfig)
  (arguments : AssumeRoleProviderArguments) : AioAssumeRoleProvider :=
{| _load_config := full_config;
   _profile_name := arg_profile_name arguments;
   _credential_sourcer := arg_credential_sourcer arguments;
   _profile_provider_builder := Some (arg_profile_provider_builder arguments) |}.

(** The fetcher a refresher ends in, under the MFA wrapper if there is
  one. *)
Fixpoint fetcher_of {Credential : Type} (refresher : @Refresher Credential)
  : @AioAssumeRoleCredentialFetcher Credential :=
match refresher with
| fetch_credentials_of fetcher => fetcher
| create_aio_mfa_serial_refresher actual_refresh => fetcher_of actual_refresh
end.

(** The credential sourcer of the chain finds the environment provider
  under its canonical name. *)
Lemma sourcer_finds_env_provider (session : Session)
  (metadata_timeout num_attempts : option Z) :
  Sourcer._get_provider METHOD CANONICAL_NAME
    (sourcer_providers session metadata_timeout num_attempts) "Environment"
  = Ok (Sourcer.AProvider AioEnvProvider).
Proof. reflexivity. Qed.

(** The load of an assume-role provider on a profile whose role takes its
  source credentials from the environment: the environment provider is
  loaded, through the credential sourcer. *)
Lemma load_sources_from_environment {Credential World : Type}
  (provider_load : Provider -> M World (option Credential))
  (self : AioAssumeRoleProvider) (role : Profile) (arn : string)
  (s : @St World) (r : result (option Credential)) (w' : World) :
  Sourcer._get_provider METHOD CANONICAL_NAME (_credential_sourcer self) "Environment"
  = Ok (Sourcer.AProvider AioEnvProvider) ->
  default ∅ (profiles (_load_config self)) !! _profile_name self = Some role ->
  role !! "role_arn" = Some arn ->
  role !! "credential_source" = Some "Environment"%string ->
  role !! "source_profile" = None ->
  provider_load AioEnvProvider (Resolver.world (chain s)) = (r, w') ->
  exists outcome,
    load provider_load self s
    = (outcome,
       {| _loaded_config := _load_config self;
          _visited_profiles := _visited_profiles s;
          chain := Resolver.mkSt w' (Resolver.invoked (chain s) ++ [AioEnvProvider]) |})
    /\ match r with
       | Ok (Some credentials) =>
           exists deferred,
             outcome = Ok (Some deferred)
             /\ method deferred = "assume-role"%string
             /\ source_credentials (fetcher_of (refresh_using deferred))
                = Loaded credentials
             /\ role_arn (fetcher_of (refresh_using deferred)) = arn
       | Ok None =>
           outcome
           = Raise (CredentialRetrievalError "Environment"
                      ("No credentials found in credential_source referenced in profile "
                       ++ _profile_name self))
       | Raise e => outcome = Raise e
       end.
Proof.
  intros Hfind Hrole Harn Hsource Hnone Hload.
  unfold load, bind at 1, modify. unfold bind at 1, loaded_profiles.
  cbn [_loaded_config]. rewrite Hrole. cbn [default from_option]; unfold id.
  assert (Hvars : _has_assume_role_config_vars role = true).
  { unfold _has_assume_role_config_vars. rewrite Harn, Hsource.
    rewrite !bool_decide_eq_true_2 by by eexists.
    by rewrite orb_true_r. }
  rewrite Hvars. unfold bind at 1, _load_creds_via_assume_role.
  unfold bind at 1, _get_role_config, bind at 1, loaded_profiles.
  cbn [_loaded_config]. unfold bind at 1, getitem. rewrite Hrole. unfold ret at 1.
  rewrite Harn, Hsource, Hnone.
  rewrite (bool_decide_eq_false_2 (Some "Environment"%string = None)) by done.
  rewrite andb_false_r. unfold ret at 1.
  unfold bind at 1, _resolve_source_credentials. cbn [rc_credential_source].
  unfold _resolve_credentials_from_source, bind at 1, through_resolver.
  cbn [chain]. unfold Sourcer.source_credentials. rewrite Hfind.
  unfold Resolver.await_load. cbn [Resolver.world Resolver.invoked]. rewrite Hload.
  cbn [_loaded_config _visited_profiles].
  destruct r as [[credentials|]|e].
  - unfold ret. eexists. split; [reflexivity|].
    eexists. split; [reflexivity|].
    cbn [method refresh_using rc_mfa_serial rc_role_arn].
    by destruct (role !! "mfa_serial").
  - eexists. split; reflexivity.
  - eexists. split; reflexivity.
Qed.

(** C7, as the code has it, for a session whose three configuration reads
  succeed.

  With a profile named explicitly, the providers of the resolver are the
  default ones without the environment provider, with the assume-role
  provider first, and the loop of [load_credentials], whatever the
  providers answer, does not invoke the environment provider.  The same
  environment provider stays registered with the credential sourcer of
  that assume-role provider: when the profile assumes a role with
  [credential_source = Environment], loading the assume-role provider
  loads the environment provider, whose credentials become the source
  credentials of the role, not the credentials returned.

  With no profile named explicitly the environment provider is first in
  the chain, so its credentials, when it has some, are the ones
  returned. *)
Theorem explicit_profile_removes_env_provider (session : Session)
  (profile : option string) (metadata_timeout num_attempts : option Z) :
  config_profile session = Ok profile ->
  metadata_service_timeout session = Ok metadata_timeout ->
  metadata_service_num_attempts session = Ok num_attempts ->
  let profile_name := or_default profile in
  let arguments :=
    {| arg_profile_name := profile_name;
       arg_credential_sourcer :=
         [AioEnvProvider; AioContainerProvider;
          AioInstanceMetadataProvider metadata_timeout num_attempts
            (user_agent session)];
       arg_profile_provider_builder := providers session |} in
  let chain := profile_chain session profile_name metadata_timeout num_attempts in
  (instance_profile session <> None ->
   create_credential_resolver session
   = Ok {| resolver_providers := chain true;
           assume_role_provider_arguments := arguments |}
   /\ head (chain true) = Some (Providers.AioAssumeRoleProvider profile_name)
   /\ (AioEnvProvider ∉ chain true)
   /\ (forall (Credential World : Type)
         (load : Provider -> M World (option Credential)) (s : Resolver.St),
         AioEnvProvider ∉ Resolver.invoked s ->
         AioEnvProvider ∉
           Resolver.invoked (Resolver.load_credentials load (chain true) s).2)
   /\ (forall (Credential World : Type)
         (provider_load : Provider -> M World (option Credential))
         (full_config : FullConfig) (role : Profile) (arn : string)
         (s : @St World) (r : result (option Credential)) (w' : World),
         default ∅ (profiles full_config) !! profile_name = Some role ->
         role !! "role_arn" = Some arn ->
         role !! "credential_source" = Some "Environment"%string ->
         role !! "source_profile" = None ->
         provider_load AioEnvProvider (Resolver.world (AssumeRole.chain s)) = (r, w') ->
         exists outcome,
           load provider_load (assume_role_provider full_config arguments) s
           = (outcome,
              {| _loaded_config := full_config;
                 _visited_profiles := _visited_profiles s;
                 AssumeRole.chain :=
                   Resolver.mkSt w'
                     (Resolver.invoked (AssumeRole.chain s) ++ [AioEnvProvider]) |})
           /\ match r with
              | Ok (Some credentials) =>
                  exists deferred,
                    outcome = Ok (Some deferred)
                    /\ method deferred = "assume-role"%string
                    /\ source_credentials (fetcher_of (refresh_using deferred))
                       = Loaded credentials
                    /\ role_arn (fetcher_of (refresh_using deferred)) = arn
              | Ok None =>
                  outcome
                  = Raise (CredentialRetrievalError "Environment"
                             ("No credentials found in credential_source referenced in profile "
                              ++ profile_name))
              | Raise e => outcome = Raise e
              end))
  /\ (instance_profile session = None ->
      create_credential_resolver session
      = Ok {| resolver_providers := AioEnvProvider :: chain false;
              assume_role_provider_arguments := arguments |}
      /\ forall (Credential World : Type)
           (load : Provider -> M World (option Credential))
           (w w' : World) (c : Credential) (log : list Provider),
           load AioEnvProvider w = (Ok (Some c), w') ->
           Resolver.load_credentials load (AioEnvProvider :: chain false)
             (Resolver.mkSt w log)
           = (Ok (Some c), Resolver.mkSt w' (log ++ [AioEnvProvider]))).
Proof.
  intros Hp Ht Hn. cbv zeta.
  pose proof (create_credential_resolver_by_profile session profile
                metadata_timeout num_attempts Hp Ht Hn) as Hcreate.
  cbv zeta in Hcreate. unfold sourcer_providers in Hcreate.
  split.
  - intros Hexplicit.
    rewrite (bool_decide_eq_true_2 _ Hexplicit) in Hcreate.
    split; [exact Hcreate|]. split; [reflexivity|]. split; [|split].
    + apply env_provider_not_in_profile_chain.
    + intros Credential World load s Hs.
      destruct (Resolver.load_credentials_invokes_prefix load
                  (profile_chain session (or_default profile) metadata_timeout
                     num_attempts true) s) as (pre & Hpre & ->).
      rewrite not_elem_of_app. split; [done|].
      intros Hin.
      apply (env_provider_not_in_profile_chain session (or_default profile)
               metadata_timeout num_attempts true).
      destruct Hpre as [post ->]. apply elem_of_app. by left.
    + intros Credential World provider_load full_config role arn s r w'
        Hrole Harn Hsource Hnone Hload.
      exact (load_sources_from_environment provider_load
               (assume_role_provider full_config
                  {| arg_profile_name := or_default profile;
                     arg_credential_sourcer :=
                       sourcer_providers session metadata_timeout num_attempts;
                     arg_profile_provider_builder := providers session |})
               role arn s r w'
               (sourcer_finds_env_provider session metadata_timeout num_attempts)
               Hrole Harn Hsource Hnone Hload).
  - intros Himplicit.
    assert (Hd : bool_decide (instance_profile session <> None) = false)
      by (apply bool_decide_eq_false; by intros []).
    rewrite Hd in Hcreate.
    split; [exact Hcreate|].
    intros Credential World load w w' c log Hl. simpl.
    unfold bind, Resolver.await_load; simpl. by rewrite Hl.
Qed.

(** The profile ["dev"] assumes a role with the credentials of the
  environment. *)
Definition environment_role_config : FullConfig :=
{| profiles := Some (list_to_map
     [("dev", list_to_map [("role_arn", "arn:aws:iam::1:role/X");
                           ("credential_source", "Environment")])]%string) |}.

Definition explicit_arguments : AssumeRoleProviderArguments :=
{| arg_profile_name := "dev";
   arg_credential_sourcer :=
     [AioEnvProvider; AioContainerProvider;
      AioInstanceMetadataProvider (Some 1) (Some 1) "aiobotocore"];
   arg_profile_provider_builder := providers explicit_session |}.

(** With the profile ["dev"] named explicitly the chain starts with the
  assume-role provider and has no environment provider; loading the
  assume-role provider on a role sourced from the environment loads the
  environment provider and binds its credentials as the source of the
  role.  With no profile named the environment provider comes first and
  wins. *)
Lemma explicit_profile_removes_env_provider_witness :
  create_credential_resolver explicit_session
  = Ok {| resolver_providers :=
            [Providers.AioAssumeRoleProvider "dev";
             AioProcessProvider "dev";
             AioSharedCredentialProvider "dev" (Some "~/.aws/credentials"%string);
             AioConfigProvider "dev" (Some "~/.aws/config"%string);
             AioAssumeRoleWithWebIdentityProvider "dev" true;
             AioOriginalEC2Provider; AioBotoProvider; AioContainerProvider;
             AioInstanceMetadataProvider (Some 1) (Some 1) "aiobotocore"];
          assume_role_provider_arguments := explicit_arguments |}
  /\ (exists outcome,
        load env_only_load (assume_role_provider environment_role_config explicit_arguments)
          {| _loaded_config := {| profiles := None |};
             _visited_profiles := [];
             AssumeRole.chain := Resolver.mkSt tt [] |}
        = (outcome,
           {| _loaded_config := environment_role_config;
              _visited_profiles := [];
              AssumeRole.chain := Resolver.mkSt tt [AioEnvProvider] |})
        /\ exists deferred,
             outcome = Ok (Some deferred)
             /\ method deferred = "assume-role"%string
             /\ source_credentials (fetcher_of (refresh_using deferred))
                = Loaded "AKENV"%string
             /\ role_arn (fetcher_of (refresh_using deferred))
                = "arn:aws:iam::1:role/X"%string)
  /\ Resolver.load_credentials env_only_load
       (AioEnvProvider :: profile_chain ambient_session "default" (Some 1) (Some 1) false)
       (Resolver.mkSt tt [])
     = (Ok (Some "AKENV"%string), Resolver.mkSt tt [AioEnvProvider]).
Proof.
  destruct (explicit_profile_removes_env_provider explicit_session
              (Some "dev"%string) (Some 1) (Some 1) eq_refl eq_refl eq_refl)
    as [Hexplicit _].
  destruct Hexplicit as (Hcreate & _ & _ & _ & Hsource); [discriminate|].
  destruct (explicit_profile_removes_env_provider ambient_session
              None (Some 1) (Some 1) eq_refl eq_refl eq_refl)
    as [_ Hambient].
  destruct (Hambient eq_refl) as [_ Hwins].
  split; [exact Hcreate|]. split.
  - refine (Hsource string unit env_only_load environment_role_config
              (list_to_map [("role_arn", "arn:aws:iam::1:role/X");
                            ("credential_source", "Environment")]%string)
              "arn:aws:iam::1:role/X"%string
              {| _loaded_config := {| profiles := None |};
                 _visited_profiles := [];
                 AssumeRole.chain := Resolver.mkSt tt [] |}
              (Ok (Some "AKENV"%string)) tt _ _ _ _ eq_refl);
      vm_compute; reflexivity.
  - exact (Hwins string unit env_only_load tt tt "AKENV"%string [] eq_refl).
Defined.

End ExplicitProfile.

(** ** More on the refresh protocol *)

Module RefreshLaws.
Import Refresh.
Local Open Scope prog_scope.

Section OneCaller.
Context {W : Type}.
Variable time_fetcher : W -> Z * W.
Variable refresh_using : W -> result CredentialMetadata * W.

Abbreviation exec := (run time_fetcher refresh_using).



(** X2.  While another task holds the lock, a caller does not invoke
  [_refresh_using] and does not touch the object or the lock: it returns
  the frozen credentials, or waits. *)
Theorem held_lock_is_respected (s : State) :
  lock_held s = true ->
  exists o s',
    exec get_frozen_credentials s = (o, s')
    /\ (o = Returned (_frozen_credentials (self s)) \/ o = Blocked)
    /\ self s' = self s /\ lock_held s' = true /\ calls s' = calls s.
Proof.
  intros Hl.
  destruct (exec advisory_refresh_needed s) as [r1 s1] eqn:H1.
  destruct (run_advisory_frame _ _ _ _ _ H1) as (b1 & w1 & -> & ->).
  unfold get_frozen_credentials, _refresh. rewrite !run_pbind, H1.
  destruct b1; cbn [negb run].
  - replace (lock_held (set_world w1 s)) with true by done. cbn [negb].
    destruct (exec mandatory_refresh_needed (set_world w1 s)) as [r2 s2] eqn:H2.
    destruct (run_mandatory_frame _ _ _ _ _ H2) as (b2 & w2 & -> & ->).
    rewrite run_pbind, H2. destruct b2.
    + unfold async_with_refresh_lock. cbn [run].
      replace (lock_held (set_world w2 (set_world w1 s))) with true by done.
      eexists _, _. split; [reflexivity|]. by repeat split; [right|..].
    + eexists _, _. split; [reflexivity|]. by repeat split; [left|..].
  - eexists _, _. split; [reflexivity|]. by repeat split; [left|..].
Qed.

(** X3.  A refresh that succeeds, with the clock read afterwards not past the
  new expiry: the caller gets the fetched key material, the object holds
  it with the new expiry, and the lock is free again. *)
Theorem successful_refresh_returns_fetched_keys
  (s s1 s2 s3 : State) (is_mandatory : bool)
  (metadata : CredentialMetadata) (w4 w5 : W) (now : Z) :
  lock_held s = false ->
  exec advisory_refresh_needed s = (Returned true, s1) ->
  exec advisory_refresh_needed (set_lock true s1) = (Returned true, s2) ->
  exec mandatory_refresh_needed s2 = (Returned is_mandatory, s3) ->
  refresh_using (world s3) = (Ok metadata, w4) ->
  time_fetcher w4 = (now, w5) ->
  now <= md_expiry_time metadata ->
  exec get_frozen_credentials s
  = (Returned (Some (mkReadOnly (Some (md_access_key metadata))
                       (Some (md_secret_key metadata)) (md_token metadata))),
     mkState (freeze (_set_from_data metadata (self s))) w5 false (S (calls s)))
  /\ _expiry_time (freeze (_set_from_data metadata (self s)))
     = Some (md_expiry_time metadata).
Proof.
  intros Hl H1 H2 H3 Hr Ht Hle. split; [|reflexivity].
  rewrite (run_get_frozen_credentials_refreshing _ _ s _ _ _ is_mandatory Hl H1 H2 H3).
  destruct (run_advisory_frame _ _ _ _ _ H1) as (? & w1 & _ & ->).
  destruct (run_advisory_frame _ _ _ _ _ H2) as (? & w2 & _ & ->).
  destruct (run_mandatory_frame _ _ _ _ _ H3) as (? & w3 & _ & ->).
  rewrite (run_protected_refresh_ok _ _ _ _ _ _ Hr).
  unfold _is_expired, refresh_needed, AioDeferredRefreshableCredentials_refresh_needed,
    RefreshableCredentials_refresh_needed.
  cbn. destruct (cls (self s)); cbn; rewrite Ht;
    destruct (Z.leb_spec 0 (md_expiry_time metadata - now)); try lia; reflexivity.
Qed.

(** X4.  The first access to a deferred credential: whatever the clock shows
  and whatever the windows are, [_refresh_using] is invoked, in the world
  as it stands, as a mandatory refresh: its exception reaches the caller,
  and its metadata becomes the frozen credentials unless already expired. *)
Theorem deferred_first_access_fetches
  (method : string) (advisory mandatory : Z) (w : W) (n : nat) :
  let s := mkState (AioDeferredRefreshableCredentials_init method advisory mandatory)
             w false n in
  exec get_frozen_credentials s
  = match refresh_using w with
    | (Raise e, w1) => (Raised e, mkState (self s) w1 false (S n))
    | (Ok metadata, w1) =>
        let '(now, w2) := time_fetcher w1 in
        (if Z.leb 0 (md_expiry_time metadata - now)
         then Returned (Some (mkReadOnly (Some (md_access_key metadata))
                                (Some (md_secret_key metadata)) (md_token metadata)))
         else Raised (RuntimeError still_expired_msg),
         mkState (freeze (_set_from_data metadata (self s))) w2 false (S n))
    end.
Proof.
  cbv zeta.
  set (s := mkState _ w false n).
  rewrite (run_get_frozen_credentials_refreshing _ _ s s (set_lock true s)
             (set_lock true s) true eq_refl eq_refl eq_refl eq_refl).
  destruct (refresh_using w) as [[metadata|e] w1] eqn:Hr.
  - rewrite (run_protected_refresh_ok _ _ true (set_lock true s) metadata w1 Hr).
    cbn. destruct (time_fetcher w1) as [now w2].
    by destruct (Z.leb 0 (md_expiry_time metadata - now)).
  - by rewrite (run_protected_refresh_raise _ _ true (set_lock true s) e w1 Hr).
Qed.

End OneCaller.


Lemma held_lock_is_respected_witness :
  exists o s',
    run demo_time_fetcher demo_refresh_raises get_frozen_credentials
      (mkState (demo_credentials 1000) 500 true 0) = (o, s')
    /\ (o = Returned (Some old_frozen) \/ o = Blocked)
    /\ self s' = demo_credentials 1000 /\ lock_held s' = true /\ calls s' = 0%nat.
Proof.
  exact (held_lock_is_respected demo_time_fetcher demo_refresh_raises
           (mkState (demo_credentials 1000) 500 true 0) eq_refl).
Defined.

Lemma successful_refresh_returns_fetched_keys_witness :
  run demo_time_fetcher (demo_refresh_returns (new_metadata 5000))
    get_frozen_credentials (mkState (demo_credentials 1000) 500 false 0)
  = (Returned (Some (mkReadOnly (Some "AKNEW"%string) (Some "SKNEW"%string)
                       (Some "TKNEW"%string))),
     mkState (freeze (_set_from_data (new_metadata 5000) (demo_credentials 1000)))
       500 false 1%nat).
Proof.
  refine (proj1 (successful_refresh_returns_fetched_keys demo_time_fetcher
    (demo_refresh_returns (new_metadata 5000))
    (mkState (demo_credentials 1000) 500 false 0)
    (mkState (demo_credentials 1000) 500 false 0)
    (mkState (demo_credentials 1000) 500 true 0)
    (mkState (demo_credentials 1000) 500 true 0)
    true (new_metadata 5000) 500 500 500
    eq_refl eq_refl eq_refl eq_refl eq_refl eq_refl _)).
  vm_compute. discriminate.
Defined.

(** *** Any run of any callers

  No assumption on the clock, on the object or on what [_refresh_using]
  answers. *)

(** The number of callers a predicate holds of. *)
Fixpoint tally {A} (f : task A -> bool) (pool : list (task A)) : nat :=
match pool with
| [] => 0
| t :: pool' => (if f t then 1 else 0) + tally f pool'
end.

Definition in_refresh {A} (t : task A) : bool :=
match t with InRefresh _ => true | _ => false end.

(** Past the lock: inside [_refresh_using], or finished. *)
Definition past_lock {A} (t : task A) : bool :=
match t with InRefresh _ | Finished _ => true | _ => false end.

Lemma tally_insert {A} (f : task A -> bool) (pool : list (task A)) (i : nat)
  (t t' : task A) :
  pool !! i = Some t ->
  (tally f (<[i := t']> pool) + (if f t then 1 else 0)
   = tally f pool + (if f t' then 1 else 0))%nat.
Proof.
  revert i. induction pool as [|x pool IH]; intros [|i] Hi; try discriminate.
  - injection Hi as ->.
    change ((if f t' then 1 else 0) + tally f pool + (if f t then 1 else 0)
            = (if f t then 1 else 0) + tally f pool + (if f t' then 1 else 0))%nat.
    lia.
  - specialize (IH i Hi).
    change ((if f x then 1 else 0) + tally f (<[i := t']> pool) + (if f t then 1 else 0)
            = (if f x then 1 else 0) + tally f pool + (if f t' then 1 else 0))%nat.
    lia.
Qed.

Lemma tally_le_length {A} (f : task A -> bool) (pool : list (task A)) :
  (tally f pool <= length pool)%nat.
Proof.
  induction pool as [|x pool IH]; [done|].
  change ((if f x then 1 else 0) + tally f pool <= S (length pool))%nat.
  destruct (f x); lia.
Qed.

Lemma tally_replicate_ready {A} (f : task A -> bool) (n : nat) (p : prog A) :
  f (Ready p) = false -> tally f (replicate n (Ready p)) = 0%nat.
Proof.
  intros Hf. induction n as [|n IH]; [done|].
  change ((if f (Ready p) then 1 else 0) + tally f (replicate n (Ready p)) = 0)%nat.
  rewrite Hf, IH. done.
Qed.

Section AnyRun.
Context {W : Type}.
Variable time_fetcher : W -> Z * W.
Variable refresh_using : W -> result CredentialMetadata * W.

Abbreviation caller := (task (option ReadOnlyCredentials)).
Abbreviation step := (schedule time_fetcher refresh_using).
Abbreviation go := (advance time_fetcher).

(** Where a caller of [get_frozen_credentials] can be. *)
Definition somewhere (t : caller) : Prop :=
t = Ready get_frozen_credentials
\/ t = entering_first_lock \/ t = entering_second_lock
\/ (exists is_mandatory, t = refreshing is_mandatory)
\/ (exists r, t = Finished r).

(** The lock is held exactly while one caller is inside
  [_refresh_using]; no caller has invoked it more than once. *)
Definition exclusive (cfg : list caller * @State W) : Prop :=
(forall j t, cfg.1 !! j = Some t -> somewhere t)
/\ tally in_refresh cfg.1 = (if lock_held cfg.2 then 1 else 0)%nat
/\ (calls cfg.2 <= tally past_lock cfg.1)%nat.

Lemma forall_insert (pool : list caller) (i : nat) (t' : caller) :
  (forall j t, pool !! j = Some t -> somewhere t) ->
  somewhere t' ->
  forall j t, <[i := t']> pool !! j = Some t -> somewhere t.
Proof.
  intros Hall Ht' j t Hj.
  destruct (decide (j = i)) as [->|Hne].
  - destruct (decide (i < length pool)%nat) as [Hlt|Hge].
    + rewrite list_lookup_insert_eq in Hj by done. by injection Hj as <-.
    + rewrite list_insert_ge in Hj by lia. by eapply Hall.
  - rewrite list_lookup_insert_ne in Hj by done. by eapply Hall.
Qed.

Lemma exclusive_insert (pool : list caller) (s s' : @State W) (i : nat)
  (t t' : caller) :
  exclusive (pool, s) ->
  pool !! i = Some t ->
  somewhere t' ->
  (tally in_refresh pool + (if in_refresh t' then 1 else 0)
   = (if lock_held s' then 1 else 0) + (if in_refresh t then 1 else 0))%nat ->
  (calls s' + (if past_lock t then 1 else 0)
   <= tally past_lock pool + (if past_lock t' then 1 else 0))%nat ->
  exclusive (<[i := t']> pool, s').
Proof.
  intros (Hall & Hin & Hcalls) Hi Ht' Hlock Hpast. cbn [fst snd] in *.
  pose proof (tally_insert in_refresh pool i t t' Hi).
  pose proof (tally_insert past_lock pool i t t' Hi).
  split; [by apply forall_insert|]. cbn [fst snd]. split; lia.
Qed.

Lemma in_refresh_positive (pool : list caller) (i : nat) (t : caller) :
  pool !! i = Some t -> in_refresh t = true -> (1 <= tally in_refresh pool)%nat.
Proof.
  revert i. induction pool as [|x pool IH]; intros [|i] Hi Ht; try discriminate.
  - injection Hi as ->.
    change (1 <= (if in_refresh t then 1 else 0) + tally in_refresh pool)%nat.
    rewrite Ht. lia.
  - specialize (IH i Hi Ht).
    change (1 <= (if in_refresh x then 1 else 0) + tally in_refresh pool)%nat. lia.
Qed.

(** One scheduling step keeps the lock discipline and brings the pool
  closer to the end. *)
Lemma step_exclusive (i : nat) (cfg cfg' : list caller * @State W) :
  exclusive cfg ->
  step i cfg = Some cfg' ->
  exclusive cfg' /\ (remaining cfg'.1 < remaining cfg.1)%nat.
Proof.
  destruct cfg as [pool s]. intros Hex Hstep.
  pose proof Hex as (Hall & Hin & Hcalls).
  cbn [fst snd] in *. unfold schedule in Hstep.
  destruct (pool !! i) as [t|] eqn:Hi; [|discriminate].
  destruct (Hall i t Hi) as [->|[->|[->|[[b ->]|[r ->]]]]].
  - (* a caller starts *)
    pose proof (advance_get_frozen_credentials time_fetcher s) as Ha.
    cbv zeta in Ha.
    destruct (needs_refresh _ _ _ (world s)) as [adv w1].
    destruct (needs_refresh _ _ _ w1) as [mand w2].
    rewrite Ha in Hstep. clear Ha.
    destruct adv; cbn [negb] in Hstep;
      [destruct (lock_held s) eqn:Hl; cbn [negb] in Hstep; [destruct mand|]|];
      injection Hstep as <-; cbn [fst snd];
      (split; [|by eapply remaining_insert; [exact Hi|simpl; lia]]);
      (eapply exclusive_insert; [exact Hex|exact Hi|unfold somewhere; eauto 10|..]);
      cbn [in_refresh past_lock lock_held set_world calls
           entering_first_lock entering_second_lock];
      try rewrite Hl; lia.
  - (* the first lock is obtained *)
    unfold entering_first_lock in Hstep, Hi.
    destruct (lock_held s) eqn:Hl; [discriminate|].
    pose proof (advance_first_lock time_fetcher (set_lock true s)) as Ha.
    cbv zeta in Ha. cbn [self world set_lock] in Ha.
    destruct (needs_refresh _ _ _ (world s)) as [adv w1].
    destruct (needs_refresh _ _ _ w1) as [mand w2].
    rewrite Ha in Hstep. clear Ha.
    destruct adv; cbn [negb] in Hstep; injection Hstep as <-; cbn [fst snd];
      (split; [|by eapply remaining_insert; [exact Hi|simpl; lia]]);
      (eapply exclusive_insert; [exact Hex|exact Hi|unfold somewhere; eauto 10|..]);
      cbn [in_refresh past_lock lock_held set_world set_lock count_call calls
           refreshing]; lia.
  - (* the second lock is obtained *)
    unfold entering_second_lock in Hstep, Hi.
    destruct (lock_held s) eqn:Hl; [discriminate|].
    pose proof (advance_second_lock time_fetcher (set_lock true s)) as Ha.
    cbv zeta in Ha. cbn [self world set_lock] in Ha.
    destruct (needs_refresh _ _ _ (world s)) as [mand w1].
    rewrite Ha in Hstep. clear Ha.
    destruct mand; cbn [negb] in Hstep; injection Hstep as <-; cbn [fst snd];
      (split; [|by eapply remaining_insert; [exact Hi|simpl; lia]]);
      (eapply exclusive_insert; [exact Hex|exact Hi|unfold somewhere; eauto 10|..]);
      cbn [in_refresh past_lock lock_held set_world set_lock count_call calls
           refreshing]; lia.
  - (* the refresh is answered *)
    unfold refreshing in Hstep, Hi.
    pose proof (in_refresh_positive pool i _ Hi eq_refl) as Hpos.
    assert (Hl : lock_held s = true) by (destruct (lock_held s); [done|lia]).
    rewrite Hl in Hin.
    destruct (refresh_using (world s)) as [[metadata|e] w].
    + pose proof (advance_refreshed time_fetcher b metadata (set_world w s)) as Ha.
      cbv zeta in Ha.
      destruct (needs_refresh _ _ _ _) as [expired w1].
      rewrite Ha in Hstep. clear Ha.
      injection Hstep as <-; cbn [fst snd];
      (split; [|by eapply remaining_insert; [exact Hi|simpl; lia]]);
      (eapply exclusive_insert; [exact Hex|exact Hi|unfold somewhere; eauto 10|..]);
      cbn [in_refresh past_lock lock_held set_world set_lock set_self calls]; lia.
    + rewrite (advance_refresh_raised time_fetcher b e (set_world w s)) in Hstep.
      injection Hstep as <-; cbn [fst snd];
      (split; [|by eapply remaining_insert; [exact Hi|simpl; lia]]);
      (eapply exclusive_insert; [exact Hex|exact Hi|unfold somewhere; eauto 10|..]);
      cbn [in_refresh past_lock lock_held set_world set_lock set_self calls]; lia.
  - discriminate.
Qed.

Lemma run_exclusive (sched : list nat) (cfg cfg' : list caller * @State W) :
  exclusive cfg ->
  run_schedule time_fetcher refresh_using sched cfg = Some cfg' ->
  exclusive cfg'
  /\ (length sched + remaining cfg'.1 <= remaining cfg.1)%nat
  /\ length cfg'.1 = length cfg.1.
Proof.
  revert cfg. induction sched as [|i sched IH]; intros cfg Hex Hrun; simpl in Hrun.
  - injection Hrun as <-. simpl. auto with lia.
  - destruct (step i cfg) as [cfg1|] eqn:Hstep; [|discriminate].
    destruct (step_exclusive i cfg cfg1 Hex Hstep) as [Hex1 Hlt].
    destruct (IH cfg1 Hex1 Hrun) as (Hex' & Hle & Hlen).
    split; [done|]. split; [simpl; lia|].
    rewrite Hlen. clear -Hstep. destruct cfg as [pool s]. unfold schedule in Hstep.
    destruct (pool !! i) as [[p|k|k|r]|]; try discriminate.
    + destruct (advance _ p s). injection Hstep as <-. apply length_insert.
    + destruct (lock_held s); [discriminate|].
      destruct (advance _ k _). injection Hstep as <-. apply length_insert.
    + destruct (refresh_using (world s)) as [r w]. destruct (advance _ _ _).
      injection Hstep as <-. apply length_insert.
Qed.

Lemma exclusive_progress (cfg : list caller * @State W) :
  exclusive cfg ->
  forallb is_finished cfg.1 = true \/ exists i cfg', step i cfg = Some cfg'.
Proof.
  destruct cfg as [pool s]. intros (Hall & Hin & _). cbn [fst snd] in *.
  destruct (lock_held s) eqn:Hl.
  - (* the caller inside [_refresh_using] can be answered *)
    right.
    assert (Hex : exists i k, pool !! i = Some (InRefresh k)).
    { clear -Hin. induction pool as [|x pool IH]; [discriminate|].
      destruct x as [p|k|k|r];
        try (destruct IH as (i & k' & Hi); [exact Hin|by exists (S i), k']).
      by exists 0%nat, k. }
    destruct Hex as (i & k & Hi). exists i. unfold schedule. rewrite Hi.
    destruct (refresh_using (world s)) as [r w]. destruct (advance _ _ _). eauto.
  - destruct (forallb is_finished pool) eqn:Hfin; [by left|right].
    assert (Hex : exists i t, pool !! i = Some t /\ is_finished t = false).
    { clear -Hfin. induction pool as [|t pool IH]; [discriminate|].
      simpl in Hfin. destruct (is_finished t) eqn:Ht.
      - destruct (IH Hfin) as (i & t' & Hi & Ht'). by exists (S i), t'.
      - by exists 0%nat, t. }
    destruct Hex as (i & t & Hi & Ht). exists i. unfold schedule. rewrite Hi.
    destruct t as [p|k|k|r]; [| | |discriminate].
    + destruct (advance _ p s). eauto.
    + rewrite Hl. destruct (advance _ k _). eauto.
    + destruct (refresh_using (world s)) as [r w]. destruct (advance _ _ _). eauto.
Qed.

(** X5.  [n] callers of [get_frozen_credentials] on one object, in any order,
  whatever the clock shows and whatever [_refresh_using] answers.  At every
  point of the run the lock is held exactly while one caller is inside
  [_refresh_using], and no other caller is; [_refresh_using] has been
  invoked at most once per caller; the run has at most [3 * n] steps; and
  unless all callers have finished, one of them can be scheduled. *)
Theorem refresh_is_mutually_exclusive (c0 : RefreshableCredentials) (w0 : W)
  (n : nat) (sched : list nat) (pool : list caller) (s : @State W) :
  run_schedule time_fetcher refresh_using sched
    (replicate n (Ready get_frozen_credentials), mkState c0 w0 false 0)
  = Some (pool, s) ->
  tally in_refresh pool = (if lock_held s then 1 else 0)%nat
  /\ (calls s <= n)%nat
  /\ (length sched <= 3 * n)%nat
  /\ (forallb is_finished pool = true \/ exists i cfg', step i (pool, s) = Some cfg').
Proof.
  intros Hrun.
  assert (Hinit : exclusive (replicate n (Ready get_frozen_credentials),
                             mkState c0 w0 false 0)).
  { split; [|split]; cbn [fst snd].
    - intros j t Hj. apply lookup_replicate in Hj as [-> _]. by left.
    - by rewrite tally_replicate_ready.
    - simpl. lia. }
  destruct (run_exclusive sched _ _ Hinit Hrun) as (Hex & Hle & Hlen).
  cbn [fst snd] in *. rewrite remaining_replicate in Hle.
  rewrite length_replicate in Hlen.
  pose proof Hex as (_ & Hin & Hcalls). cbn [fst snd] in *.
  pose proof (tally_le_length past_lock pool).
  split; [done|]. split; [lia|]. split; [simpl in Hle; lia|].
  exact (exclusive_progress (pool, s) Hex).
Qed.

End AnyRun.

(** Two callers and a refresh that raises: never two inside. *)
Lemma refresh_is_mutually_exclusive_witness :
  run_schedule (clock_at 500) refresh_raises [0; 0; 1]%nat two_callers
  = Some ([refreshing true; entering_second_lock],
          mkState (demo_credentials 1000) tt true 1)
  /\ tally in_refresh [refreshing true; entering_second_lock] = 1%nat
  /\ (1 <= 2)%nat.
Proof.
  assert (Hrun : run_schedule (clock_at 500) refresh_raises [0; 0; 1]%nat two_callers
                 = Some ([refreshing true; entering_second_lock],
                         mkState (demo_credentials 1000) tt true 1)) by reflexivity.
  split; [exact Hrun|].
  destruct (refresh_is_mutually_exclusive (clock_at 500) refresh_raises
              (demo_credentials 1000) tt 2 [0; 0; 1]%nat _ _ Hrun)
    as (Hin & Hcalls & _).
  split; [exact Hin|exact Hcalls].
Defined.

End RefreshLaws.

(** ** More on the resolver, the cached fetcher and the sourcer *)

Module ResolverLaws.
Import Resolver.
Section Chain.
Context {Provider Credential World : Type}.
Variable load : Provider -> M World (option Credential).

(** X6.  An exception raised by a provider's [load] ends the chain: it reaches
  the caller of [load_credentials], and no later provider is asked. *)
Theorem load_credentials_error_stops_chain
  (pre post : list Provider) (p : Provider) (e : exn)
  (w w1 w2 : World) (log : list Provider) :
  all_decline load pre w = Some w1 ->
  load p w1 = (Raise e, w2) ->
  load_credentials load (pre ++ p :: post) (mkSt w log)
  = (Raise e, mkSt w2 (log ++ pre ++ [p])).
Proof.
  intros Hd Hp.
  rewrite (load_credentials_skip load _ _ _ _ _ Hd). simpl.
  unfold bind, await_load; simpl. rewrite Hp. by rewrite app_assoc.
Qed.

End Chain.

(** Provider 1 raises: providers 2 and 3 are not asked. *)
Definition raising_load (p : nat) : M nat (option string) :=
fun w => (if Nat.eqb p 1 then Raise (CredentialRetrievalError "custom-process" "exit 1")
          else Ok None, S w).

Lemma load_credentials_error_stops_chain_witness :
  load_credentials raising_load [0; 1; 2; 3]%nat (mkSt 0%nat [])
  = (Raise (CredentialRetrievalError "custom-process" "exit 1"),
     mkSt 2%nat [0; 1]%nat).
Proof.
  exact (load_credentials_error_stops_chain raising_load [0%nat] [2; 3]%nat 1%nat
           _ 0%nat 1%nat 2%nat [] eq_refl eq_refl).
Defined.

End ResolverLaws.

Module FetcherLaws.
Import Fetcher.
Section Cached.
Context {W : Type}.
Variable _local_now : W -> Z * W.
Variable _get_credentials : W -> result AssumeRoleResponse * W.
Variable isoformat : Z -> string.
Variable parse : string -> result Z.

Abbreviation fetch := (fetch_credentials _local_now _get_credentials isoformat parse).
Abbreviation from_cache := (_load_from_cache _local_now parse).

(** [fetch_credentials] by cases on the cache lookup and on the call. *)
Lemma fetch_credentials_cases (self : CachedCredentialFetcher) (s : St) :
  fetch self s
  = match from_cache self s with
    | (Raise e, s') => (Raise e, s')
    | (Ok (Some response), s') => (Ok (normalized isoformat response), s')
    | (Ok None, s') =>
        match _get_credentials (world s') with
        | (Raise e, w) => (Raise e, mkSt (cache s') w (S (calls s')))
        | (Ok response, w) =>
            (Ok (normalized isoformat response),
             mkSt (<[_cache_key self := response]> (cache s')) w (S (calls s')))
        end
    end.
Proof.
  unfold fetch_credentials, _get_cached_credentials, bind at 1.
  destruct (from_cache self s) as [[[response|]|e] s']; try reflexivity.
  unfold bind, await_get_credentials, _write_to_cache, modify, ret.
  by destruct (_get_credentials (world s')) as [[response|e] w].
Qed.

Lemma load_from_cache_some (self : CachedCredentialFetcher) (s s' : St)
  (response : AssumeRoleResponse) :
  from_cache self s = (Ok (Some response), s') ->
  cache s !! _cache_key self = Some response.
Proof.
  unfold _load_from_cache, bind, get.
  destruct (cache s !! _cache_key self) as [creds|]; [|intros ?; simplify_eq].
  unfold _is_expired.
  destruct (_parse_if_needed _ _) as [end_time|e]; [|intros ?; simplify_eq].
  unfold bind, local_now, ret.
  destruct (_local_now (world s)) as [now w].
  destruct (Z.ltb _ _); intros ?; by simplify_eq.
Qed.

(** X7.  An exception of [_get_credentials] reaches the caller of
  [fetch_credentials] unchanged, and nothing is written to the cache. *)
Theorem fetch_error_leaves_cache (self : CachedCredentialFetcher) (s s' : St)
  (e : exn) (w : W) :
  from_cache self s = (Ok None, s') ->
  _get_credentials (world s') = (Raise e, w) ->
  fetch self s = (Raise e, mkSt (cache s) w (S (calls s))).
Proof.
  intros Hl Hg. rewrite fetch_credentials_cases, Hl, Hg.
  destruct (load_from_cache_frame _ _ _ _ _ _ Hl) as [-> ->]. done.
Qed.

(** X8.  Whatever happens, [fetch_credentials] touches no cache entry but the
  one under the fetcher's own key: fetchers with different keys can share
  a cache. *)
Theorem fetch_touches_only_its_key (self : CachedCredentialFetcher) (s : St)
  (key : string) :
  key <> _cache_key self ->
  cache (fetch self s).2 !! key = cache s !! key.
Proof.
  intros Hne. rewrite fetch_credentials_cases.
  destruct (from_cache self s) as [r s'] eqn:Hl.
  destruct (load_from_cache_frame _ _ _ _ _ _ Hl) as [Hc _].
  destruct r as [[response|]|e]; cbn [snd]; try by rewrite Hc.
  destruct (_get_credentials (world s')) as [[response|e] w]; cbn [snd cache].
  - rewrite lookup_insert_ne by done. by rewrite Hc.
  - by rewrite Hc.
Qed.

(** X9.  Whenever [fetch_credentials] returns metadata, from the cache or from
  the call, the cache then holds under the fetcher's key a record of which
  that metadata is the normalization. *)
Theorem fetched_metadata_is_cached (self : CachedCredentialFetcher) (s s' : St)
  (metadata : FetchedMetadata) :
  fetch self s = (Ok metadata, s') ->
  exists response,
    cache s' !! _cache_key self = Some response
    /\ metadata = normalized isoformat response.
Proof.
  rewrite fetch_credentials_cases.
  destruct (from_cache self s) as [r s1] eqn:Hl.
  destruct (load_from_cache_frame _ _ _ _ _ _ Hl) as [Hc _].
  destruct r as [[response|]|e]; [| |discriminate].
  - intros [= <- <-]. exists response. split; [|done].
    rewrite Hc. by eapply load_from_cache_some.
  - destruct (_get_credentials (world s1)) as [[response|e] w]; [|discriminate].
    intros [= <- <-]. exists response. split; [|done]. apply lookup_insert_eq.
Qed.

End Cached.

Definition failing_get_credentials (w : Z) : result AssumeRoleResponse * Z :=
(Raise (OtherError "AccessDenied"), w).

Lemma fetch_error_leaves_cache_witness :
  fetch_credentials demo_local_now failing_get_credentials demo_isoformat demo_parse
    demo_fetcher (mkSt ∅ 100 0%nat)
  = (Raise (OtherError "AccessDenied"), mkSt ∅ 100 1%nat).
Proof.
  refine (fetch_error_leaves_cache demo_local_now failing_get_credentials
            demo_isoformat demo_parse demo_fetcher
            (mkSt ∅ 100 0%nat) (mkSt ∅ 100 0%nat) _ 100 _ eq_refl).
  vm_compute; reflexivity.
Defined.

(** A fetch that stores under ["3f2a9c"] leaves the record another fetcher
  stored under ["77aa01"]. *)
Lemma fetch_touches_only_its_key_witness :
  cache (fetch_credentials demo_local_now demo_get_credentials demo_isoformat
           demo_parse demo_fetcher
           (mkSt {[ "77aa01"%string := demo_response ]} 100 0%nat)).2
    !! "77aa01"%string
  = Some demo_response.
Proof.
  rewrite (fetch_touches_only_its_key demo_local_now demo_get_credentials
             demo_isoformat demo_parse demo_fetcher
             (mkSt {[ "77aa01"%string := demo_response ]} 100 0%nat) "77aa01").
  - vm_compute; reflexivity.
  - vm_compute. discriminate.
Defined.

Lemma fetched_metadata_is_cached_witness :
  exists response,
    ({[ "3f2a9c"%string := demo_response ]} : gmap string AssumeRoleResponse)
      !! _cache_key demo_fetcher = Some response
    /\ {| access_key := "ASIAROLE"; secret_key := "SKROLE";
          token := "TKROLE"; expiry_time := "2099-01-01T00:00:00Z" |}
       = normalized demo_isoformat response.
Proof.
  refine (fetched_metadata_is_cached demo_local_now demo_get_credentials
            demo_isoformat demo_parse demo_fetcher
            (mkSt ∅ 100 0%nat) (mkSt {[ "3f2a9c"%string := demo_response ]} 100 1%nat)
            _ _).
  vm_compute; reflexivity.
Defined.

End FetcherLaws.

Module SourcerLaws.
Import Sourcer.
Section CanonicalName.
Context {Provider Credential World : Type}.
Variable load : Provider -> M World (option Credential).
Variable METHOD : Provider -> string.
Variable CANONICAL_NAME : Provider -> option string.

(** X10.  A name outside the shared family, or a shared name with no
  assume-role provider registered: the source is the provider carrying the
  name, and sourcing asks that provider alone. *)
Theorem plain_name_sources_one_provider
  (self : list Provider) (name : string) (p : Provider) :
  is_shared_name name = false
  \/ _get_provider_by_method METHOD self "assume-role" = None ->
  _get_provider_by_canonical_name CANONICAL_NAME self name = Some p ->
  _get_provider METHOD CANONICAL_NAME self name = Ok (AProvider p)
  /\ forall w log,
       source_credentials load METHOD CANONICAL_NAME self name (Resolver.mkSt w log)
       = ((load p w).1, Resolver.mkSt (load p w).2 (log ++ [p])).
Proof.
  intros Hplain Hp.
  assert (Hg : _get_provider METHOD CANONICAL_NAME self name = Ok (AProvider p)).
  { unfold _get_provider. rewrite Hp.
    destruct Hplain as [-> | ->]; [done|]. by destruct (is_shared_name name). }
  split; [exact Hg|]. intros w log.
  unfold source_credentials. rewrite Hg. unfold Resolver.await_load. simpl.
  by destruct (load p w).
Qed.

End CanonicalName.

Import Providers.

Lemma plain_name_sources_one_provider_witness :
  source_credentials demo_load METHOD CANONICAL_NAME demo_registered "ENVIRONMENT"
    (Resolver.mkSt tt [])
  = (Ok None, Resolver.mkSt tt [AioEnvProvider]).
Proof.
  exact (proj2 (plain_name_sources_one_provider demo_load METHOD CANONICAL_NAME
                  demo_registered "ENVIRONMENT" AioEnvProvider
                  (or_introl eq_refl) eq_refl) tt []).
Defined.

End SourcerLaws.

(** ** More on the assume-role provider *)

Module AssumeRoleLaws.
Import Providers AssumeRole.

Section Provider.
Context {Credential World : Type}.
Variable provider_load : Provider -> M World (option Credential).

Abbreviation source := (@SourceCredentials Credential).

Definition with_chain (c : @Resolver.St Provider World) (s : @St World) : @St World :=
{| _loaded_config := _loaded_config s;
   _visited_profiles := _visited_profiles s;
   chain := c |}.

(** The profile the provider is bound to, as the configuration it loads
  has it: no such profile is an empty profile. *)
Definition selected_profile (self : AioAssumeRoleProvider) : Profile :=
default ∅ (default ∅ (profiles (_load_config self)) !! _profile_name self).

(** X11.  Without role-assumption settings in the selected profile, [load]
  returns [None]: no exception, no provider asked, no profile visited. *)
Theorem load_without_role_config_is_none (self : AioAssumeRoleProvider) (s : @St World) :
  _has_assume_role_config_vars (selected_profile self) = false ->
  load provider_load self s
  = (Ok None,
     {| _loaded_config := _load_config self;
        _visited_profiles := _visited_profiles s;
        chain := chain s |}).
Proof.
  intros Hno. unfold load, bind, modify, loaded_profiles; simpl.
  fold (selected_profile self). by rewrite Hno.
Qed.

(** X12.  With [credential_source] set, the source credentials come from the
  credential sourcer alone: the credential it sources is bound, its
  exception is passed on, and [None] is a [CredentialRetrievalError] that
  names the source and the profile.  No profile is visited. *)
Theorem credential_source_must_yield_credentials
  (self : AioAssumeRoleProvider) (role_config : RoleConfig)
  (profile_name credential_source : string) (s : @St World)
  (r : result (option Credential)) (c' : @Resolver.St Provider World) :
  rc_credential_source role_config = Some credential_source ->
  Sourcer.source_credentials provider_load METHOD CANONICAL_NAME
    (_credential_sourcer self) credential_source (chain s) = (r, c') ->
  _resolve_source_credentials provider_load self role_config profile_name s
  = (match r with
     | Ok (Some credentials) => Ok (Loaded credentials)
     | Ok None =>
         Raise (CredentialRetrievalError credential_source
                  ("No credentials found in credential_source referenced in profile "
                   ++ profile_name))
     | Raise e => Raise e
     end, with_chain c' s).
Proof.
  intros Hcs Hsrc.
  unfold _resolve_source_credentials. rewrite Hcs.
  unfold _resolve_credentials_from_source, bind, through_resolver. rewrite Hsrc.
  by destruct r as [[c|]|e].
Qed.

(** X13.  A source profile with static keys, or with neither static keys nor
  role-assumption settings, when the provider has a profile-provider
  builder: the keys are not read from the profile; the profile's providers
  are built with the environment disabled and loaded as a chain, and a
  chain with no credentials is an [InvalidConfigError]. *)
Theorem source_profile_goes_through_profile_chain
  (self : AioAssumeRoleProvider) (builder : string -> bool -> list Provider)
  (profile_name : string) (profile : Profile) (s : @St World)
  (r : result (option Credential)) (c' : @Resolver.St Provider World) :
  _profile_provider_builder self = Some builder ->
  default ∅ (profiles (_loaded_config s)) !! profile_name = Some profile ->
  _has_static_credentials profile || negb (_has_assume_role_config_vars profile) = true ->
  Resolver.load_credentials provider_load (builder profile_name true) (chain s) = (r, c') ->
  _resolve_credentials_from_profile provider_load self profile_name s
  = (match r with
     | Ok (Some credentials) => Ok (Loaded credentials)
     | Ok None =>
         Raise (InvalidConfigError
                  ("The source profile " ++ dquote ++ profile_name ++ dquote
                   ++ " must have credentials."))
     | Raise e => Raise e
     end, with_chain c' s).
Proof.
  intros Hb Hp Hcond Hchain.
  unfold _resolve_credentials_from_profile, bind, loaded_profiles, getitem.
  rewrite Hp. unfold ret at 1. rewrite Hb.
  replace (bool_decide (is_Some (Some builder))) with true
    by (symmetry; by apply bool_decide_eq_true).
  rewrite andb_false_r, Hcond.
  unfold bind, through_resolver. rewrite Hchain.
  by destruct r as [[c|]|e].
Qed.

(** X14.  A source profile with static keys when the provider has no
  profile-provider builder: both keys give an [AioCredentials] with the
  session token if there is one; a missing key is a
  [PartialCredentialsError] that names it.  No provider is asked. *)
Theorem static_source_profile_without_builder
  (self : AioAssumeRoleProvider) (profile_name : string) (profile : Profile)
  (s : @St World) :
  _profile_provider_builder self = None ->
  default ∅ (profiles (_loaded_config s)) !! profile_name = Some profile ->
  _has_static_credentials profile = true ->
  _resolve_credentials_from_profile provider_load self profile_name s
  = (match profile !! "aws_access_key_id", profile !! "aws_secret_access_key" with
     | Some access_key, Some secret_key =>
         Ok (AnAioCredentials access_key secret_key (profile !! "aws_session_token"))
     | None, _ => Raise (PartialCredentialsError "assume-role" "'aws_access_key_id'")
     | _, None => Raise (PartialCredentialsError "assume-role" "'aws_secret_access_key'")
     end, s).
Proof.
  intros Hb Hp Hstatic.
  unfold _resolve_credentials_from_profile, bind, loaded_profiles, getitem.
  rewrite Hp. unfold ret at 1. rewrite Hb, Hstatic.
  replace (bool_decide (is_Some (None : option (string -> bool -> list Provider))))
    with false by (symmetry; apply bool_decide_eq_false; by intros [? ?]).
  cbn [negb andb]. unfold _resolve_static_credentials_from_profile.
  by destruct (profile !! "aws_access_key_id"), (profile !! "aws_secret_access_key").
Qed.

(** The deferred credential [_load_creds_via_assume_role] builds from
  the role settings [_get_role_config] returned. *)
Lemma load_creds_of_role_config
  (self : AioAssumeRoleProvider) (profile_name : string)
  (role_config : RoleConfig) (src : source) (s s1 s2 : @St World) :
  _get_role_config profile_name s = (Ok role_config, s1) ->
  _resolve_source_credentials provider_load self role_config profile_name s1
  = (Ok src, s2) ->
  exists fetcher,
    _load_creds_via_assume_role provider_load self profile_name s
    = (Ok {| method := "assume-role";
             refresh_using :=
               match rc_mfa_serial role_config with
               | Some _ => create_aio_mfa_serial_refresher (fetch_credentials_of fetcher)
               | None => fetch_credentials_of fetcher
               end |}, s2)
    /\ source_credentials fetcher = src
    /\ role_arn fetcher = rc_role_arn role_config
    /\ forall key,
         extra_args fetcher !! key
         = if decide (key = "DurationSeconds"%string)
           then AInt <$> rc_duration_seconds role_config
           else if decide (key = "SerialNumber"%string)
           then AStr <$> rc_mfa_serial role_config
           else if decide (key = "ExternalId"%string)
           then AStr <$> rc_external_id role_config
           else if decide (key = "RoleSessionName"%string)
           then AStr <$> rc_role_session_name role_config
           else None.
Proof.
  intros Hrc Hsrc. eexists. split; [|split; [|split]].
  - unfold _load_creds_via_assume_role, bind at 1. rewrite Hrc.
    unfold bind at 1. rewrite Hsrc. reflexivity.
  - reflexivity.
  - reflexivity.
  - intros key. cbn [extra_args].
    unfold set_if_present.
    destruct (rc_duration_seconds role_config), (rc_mfa_serial role_config),
      (rc_external_id role_config), (rc_role_session_name role_config);
      cbn [fmap option_fmap option_map];
      repeat (case_decide; simplify_eq;
              [rewrite ?lookup_insert_eq; try done;
               repeat (rewrite lookup_insert_ne by done);
               rewrite ?lookup_insert_eq, ?lookup_empty; done|]);
      repeat (rewrite lookup_insert_ne by done); by rewrite ?lookup_empty.
Qed.

(** The role settings [_get_role_config] returns are the settings of the
  profile, the duration converted to a number. *)
Lemma get_role_config_reads_profile (profile_name : string) (profile : Profile)
  (role_config : RoleConfig) (s s1 : @St World) :
  default ∅ (profiles (_loaded_config s)) !! profile_name = Some profile ->
  _get_role_config profile_name s = (Ok role_config, s1) ->
  s1 = s
  /\ profile !! "role_arn" = Some (rc_role_arn role_config)
  /\ rc_external_id role_config = profile !! "external_id"
  /\ rc_mfa_serial role_config = profile !! "mfa_serial"
  /\ rc_role_session_name role_config = profile !! "role_session_name"
  /\ rc_duration_seconds role_config = profile !! "duration_seconds" ≫= int.
Proof.
  intros Hp. unfold _get_role_config, bind, loaded_profiles, getitem.
  rewrite Hp. unfold ret at 1.
  destruct (profile !! "role_arn") as [arn|]; [|intros ?; simplify_eq].
  destruct (_ && _); unfold raise, ret; intros ?; simplify_eq. cbn. by repeat split.
Qed.

(** X15.  The deferred credential [_load_creds_via_assume_role] builds for a
  profile, once its role settings are read and the source credentials
  resolved: the fetcher is bound to that source and to the profile's
  [role_arn]; [RoleSessionName], [ExternalId] and [SerialNumber] are
  passed exactly when the profile sets them, [DurationSeconds] exactly
  when [duration_seconds] is set to a number, as that number, and nothing
  else is passed; the refresher is the single-use MFA wrapper exactly when
  an MFA serial is configured. *)
Theorem deferred_credential_of_role_config
  (self : AioAssumeRoleProvider) (profile_name : string) (profile : Profile)
  (role_config : RoleConfig) (src : source) (s s1 s2 : @St World) :
  default ∅ (profiles (_loaded_config s)) !! profile_name = Some profile ->
  _get_role_config profile_name s = (Ok role_config, s1) ->
  _resolve_source_credentials provider_load self role_config profile_name s1
  = (Ok src, s2) ->
  exists fetcher,
    _load_creds_via_assume_role provider_load self profile_name s
    = (Ok {| method := "assume-role";
             refresh_using :=
               match profile !! "mfa_serial" with
               | Some _ => create_aio_mfa_serial_refresher (fetch_credentials_of fetcher)
               | None => fetch_credentials_of fetcher
               end |}, s2)
    /\ source_credentials fetcher = src
    /\ profile !! "role_arn" = Some (role_arn fetcher)
    /\ forall key,
         extra_args fetcher !! key
         = if decide (key = "DurationSeconds"%string)
           then AInt <$> (profile !! "duration_seconds" ≫= int)
           else if decide (key = "SerialNumber"%string)
           then AStr <$> profile !! "mfa_serial"
           else if decide (key = "ExternalId"%string)
           then AStr <$> profile !! "external_id"
           else if decide (key = "RoleSessionName"%string)
           then AStr <$> profile !! "role_session_name"
           else None.
Proof.
  intros Hp Hrc Hsrc.
  destruct (get_role_config_reads_profile _ _ _ _ _ Hp Hrc)
    as (_ & Harn & Hext & Hmfa & Hname & Hduration).
  destruct (load_creds_of_role_config self profile_name role_config src s s1 s2
              Hrc Hsrc) as (fetcher & Hload & Hsource & Hrole & Hargs).
  exists fetcher. rewrite <- Hmfa. split; [exact Hload|]. split; [exact Hsource|].
  split; [by rewrite Hrole|].
  intros key. rewrite (Hargs key). by rewrite Hext, Hmfa, Hname, Hduration.
Qed.

End Provider.

(** A profile with static keys only; a role whose source is the
  environment; a role that asks for an MFA code; and the state once the
  configuration is loaded. *)
Definition static_only_config : FullConfig :=
{| profiles := Some (list_to_map
     [("A", list_to_map [("aws_access_key_id", "AKA");
                         ("aws_secret_access_key", "SKA")])]%string) |}.

Definition environment_role : RoleConfig :=
{| rc_role_arn := "arn:aws:iam::1:role/X";
   rc_external_id := None;
   rc_mfa_serial := None;
   rc_role_session_name := None;
   rc_source_profile := None;
   rc_credential_source := Some "Environment"%string;
   rc_duration_seconds := None |}.

Definition mfa_config : FullConfig :=
{| profiles := Some (list_to_map
     [("A", list_to_map [("role_arn", "arn:aws:iam::1:role/X");
                         ("source_profile", "B");
                         ("mfa_serial", "arn:aws:iam::1:mfa/me");
                         ("external_id", "partner");
                         ("duration_seconds", "3600")]);
      ("B", list_to_map [("aws_access_key_id", "AKB");
                         ("aws_secret_access_key", "SKB")])]%string) |}.

Definition mfa_role : RoleConfig :=
{| rc_role_arn := "arn:aws:iam::1:role/X";
   rc_external_id := Some "partner"%string;
   rc_mfa_serial := Some "arn:aws:iam::1:mfa/me"%string;
   rc_role_session_name := None;
   rc_source_profile := Some "B"%string;
   rc_credential_source := None;
   rc_duration_seconds := Some 3600 |}.

(** [int] on a few settings: a number, a number between blanks, a signed
  number, digits grouped by underscores, and four texts that are not
  numbers. *)
Lemma int_of_duration_settings :
  int "3600" = Some 3600
  /\ int " 900 " = Some 900
  /\ int "-5" = Some (-5)
  /\ int "3_600" = Some 3600
  /\ int "1h" = None
  /\ int "3.5" = None
  /\ int "36__00" = None
  /\ int "" = None.
Proof. by repeat split. Qed.

Definition loaded_state (config : FullConfig) (visited : list string) : @St unit :=
{| _loaded_config := config;
   _visited_profiles := visited;
   chain := Resolver.mkSt tt [] |}.

Lemma load_without_role_config_is_none_witness :
  load no_load (provider_without_builder static_only_config) fresh_state
  = (Ok None, loaded_state static_only_config []).
Proof.
  apply (load_without_role_config_is_none no_load
           (provider_without_builder static_only_config) fresh_state).
  vm_compute; reflexivity.
Defined.

Lemma credential_source_must_yield_credentials_witness :
  _resolve_source_credentials no_load (provider_with_builder single_hop_config)
    environment_role "A" fresh_state
  = (Raise (CredentialRetrievalError "Environment"
              "No credentials found in credential_source referenced in profile A"),
     with_chain (Resolver.mkSt tt [AioEnvProvider]) fresh_state).
Proof.
  apply (credential_source_must_yield_credentials no_load
           (provider_with_builder single_hop_config) environment_role "A" "Environment"
           fresh_state (Ok None) (Resolver.mkSt tt [AioEnvProvider]));
    vm_compute; reflexivity.
Defined.

Lemma source_profile_goes_through_profile_chain_witness :
  _resolve_credentials_from_profile no_load (provider_with_builder single_hop_config)
    "B" (loaded_state single_hop_config ["B"%string])
  = (Raise (InvalidConfigError
              ("The source profile " ++ dquote ++ "B" ++ dquote
               ++ " must have credentials.")),
     with_chain
       (Resolver.mkSt tt
          [AioProcessProvider "B";
           AioSharedCredentialProvider "B" (Some "~/.aws/credentials"%string);
           AioConfigProvider "B" (Some "~/.aws/config"%string);
           AioAssumeRoleWithWebIdentityProvider "B" true])
       (loaded_state single_hop_config ["B"%string])).
Proof.
  apply (source_profile_goes_through_profile_chain no_load
           (provider_with_builder single_hop_config)
           (DefaultChain.providers DefaultChain.explicit_session) "B"
           (list_to_map [("aws_access_key_id", "AKB");
                         ("aws_secret_access_key", "SKB")]%string)
           (loaded_state single_hop_config ["B"%string]) (Ok None));
    vm_compute; reflexivity.
Defined.

Lemma static_source_profile_without_builder_witness :
  _resolve_credentials_from_profile no_load (provider_without_builder single_hop_config)
    "B" (loaded_state single_hop_config ["B"%string])
  = (Ok (AnAioCredentials "AKB" "SKB" None),
     loaded_state single_hop_config ["B"%string]).
Proof.
  rewrite (static_source_profile_without_builder no_load
             (provider_without_builder single_hop_config) "B"
             (list_to_map [("aws_access_key_id", "AKB");
                           ("aws_secret_access_key", "SKB")]%string)
             (loaded_state single_hop_config ["B"%string]));
    vm_compute; reflexivity.
Defined.

Lemma deferred_credential_of_role_config_witness :
  exists fetcher,
    _load_creds_via_assume_role no_load (provider_without_builder mfa_config) "A"
      (loaded_state mfa_config [])
    = (Ok {| method := "assume-role";
             refresh_using :=
               create_aio_mfa_serial_refresher (fetch_credentials_of fetcher) |},
       loaded_state mfa_config ["B"%string])
    /\ source_credentials fetcher = AnAioCredentials "AKB" "SKB" None
    /\ role_arn fetcher = "arn:aws:iam::1:role/X"%string
    /\ extra_args fetcher !! "DurationSeconds"%string = Some (AInt 3600)
    /\ extra_args fetcher !! "SerialNumber"%string = Some (AStr "arn:aws:iam::1:mfa/me")
    /\ extra_args fetcher !! "RoleSessionName"%string = None.
Proof.
  destruct (deferred_credential_of_role_config no_load
              (provider_without_builder mfa_config) "A"
              (list_to_map [("role_arn", "arn:aws:iam::1:role/X");
                            ("source_profile", "B");
                            ("mfa_serial", "arn:aws:iam::1:mfa/me");
                            ("external_id", "partner");
                            ("duration_seconds", "3600")]%string)
              mfa_role
              (AnAioCredentials "AKB" "SKB" None)
              (loaded_state mfa_config []) (loaded_state mfa_config [])
              (loaded_state mfa_config ["B"%string]))
    as (fetcher & Hload & Hsrc & Harn & Hargs);
    [vm_compute; reflexivity..|].
  exists fetcher. split; [rewrite Hload; vm_compute; reflexivity|].
  split; [exact Hsrc|].
  split; [vm_compute in Harn; by injection Harn|].
  rewrite !Hargs. vm_compute. by repeat split.
Defined.

End AssumeRoleLaws.

(** ** [create_aio_mfa_serial_refresher] *)

Module MfaRefresher.
Section Refresher.
(** The refresh being wrapped, over the world it reads and changes. *)
Context {World A : Type}.
Variable actual_refresh : M World A.

(** The [_Refresher] object, the world, and how many times the wrapped
  refresh has run. *)
Record St : Type := mkSt {
_has_been_called : bool;
world : World;
refreshes : nat;
}.

(** [create_aio_mfa_serial_refresher(actual_refresh)]: a new [_Refresher],
  of which the caller gets the bound [call]. *)
Definition create_aio_mfa_serial_refresher (w : World) : St :=
{| _has_been_called := false; world := w; refreshes := 0 |}.

(** [await self._refresh()] *)
Definition await_refresh : M St A :=
fun s => let '(r, w) := actual_refresh (world s) in
         (r, {| _has_been_called := _has_been_called s; world := w;
                refreshes := S (refreshes s) |}).

(** [_Refresher.call] *)
Definition call : M St A :=
let* s := get in
if _has_been_called s then
  (* We can explore an option in the future to support reprompting for
     MFA, but for now we just error out when the temp creds expire. *)
  raise RefreshWithMFAUnsupportedError
else
  let* _ := modify (fun s => {| _has_been_called := true; world := world s;
                                refreshes := refreshes s |}) in
  await_refresh.

(** [call] awaited [n] times in a row: the results, oldest first. *)
Fixpoint calls (n : nat) (s : St) : list (result A) * St :=
match n with
| O => ([], s)
| S n' => let '(r, s') := call s in
          let '(rs, s'') := calls n' s' in (r :: rs, s'')
end.

Lemma calls_after_first (n : nat) (s : St) :
  _has_been_called s = true ->
  calls n s = (replicate n (Raise RefreshWithMFAUnsupportedError), s).
Proof.
  intros Hs. induction n as [|n IH]; [done|].
  simpl. unfold call at 1, bind, get. rewrite Hs. unfold raise. by rewrite IH.
Qed.

(** X16.  The wrapped refresh runs once, in the first call, whose result or
  exception is the first call's; every later call raises
  [RefreshWithMFAUnsupportedError] and changes nothing, also when the first
  call raised. *)
Theorem mfa_refresher_is_single_use (w : World) (n : nat) :
  let '(rs, s) := calls (S n) (create_aio_mfa_serial_refresher w) in
  rs = (actual_refresh w).1 :: replicate n (Raise RefreshWithMFAUnsupportedError)
  /\ world s = (actual_refresh w).2
  /\ refreshes s = 1%nat.
Proof.
  simpl. unfold call at 1, bind, get, modify, await_refresh; simpl.
  destruct (actual_refresh w) as [r w1]; simpl.
  rewrite calls_after_first by done. done.
Qed.

End Refresher.
End MfaRefresher.

(** ** [AioProcessProvider] *)

Module Process.

(** A value of the JSON document the process prints.  A float carries the
  integer it equals, if any, which is all [version != 1] looks at; arrays
  and nested objects are not looked into. *)
Inductive json : Type :=
| JNull
| JBool (b : bool)
| JInt (n : Z)
| JFloat (integral : option Z)
| JStr (s : string)
| JArray
| JObject.

#[global] Instance json_eq_dec : EqDecision json.
Proof. solve_decision. Defined.

(** What [json.loads] returns: a dict, or some other value. *)
Inductive document : Type :=
| Object (members : gmap string json)
| NotObject (value : json).

(** The dict [_retrieve_credentials_using] returns; [JNull] is [None]. *)
Record creds_dict : Type := mkCreds {
access_key : json;
secret_key : json;
token : json;
expiry_time : json;
}.

(** What [load] returns: an [AioCredentials], or what
  [AioRefreshableCredentials.create_from_metadata] is called with, the
  refresher being [_retrieve_credentials_using] on the same command. *)
Inductive loaded : Type :=
| AioCredentials (access_key secret_key token : json) (method : string)
| AioRefreshableCredentials_create_from_metadata
    (metadata : creds_dict) (refresh_using_command : string) (method : string).

(** [version == 1] in Python: the integer 1, [True], or the float 1.0. *)
Definition equals_one (version : json) : bool :=
match version with
| JInt 1 | JBool true | JFloat (Some 1) => true
| _ => false
end.

Section Provider.
(** The world the process runs in; the process itself, from its argument
  list to its exit code, standard output and standard error; and the
  library functions the method calls. *)
Context {World : Type}.
Variable popen_communicate : list string -> M World (Z * string * string).
Variable compat_shell_split : string -> result (list string).
Variable decode_utf8 : string -> result string.
Variable json_loads : string -> result document.
Variable str : json -> string.
Variable METHOD : string.

Definition lift {A} (r : result A) : M World A := fun w => (r, w).

(** [parsed[key]] inside the [try] of [_retrieve_credentials_using] *)
Definition required (parsed : gmap string json) (key : string) : M World json :=
match parsed !! key with
| Some v => ret v
| None =>
    raise (CredentialRetrievalError METHOD
             ("Missing required key in response: '" ++ key ++ "'"))
end.

(** [AioProcessProvider._retrieve_credentials_using] *)
Definition _retrieve_credentials_using (credential_process : string)
  : M World creds_dict :=
let* process_list := lift (compat_shell_split credential_process) in
let* p := popen_communicate process_list in
let '(returncode, stdout, stderr) := p in
if negb (Z.eqb returncode 0) then
  let* error_msg := lift (decode_utf8 stderr) in
  raise (CredentialRetrievalError METHOD error_msg)
else
  let* text := lift (decode_utf8 stdout) in
  let* parsed := lift (json_loads text) in
  match parsed with
  | NotObject _ => raise (AttributeError "object has no attribute 'get'")
  | Object parsed =>
      let version := default (JStr "<Version key not provided>") (parsed !! "Version") in
      if negb (equals_one version) then
        raise (CredentialRetrievalError METHOD
                 ("Unsupported version '" ++ str version
                  ++ "' for credential process provider, supported versions: 1"))
      else
        let* access_key := required parsed "AccessKeyId" in
        let* secret_key := required parsed "SecretAccessKey" in
        ret {| access_key := access_key;
               secret_key := secret_key;
               token := default JNull (parsed !! "SessionToken");
               expiry_time := default JNull (parsed !! "Expiration") |}
  end.

(** [AioProcessProvider.load]; [credential_process] is the property
  [self._credential_process], the command configured for the profile. *)
Definition load (credential_process : option string) : M World (option loaded) :=
match credential_process with
| None => ret None
| Some credential_process =>
    let* creds_dict := _retrieve_credentials_using credential_process in
    if negb (bool_decide (expiry_time creds_dict = JNull)) then
      ret (Some (AioRefreshableCredentials_create_from_metadata
                   creds_dict credential_process METHOD))
    else
      ret (Some (AioCredentials (access_key creds_dict) (secret_key creds_dict)
                   (token creds_dict) METHOD))
end.

(** X17.  A process that exits with a code other than 0: a
  [CredentialRetrievalError] that carries its standard error, whatever it
  printed on standard output. *)
Theorem process_failure_is_retrieval_error
  (credential_process : string) (process_list : list string)
  (returncode : Z) (stdout stderr error_msg : string) (w w' : World) :
  compat_shell_split credential_process = Ok process_list ->
  popen_communicate process_list w = (Ok (returncode, stdout, stderr), w') ->
  returncode <> 0 ->
  decode_utf8 stderr = Ok error_msg ->
  _retrieve_credentials_using credential_process w
  = (Raise (CredentialRetrievalError METHOD error_msg), w')
  /\ load (Some credential_process) w
     = (Raise (CredentialRetrievalError METHOD error_msg), w').
Proof.
  intros Hsplit Hp Hrc Hdec.
  assert (H : _retrieve_credentials_using credential_process w
              = (Raise (CredentialRetrievalError METHOD error_msg), w')).
  { unfold _retrieve_credentials_using, bind at 1, lift. rewrite Hsplit.
    unfold bind at 1. rewrite Hp.
    destruct (Z.eqb_spec returncode 0) as [?|_]; [done|]. cbn [negb].
    unfold bind, lift. by rewrite Hdec. }
  split; [exact H|]. unfold load, bind. by rewrite H.
Qed.

(** X18.  A process that exits with 0 and prints a JSON object.  Unless
  [Version] is there and equal to 1 the result is a
  [CredentialRetrievalError], whatever else the object holds; then a
  missing [AccessKeyId] or [SecretAccessKey] is a
  [CredentialRetrievalError] that names the key; otherwise the four
  entries are returned, [SessionToken] and [Expiration] being optional. *)
Theorem process_output_is_validated
  (credential_process : string) (process_list : list string)
  (stdout stderr text : string) (parsed : gmap string json) (w w' : World) :
  compat_shell_split credential_process = Ok process_list ->
  popen_communicate process_list w = (Ok (0, stdout, stderr), w') ->
  decode_utf8 stdout = Ok text ->
  json_loads text = Ok (Object parsed) ->
  _retrieve_credentials_using credential_process w
  = (match parsed !! "Version" with
     | None =>
         Raise (CredentialRetrievalError METHOD
                  ("Unsupported version '" ++ str (JStr "<Version key not provided>")
                   ++ "' for credential process provider, supported versions: 1"))
     | Some version =>
         if equals_one version then
           match parsed !! "AccessKeyId", parsed !! "SecretAccessKey" with
           | Some access_key, Some secret_key =>
               Ok {| access_key := access_key;
                     secret_key := secret_key;
                     token := default JNull (parsed !! "SessionToken");
                     expiry_time := default JNull (parsed !! "Expiration") |}
           | None, _ =>
               Raise (CredentialRetrievalError METHOD
                        "Missing required key in response: 'AccessKeyId'")
           | Some _, None =>
               Raise (CredentialRetrievalError METHOD
                        "Missing required key in response: 'SecretAccessKey'")
           end
         else
           Raise (CredentialRetrievalError METHOD
                    ("Unsupported version '" ++ str version
                     ++ "' for credential process provider, supported versions: 1"))
     end, w').
Proof.
  intros Hsplit Hp Hdec Hjson.
  unfold _retrieve_credentials_using, bind at 1, lift. rewrite Hsplit.
  unfold bind at 1. rewrite Hp. cbn [Z.eqb negb].
  unfold bind at 1, lift. rewrite Hdec.
  unfold bind at 1. rewrite Hjson.
  destruct (parsed !! "Version") as [version|]; cbn [default from_option];
    unfold id; [|reflexivity].
  destruct (equals_one version); cbn [negb]; [|reflexivity].
  unfold bind, required.
  by destruct (parsed !! "AccessKeyId"), (parsed !! "SecretAccessKey").
Qed.

(** X19.  [load] on a process that exits with 0 and prints a version 1 object
  with both keys.  Without [Expiration], or with a null one, the result is
  static credentials with the printed keys; otherwise it is refreshable
  credentials made from the four entries, whose refresher runs the same
  command again. *)
Theorem process_load_by_expiration
  (credential_process : string) (process_list : list string)
  (stdout stderr text : string) (parsed : gmap string json)
  (version access_key secret_key : json) (w w' : World) :
  compat_shell_split credential_process = Ok process_list ->
  popen_communicate process_list w = (Ok (0, stdout, stderr), w') ->
  decode_utf8 stdout = Ok text ->
  json_loads text = Ok (Object parsed) ->
  parsed !! "Version" = Some version ->
  equals_one version = true ->
  parsed !! "AccessKeyId" = Some access_key ->
  parsed !! "SecretAccessKey" = Some secret_key ->
  load (Some credential_process) w
  = (Ok (Some
           match parsed !! "Expiration" with
           | None | Some JNull =>
               AioCredentials access_key secret_key
                 (default JNull (parsed !! "SessionToken")) METHOD
           | Some expiration =>
               AioRefreshableCredentials_create_from_metadata
                 {| access_key := access_key;
                    secret_key := secret_key;
                    token := default JNull (parsed !! "SessionToken");
                    expiry_time := expiration |}
                 credential_process METHOD
           end), w').
Proof.
  intros Hsplit Hp Hdec Hjson Hv Hone Hak Hsk.
  unfold load, bind at 1, _retrieve_credentials_using, bind at 1, lift.
  rewrite Hsplit. unfold bind at 1. rewrite Hp. cbn [Z.eqb negb].
  unfold bind at 1, lift. rewrite Hdec.
  unfold bind at 1. rewrite Hjson, Hv.
  cbn [default from_option]; unfold id. rewrite Hone. cbn [negb].
  unfold bind, required. rewrite Hak, Hsk. cbn [ret expiry_time].
  by destruct (parsed !! "Expiration") as [[]|].
Qed.

End Provider.

(** A command whose process prints a fixed document and exits with a
  fixed code; the world counts the processes started. *)
Definition demo_popen (returncode : Z) (stdout stderr : string)
  (process_list : list string) : M nat (Z * string * string) :=
fun w => (Ok (returncode, stdout, stderr), S w).

Definition demo_split (command : string) : result (list string) := Ok [command].

Definition demo_decode (bytes : string) : result string := Ok bytes.

Definition demo_document (members : list (string * json)) (text : string)
  : result document :=
Ok (Object (list_to_map members)).

Definition demo_str (value : json) : string :=
match value with
| JStr s => s
| JInt 2 => "2"
| _ => "?"
end.

Definition static_output : list (string * json) :=
[("Version", JInt 1); ("AccessKeyId", JStr "AKP"); ("SecretAccessKey", JStr "SKP")].

Definition expiring_output : list (string * json) :=
static_output ++ [("SessionToken", JStr "TP"); ("Expiration", JStr "2030-01-01T00:00:00Z")].

Lemma process_failure_is_retrieval_error_witness :
  load (demo_popen 2 "{}" "access denied") demo_split demo_decode
    (demo_document []) demo_str "custom-process" (Some "/bin/creds"%string) 0%nat
  = (Raise (CredentialRetrievalError "custom-process" "access denied"), 1%nat).
Proof.
  apply (process_failure_is_retrieval_error (demo_popen 2 "{}" "access denied")
           demo_split demo_decode (demo_document []) demo_str "custom-process"
           "/bin/creds" ["/bin/creds"%string] 2 "{}" "access denied" "access denied"
           0%nat 1%nat); [reflexivity|reflexivity|lia|reflexivity].
Defined.

Lemma process_output_is_validated_witness :
  _retrieve_credentials_using (demo_popen 0 "{..}" "") demo_split demo_decode
    (demo_document [("Version", JInt 2); ("AccessKeyId", JStr "AKP")]) demo_str
    "custom-process" "/bin/creds" 0%nat
  = (Raise (CredentialRetrievalError "custom-process"
              "Unsupported version '2' for credential process provider, supported versions: 1"),
     1%nat).
Proof.
  rewrite (process_output_is_validated (demo_popen 0 "{..}" "")
             demo_split demo_decode
             (demo_document [("Version", JInt 2); ("AccessKeyId", JStr "AKP")])
             demo_str "custom-process"
             "/bin/creds" ["/bin/creds"%string] "{..}" "" "{..}"
             (list_to_map [("Version", JInt 2); ("AccessKeyId", JStr "AKP")])
             0%nat 1%nat); vm_compute; reflexivity.
Defined.

Lemma process_load_by_expiration_witness :
  load (demo_popen 0 "{..}" "") demo_split demo_decode
    (demo_document expiring_output) demo_str "custom-process" (Some "/bin/creds"%string) 0%nat
  = (Ok (Some (AioRefreshableCredentials_create_from_metadata
                 {| access_key := JStr "AKP";
                    secret_key := JStr "SKP";
                    token := JStr "TP";
                    expiry_time := JStr "2030-01-01T00:00:00Z" |}
                 "/bin/creds" "custom-process")), 1%nat).
Proof.
  rewrite (process_load_by_expiration (demo_popen 0 "{..}" "")
             demo_split demo_decode (demo_document expiring_output)
             demo_str "custom-process"
             "/bin/creds" ["/bin/creds"%string] "{..}" "" "{..}"
             (list_to_map expiring_output) (JInt 1) (JStr "AKP") (JStr "SKP")
             0%nat 1%nat); vm_compute; reflexivity.
Defined.

End Process.

(** ** [AioContainerProvider] *)

Module Container.

(** How [retrieve_full_uri] ends: with the response (a dict), with
  botocore's [MetadataRetrievalError], which [fetch_creds] catches, or
  with any other exception. *)
Inductive retrieval : Type :=
| Retrieved (response : gmap string string)
| MetadataRetrievalError (msg : string)
| OtherException (e : exn).

(** The dict [fetch_creds] returns. *)
Record metadata : Type := mkMetadata {
access_key : string;
secret_key : string;
token : string;
expiry_time : string;
}.

(** The closure [fetch_creds] that [_create_fetcher(full_uri, headers)]
  returns is its two arguments. *)
Record fetcher (Headers : Type) : Type := mkFetcher {
full_uri : string;
headers : Headers;
}.
Arguments mkFetcher {Headers}.
Arguments full_uri {Headers}.
Arguments headers {Headers}.

(** The [AioRefreshableCredentials] the provider constructs. *)
Record credentials (Headers : Type) : Type := mkCredentials {
cr_access_key : string;
cr_secret_key : string;
cr_token : string;
cr_method : string;
cr_expiry_time : Z;
cr_refresh_using : fetcher Headers;
}.
Arguments mkCredentials {Headers}.
Arguments cr_access_key {Headers}.
Arguments cr_secret_key {Headers}.
Arguments cr_token {Headers}.
Arguments cr_method {Headers}.
Arguments cr_expiry_time {Headers}.
Arguments cr_refresh_using {Headers}.

Section Provider.
(** The world behind the endpoint; the two environment variable names and
  [METHOD], constants of botocore's [ContainerProvider]; the helpers the
  class inherits; and the metadata fetcher. *)
Context {World Headers : Type}.
Variable ENV_VAR ENV_VAR_FULL METHOD : string.
Variable _provided_relative_uri : gmap string string -> bool.
Variable _build_headers : gmap string string -> Headers.
Variable full_url : string -> string.
Variable retrieve_full_uri : string -> Headers -> World -> retrieval * World.
Variable _parse_if_needed : string -> result Z.

(** [d[key]] *)
Definition getitem (d : gmap string string) (key : string) : M World string :=
match d !! key with
| Some v => ret v
| None => raise (KeyError key)
end.

Definition _create_fetcher (full_uri : string) (headers : Headers) : fetcher Headers :=
{| full_uri := full_uri; headers := headers |}.

(** [await self._fetcher.retrieve_full_uri(full_uri, headers=headers)]
  inside the [try] of [fetch_creds]. *)
Definition await_retrieve_full_uri (f : fetcher Headers) : M World (gmap string string) :=
fun w =>
  match retrieve_full_uri (full_uri f) (headers f) w with
  | (Retrieved response, w') => (Ok response, w')
  | (MetadataRetrievalError msg, w') =>
      (* Error retrieving container metadata *)
      (Raise (CredentialRetrievalError METHOD msg), w')
  | (OtherException e, w') => (Raise e, w')
  end.

(** [await fetcher()]: the body of [fetch_creds]. *)
Definition fetch_creds (f : fetcher Headers) : M World metadata :=
let* response := await_retrieve_full_uri f in
let* access_key := getitem response "AccessKeyId" in
let* secret_key := getitem response "SecretAccessKey" in
let* token := getitem response "Token" in
let* expiry_time := getitem response "Expiration" in
ret {| access_key := access_key; secret_key := secret_key;
       token := token; expiry_time := expiry_time |}.

(** [AioContainerProvider._retrieve_or_fail] *)
Definition _retrieve_or_fail (environ : gmap string string)
  : M World (credentials Headers) :=
let* full_uri :=
  if _provided_relative_uri environ then
    let* relative := getitem environ ENV_VAR in
    ret (full_url relative)
  else getitem environ ENV_VAR_FULL in
let headers := _build_headers environ in
let fetcher := _create_fetcher full_uri headers in
let* creds := fetch_creds fetcher in
match _parse_if_needed (expiry_time creds) with
| Raise e => raise e
| Ok expiry =>
    ret {| cr_access_key := access_key creds;
           cr_secret_key := secret_key creds;
           cr_token := token creds;
           cr_method := METHOD;
           cr_expiry_time := expiry;
           cr_refresh_using := fetcher |}
end.

(** [AioContainerProvider.load] *)
Definition load (environ : gmap string string)
  : M World (option (credentials Headers)) :=
if bool_decide (is_Some (environ !! ENV_VAR))
   || bool_decide (is_Some (environ !! ENV_VAR_FULL))
then
  let* credentials := _retrieve_or_fail environ in
  ret (Some credentials)
else ret None.

(** The URI [_retrieve_or_fail] fetches from. *)
Definition resolved_uri (environ : gmap string string) : option string :=
if _provided_relative_uri environ then full_url <$> environ !! ENV_VAR
else environ !! ENV_VAR_FULL.

Lemma load_resolved (environ : gmap string string) (uri : string) (w : World) :
  resolved_uri environ = Some uri ->
  load environ w
  = (let* creds := fetch_creds (_create_fetcher uri (_build_headers environ)) in
     match _parse_if_needed (expiry_time creds) with
     | Raise e => raise e
     | Ok expiry =>
         ret (Some {| cr_access_key := access_key creds;
                      cr_secret_key := secret_key creds;
                      cr_token := token creds;
                      cr_method := METHOD;
                      cr_expiry_time := expiry;
                      cr_refresh_using :=
                        _create_fetcher uri (_build_headers environ) |})
     end) w.
Proof.
  intros Huri. unfold load.
  assert (Hset : bool_decide (is_Some (environ !! ENV_VAR))
                 || bool_decide (is_Some (environ !! ENV_VAR_FULL)) = true).
  { apply orb_true_iff. unfold resolved_uri in Huri.
    destruct (_provided_relative_uri environ); [left|right];
      apply bool_decide_eq_true.
    - destruct (environ !! ENV_VAR); [by eexists|done].
    - by eexists. }
  rewrite Hset. clear Hset. unfold resolved_uri in Huri.
  unfold _retrieve_or_fail, bind, getitem.
  destruct (_provided_relative_uri environ).
  - destruct (environ !! ENV_VAR); cbn in Huri; simplify_eq. cbn [ret].
    destruct (fetch_creds _ w) as [[creds|e] w']; [|reflexivity].
    by destruct (_parse_if_needed (expiry_time creds)).
  - rewrite Huri. cbn [ret].
    destruct (fetch_creds _ w) as [[creds|e] w']; [|reflexivity].
    by destruct (_parse_if_needed (expiry_time creds)).
Qed.

(** X20.  When the endpoint fails, [load] fails: a [MetadataRetrievalError]
  becomes a [CredentialRetrievalError] that names this provider and keeps
  the message, and any other exception passes unchanged. *)
Theorem container_retrieval_errors
  (environ : gmap string string) (uri : string) (w w' : World) :
  resolved_uri environ = Some uri ->
  (forall msg,
     retrieve_full_uri uri (_build_headers environ) w = (MetadataRetrievalError msg, w') ->
     load environ w = (Raise (CredentialRetrievalError METHOD msg), w'))
  /\ (forall e,
        retrieve_full_uri uri (_build_headers environ) w = (OtherException e, w') ->
        load environ w = (Raise e, w')).
Proof.
  intros Huri. split; intros x Hr; rewrite (load_resolved _ _ _ Huri);
    unfold bind at 1, fetch_creds, bind at 1, await_retrieve_full_uri, _create_fetcher;
    cbn [full_uri headers]; by rewrite Hr.
Qed.

(** X21.  The credentials [load] returns carry the keys of the response, and
  their refresher asks the same URI with the same headers: refreshing is
  one more retrieval from where the credentials came from. *)
Theorem container_credentials_refresh_from_same_uri
  (environ : gmap string string) (uri : string) (w w' : World)
  (response : gmap string string) (ak sk tk exp : string) (expiry : Z) :
  resolved_uri environ = Some uri ->
  retrieve_full_uri uri (_build_headers environ) w = (Retrieved response, w') ->
  response !! "AccessKeyId" = Some ak ->
  response !! "SecretAccessKey" = Some sk ->
  response !! "Token" = Some tk ->
  response !! "Expiration" = Some exp ->
  _parse_if_needed exp = Ok expiry ->
  exists c,
    load environ w = (Ok (Some c), w')
    /\ cr_access_key c = ak /\ cr_secret_key c = sk /\ cr_token c = tk
    /\ cr_method c = METHOD /\ cr_expiry_time c = expiry
    /\ forall w1,
         fetch_creds (cr_refresh_using c) w1
         = fetch_creds {| full_uri := uri; headers := _build_headers environ |} w1.
Proof.
  intros Huri Hr Hak Hsk Htk Hexp Hparse. eexists. split.
  - rewrite (load_resolved _ _ _ Huri).
    unfold bind at 1, fetch_creds, bind at 1, await_retrieve_full_uri, _create_fetcher.
    cbn [full_uri headers]. rewrite Hr.
    unfold bind, getitem. rewrite Hak, Hsk, Htk, Hexp. cbn. rewrite Hparse.
    reflexivity.
  - done.
Qed.

(** X22.  A response that lacks one of the four entries makes [load] raise the
  [KeyError] of the first missing one, not a credential retrieval error. *)
Theorem container_incomplete_response_is_key_error
  (environ : gmap string string) (uri : string) (w w' : World)
  (response : gmap string string) (key : string) :
  resolved_uri environ = Some uri ->
  retrieve_full_uri uri (_build_headers environ) w = (Retrieved response, w') ->
  head (filter (fun k => response !! k = None)
          ["AccessKeyId"; "SecretAccessKey"; "Token"; "Expiration"]) = Some key ->
  load environ w = (Raise (KeyError key), w').
Proof.
  intros Huri Hr Hkey. rewrite (load_resolved _ _ _ Huri).
  unfold bind at 1, fetch_creds, bind at 1, await_retrieve_full_uri, _create_fetcher.
  cbn [full_uri headers]. rewrite Hr.
  unfold bind, getitem.
  rewrite !filter_cons, filter_nil in Hkey.
  repeat case_decide; cbn in Hkey; simplify_eq;
    repeat match goal with
    | H : ?x !! ?k = None |- _ => rewrite H
    | H : ?x !! ?k <> None |- context [?x !! ?k] =>
        destruct (x !! k) eqn:?; [clear H|done]
    end; reflexivity.
Qed.

End Provider.

(** An endpoint that answers with one fixed response, and one that fails. *)
Definition container_environ : gmap string string :=
<["AWS_CONTAINER_CREDENTIALS_RELATIVE_URI" := "/v2/credentials/role"]> ∅.

Definition container_response : gmap string string :=
list_to_map [("AccessKeyId", "AKIDCONTAINER"); ("SecretAccessKey", "secret");
             ("Token", "token"); ("Expiration", "2030-01-01T00:00:00Z")].

Definition container_provided_relative_uri (environ : gmap string string) : bool :=
bool_decide (is_Some (environ !! "AWS_CONTAINER_CREDENTIALS_RELATIVE_URI")).

Definition container_full_url (relative : string) : string :=
"http://169.254.170.2" ++ relative.

Definition container_endpoint (answer : retrieval) (uri : string) (headers : unit) (w : nat)
  : retrieval * nat :=
(answer, S w).

Definition container_parse (s : string) : result Z := Ok 1893456000.

Definition container_load (answer : retrieval) :=
load "AWS_CONTAINER_CREDENTIALS_RELATIVE_URI" "AWS_CONTAINER_CREDENTIALS_FULL_URI"
  "container-role" container_provided_relative_uri (fun _ => tt) container_full_url
  (container_endpoint answer) container_parse.

Lemma container_retrieval_errors_witness :
  container_load (MetadataRetrievalError "timed out") container_environ 0%nat
  = (Raise (CredentialRetrievalError "container-role" "timed out"), 1%nat).
Proof.
  refine (proj1 (container_retrieval_errors
           "AWS_CONTAINER_CREDENTIALS_RELATIVE_URI" "AWS_CONTAINER_CREDENTIALS_FULL_URI"
           "container-role" container_provided_relative_uri (fun _ => tt) container_full_url
           (container_endpoint (MetadataRetrievalError "timed out")) container_parse
           container_environ "http://169.254.170.2/v2/credentials/role" 0%nat 1%nat _)
           "timed out" _).
  - vm_compute; reflexivity.
  - reflexivity.
Defined.

Lemma container_credentials_refresh_from_same_uri_witness :
  exists c,
    container_load (Retrieved container_response) container_environ 0%nat = (Ok (Some c), 1%nat)
    /\ cr_access_key c = "AKIDCONTAINER" /\ cr_secret_key c = "secret"
    /\ cr_token c = "token"
    /\ cr_method c = "container-role" /\ cr_expiry_time c = 1893456000
    /\ forall w1,
         fetch_creds "container-role" (container_endpoint (Retrieved container_response))
           (cr_refresh_using c) w1
         = fetch_creds "container-role" (container_endpoint (Retrieved container_response))
             {| full_uri := "http://169.254.170.2/v2/credentials/role"; headers := tt |} w1.
Proof.
  apply (container_credentials_refresh_from_same_uri
           "AWS_CONTAINER_CREDENTIALS_RELATIVE_URI" "AWS_CONTAINER_CREDENTIALS_FULL_URI"
           "container-role" container_provided_relative_uri (fun _ => tt) container_full_url
           (container_endpoint (Retrieved container_response)) container_parse
           container_environ "http://169.254.170.2/v2/credentials/role" 0%nat 1%nat
           container_response "AKIDCONTAINER" "secret" "token" "2030-01-01T00:00:00Z"
           1893456000);
    vm_compute; reflexivity.
Defined.

Lemma container_incomplete_response_is_key_error_witness :
  container_load (Retrieved (delete "Token" container_response)) container_environ 0%nat
  = (Raise (KeyError "Token"), 1%nat).
Proof.
  apply (container_incomplete_response_is_key_error
           "AWS_CONTAINER_CREDENTIALS_RELATIVE_URI" "AWS_CONTAINER_CREDENTIALS_FULL_URI"
           "container-role" container_provided_relative_uri (fun _ => tt) container_full_url
           (container_endpoint (Retrieved (delete "Token" container_response))) container_parse
           container_environ "http://169.254.170.2/v2/credentials/role" 0%nat 1%nat
           (delete "Token" container_response) "Token");
    vm_compute; reflexivity.
Defined.

End Container.
